(** * TalentFlow: the mock backend and its persistence layer

    A shallow embedding of [src/lib/db.ts] (Dexie schema, seeder, [paginate])
    and [src/mirage/server.ts] (the request handlers), followed by the
    properties of the data layer.

    Conventions of the embedding.
    - JavaScript numbers that the code uses as integers (ids, orders, page
      numbers, timestamps) are [Z]; the value of one [Math.random()] call
      is a rational [Q] (every double is one).
    - A Dexie table with an inbound primary key ([jobs], [candidates],
      [assessments]) is a [gmap] from the key to the remaining properties
      of the object; the object is rebuilt from key and row on every read.
    - A Dexie table whose key is auto-incremented and never supplied by the
      code ([timelines], [assessmentResponses]) is the list of its rows in
      insertion order, which is the order of the generated ids.
    - [await sleep(...)] only delays the answer and is left out.
    - A handler is a function from the request, the outside world of the
      request ([Env]: random draw, clock, faker output) and the store to a
      response and the new store. *)

From Stdlib Require Import ZArith QArith Lia Ascii.
From stdpp Require Import base option list sorting gmap strings pretty.

Local Open Scope Z_scope.

(** ** JavaScript built-ins used by the code *)

Module Js.

(** [Array.prototype.sort] with a comparator [(a, b) => key(a) - key(b)]:
    a stable sort; [le a b] says that the comparator is not positive. *)
Fixpoint insert_by {A} (le : A -> A -> bool) (x : A) (l : list A) : list A :=
  match l with
  | [] => [x]
  | y :: l' => if le x y then x :: y :: l' else y :: insert_by le x l'
  end.

Definition sort_by {A} (le : A -> A -> bool) (l : list A) : list A :=
  foldr (insert_by le) [] l.

(** The relative index used by [slice] and [splice]: a negative index
    counts from the end, and the result is clamped to [0 .. len]. *)
Definition rel_index (len : nat) (i : Z) : nat :=
  if i <? 0 then Z.to_nat (Z.max (Z.of_nat len + i) 0)
  else Nat.min (Z.to_nat i) len.

(** [items.slice(start, end)] *)
Definition slice {A} (l : list A) (start stop : Z) : list A :=
  let k := rel_index (length l) start in
  let f := rel_index (length l) stop in
  take (f - k) (drop k l).

(** [arr.splice(start, 0, x)]: the array after the insertion *)
Definition splice_insert {A} (start : Z) (x : A) (l : list A) : list A :=
  let k := rel_index (length l) start in
  take k l ++ x :: drop k l.

(** [String.prototype.toLowerCase], on the ASCII letters *)
Definition lower_ascii (c : ascii) : ascii :=
  let n := nat_of_ascii c in
  if ((65 <=? n) && (n <=? 90))%nat then ascii_of_nat (n + 32) else c.

Fixpoint toLowerCase (s : string) : string :=
  match s with
  | EmptyString => EmptyString
  | String c s' => String (lower_ascii c) (toLowerCase s')
  end.

(** [hay.includes(needle)] *)
Fixpoint includes (hay needle : string) : bool :=
  String.prefix needle hay ||
  match hay with
  | EmptyString => false
  | String _ hay' => includes hay' needle
  end.

(** [Math.random() < p] *)
Definition lt_draw (r p : Q) : bool := negb (Qle_bool p r).

(** The value of [Math.max(1, Math.ceil(total / pageSize))] for an
    integer [pageSize] and a length [total]: division by zero gives
    [Infinity], or [NaN] for [0 / 0], and [Math.max] keeps both. *)
Inductive num := Fin (z : Z) | Infinity | NaN.

Definition ceil_div (a b : Z) : Z := - ((- a) / b).

Definition max1_ceil_div (total pageSize : Z) : num :=
  if pageSize =? 0 then (if total =? 0 then NaN else Infinity)
  else Fin (Z.max 1 (ceil_div total pageSize)).

End Js.

(** ** Data model ([src/lib/db.ts]) *)

Inductive JobStatus := active | archived.

Inductive CandidateStage := applied | screen | tech | offer | hired | rejected.

Inductive EventType := stage_change | note.

Inductive QuestionType := single | multi | short | long | numeric | file.

#[global] Instance JobStatus_eq_dec : EqDecision JobStatus.
Proof. solve_decision. Defined.
#[global] Instance CandidateStage_eq_dec : EqDecision CandidateStage.
Proof. solve_decision. Defined.
#[global] Instance EventType_eq_dec : EqDecision EventType.
Proof. solve_decision. Defined.
#[global] Instance QuestionType_eq_dec : EqDecision QuestionType.
Proof. solve_decision. Defined.

Module Job.
Record t := mk {
  id : Z;
  title : string;
  slug : string;
  status : JobStatus;
  tags : list string;
  order : Z;
  createdAt : Z;
  updatedAt : Z
}.

(** What the [jobs] table stores under the key [id]. *)
Record row := mkRow {
  r_title : string;
  r_slug : string;
  r_status : JobStatus;
  r_tags : list string;
  r_order : Z;
  r_createdAt : Z;
  r_updatedAt : Z
}.

Definition to_row (j : t) : row :=
  mkRow (title j) (slug j) (status j) (tags j) (order j) (createdAt j) (updatedAt j).

Definition of_row (k : Z) (r : row) : t :=
  mk k (r_title r) (r_slug r) (r_status r) (r_tags r) (r_order r)
     (r_createdAt r) (r_updatedAt r).

Definition set_order (idx : Z) (r : row) : row :=
  mkRow (r_title r) (r_slug r) (r_status r) (r_tags r) idx
        (r_createdAt r) (r_updatedAt r).
End Job.

Module Candidate.
Record t := mk {
  id : Z;
  jobId : option Z;
  name : string;
  email : string;
  stage : CandidateStage;
  createdAt : Z;
  updatedAt : Z
}.

Record row := mkRow {
  r_jobId : option Z;
  r_name : string;
  r_email : string;
  r_stage : CandidateStage;
  r_createdAt : Z;
  r_updatedAt : Z
}.

Definition to_row (c : t) : row :=
  mkRow (jobId c) (name c) (email c) (stage c) (createdAt c) (updatedAt c).

Definition of_row (k : Z) (r : row) : t :=
  mk k (r_jobId r) (r_name r) (r_email r) (r_stage r) (r_createdAt r) (r_updatedAt r).
End Candidate.

(** [CandidateTimelineEvent]; the generated [id] is the position in the
    table. An absent [from], [to] or [note] and a [null] one are both [None]. *)
Module Event.
Record t := mk {
  candidateId : Z;
  type : EventType;
  from : option CandidateStage;
  to : option CandidateStage;
  note : option string;
  at_ : Z
}.
End Event.

(** The value domain of [showIf.equals] and of an answer. *)
Inductive Scalar := SStr (s : string) | SNum (z : Z) | SBool (b : bool).

Module Question.
Record t := mk {
  id : string;
  type : QuestionType;
  label : string;
  required : option bool;
  options : option (list string);
  maxLength : option Z;
  min : option Z;
  max : option Z;
  showIf : option (string * Scalar)
}.
End Question.

Module Section_.
Record t := mk {
  id : string;
  title : string;
  questions : list Question.t
}.
End Section_.

Module Assessment.
Record t := mk {
  id : Z;
  jobId : Z;
  title : string;
  sections : list Section_.t;
  updatedAt : Z
}.

Record row := mkRow {
  r_jobId : Z;
  r_title : string;
  r_sections : list Section_.t;
  r_updatedAt : Z
}.

Definition to_row (a : t) : row :=
  mkRow (jobId a) (title a) (sections a) (updatedAt a).

Definition of_row (k : Z) (r : row) : t :=
  mk k (r_jobId r) (r_title r) (r_sections r) (r_updatedAt r).
End Assessment.

Module AssessmentResponse.
Record t := mk {
  jobId : Z;
  candidateId : Z;
  responses : list (string * Scalar);
  submittedAt : Z
}.
End AssessmentResponse.

(** ** The durable store ([TalentFlowDB]) *)

Record Store := mkStore {
  jobs : gmap Z Job.row;
  candidates : gmap Z Candidate.row;
  timelines : list Event.t;
  assessments : gmap Z Assessment.row;
  assessmentResponses : list AssessmentResponse.t;
  meta : gmap string bool
}.

Definition empty_store : Store := mkStore ∅ ∅ [] ∅ [] ∅.

Module Table.
Section ops.
Context {R : Type}.

Definition key_le (a b : Z * R) : bool := a.1 <=? b.1.

(** [table.toArray()]: the rows in primary-key order *)
Definition entries (t : gmap Z R) : list (Z * R) :=
  Js.sort_by key_le (map_to_list t).

(** [table.count()] *)
Definition count (t : gmap Z R) : Z := Z.of_nat (size t).

(** [table.put(obj)]: insert or replace under the object's key *)
Definition put (k : Z) (r : R) (t : gmap Z R) : gmap Z R := <[k := r]> t.

(** [table.add(obj)]: fails with a ConstraintError on an existing key *)
Definition add (k : Z) (r : R) (t : gmap Z R) : option (gmap Z R) :=
  match t !! k with
  | Some _ => None
  | None => Some (<[k := r]> t)
  end.

(** [table.update(key, changes)]: nothing happens on an absent key *)
Definition update (k : Z) (f : R -> R) (t : gmap Z R) : gmap Z R := alter f k t.

(** [table.bulkPut(objs)] *)
Definition bulkPut (objs : list (Z * R)) (t : gmap Z R) : gmap Z R :=
  foldl (fun acc kr => put kr.1 kr.2 acc) t objs.
End ops.
End Table.

(** ** The seeder ([ensureSeed]) *)

Definition TAGS : list string :=
  ["remote"; "hybrid"; "onsite"; "full-time"; "contract"; "urgent"; "junior"; "senior"].

Definition STAGES : list CandidateStage :=
  [applied; screen; tech; offer; hired; rejected].

(** Everything [ensureSeed] reads from outside the store: the clock, the
    faker library and [Math.random], indexed by the position of the call
    (job, candidate, hop, section, question). *)
Record SeedDraws := {
  seed_now : Z;
  job_title : nat -> string;
  job_status_draw : nat -> Q;
  job_tags : nat -> list string;
  job_age : nat -> Z;
  cand_job : nat -> nat;
  cand_name : nat -> string;
  cand_email : nat -> string;
  cand_stage : nat -> nat;
  cand_linked_draw : nat -> Q;
  cand_age : nat -> Z;
  cand_hops : nat -> nat;
  hop_stage : nat -> nat -> nat;
  q_type : nat -> nat -> nat -> nat;
  q_uuid : nat -> nat -> nat -> string;
  q_verb : nat -> nat -> nat -> string;
  q_noun : nat -> nat -> nat -> string;
  q_required_draw : nat -> nat -> nat -> Q;
  q_options : nat -> nat -> nat -> list string;
  cond_uuid : nat -> nat -> string;
  section_uuid : nat -> nat -> string
}.

Module Seed.

(** [faker.helpers.arrayElement(arr)], the draw being the index *)
Definition arrayElement {A} (d : A) (arr : list A) (k : nat) : A :=
  nth (k mod length arr) arr d.

Definition is_slug_char (c : ascii) : bool :=
  let n := nat_of_ascii c in
  (((97 <=? n) && (n <=? 122)) || ((48 <=? n) && (n <=? 57)))%nat.

(** [.replace(/[^a-z0-9]+/g, '-')]; [in_run] says that the previous
    character was already replaced. *)
Fixpoint dash_runs (in_run : bool) (s : string) : string :=
  match s with
  | EmptyString => EmptyString
  | String c s' =>
      if is_slug_char c then String c (dash_runs false s')
      else if in_run then dash_runs true s'
      else String "-" (dash_runs true s')
  end.

(** [.replace(/(^-|-$)/g, '')] *)
Definition strip_lead (s : string) : string :=
  match s with
  | String "-" s' => s'
  | _ => s
  end.

Fixpoint strip_trail (s : string) : string :=
  match s with
  | EmptyString => EmptyString
  | String c EmptyString => if Ascii.eqb c "-" then EmptyString else s
  | String c s' => String c (strip_trail s')
  end.

Definition slugBase (title : string) : string :=
  strip_trail (strip_lead (dash_runs false (Js.toLowerCase title))).

Definition job (d : SeedDraws) (i : nat) : Job.t :=
  let title := job_title d i in
  {| Job.id := Z.of_nat i + 1;
     Job.title := title;
     Job.slug := slugBase title +:+ "-" +:+ pretty (Z.of_nat i + 1);
     Job.status := if Js.lt_draw (job_status_draw d i) (75 # 100) then active else archived;
     Job.tags := job_tags d i;
     Job.order := Z.of_nat i;
     Job.createdAt := seed_now d - job_age d i;
     Job.updatedAt := seed_now d |}.

Definition jobs (d : SeedDraws) : list Job.t := map (job d) (seq 0 25).

Definition candidate (d : SeedDraws) (i : nat) : Candidate.t :=
  let job := arrayElement (job d 0) (jobs d) (cand_job d i) in
  {| Candidate.id := Z.of_nat i + 1;
     Candidate.jobId :=
       if Js.lt_draw (cand_linked_draw d i) (9 # 10) then Some (Job.id job) else None;
     Candidate.name := cand_name d i;
     Candidate.email := Js.toLowerCase (cand_email d i);
     Candidate.stage := arrayElement applied STAGES (cand_stage d i);
     Candidate.createdAt := seed_now d - cand_age d i;
     Candidate.updatedAt := seed_now d |}.

Definition candidates (d : SeedDraws) : list Candidate.t :=
  map (candidate d) (seq 0 1000).

(** The inner loop [for (let h = 0; h < hops; h++)], with [n] rounds left. *)
Fixpoint hop_events (d : SeedDraws) (ci : nat) (c : Candidate.t)
    (h n : nat) (current : CandidateStage) : list Event.t :=
  match n with
  | O => []
  | S n' =>
      let next := arrayElement applied STAGES (hop_stage d ci h) in
      Event.mk (Candidate.id c) stage_change (Some current) (Some next) None
               (Candidate.createdAt c + (Z.of_nat h + 1) * 86400000 / 2)
      :: hop_events d ci c (S h) n' next
  end.

Definition candidate_events (d : SeedDraws) (ci : nat) (c : Candidate.t) : list Event.t :=
  Event.mk (Candidate.id c) stage_change None (Some applied) None (Candidate.createdAt c)
  :: hop_events d ci c 0 (cand_hops d ci) applied.

Definition timelineEvents (d : SeedDraws) : list Event.t :=
  concat (imap (candidate_events d) (candidates d)).

Definition QTYPES : list QuestionType := [single; multi; short; long; numeric].

Definition question (d : SeedDraws) (idx sidx q : nat) : Question.t :=
  let qtype := arrayElement single QTYPES (q_type d idx sidx q) in
  {| Question.id := q_uuid d idx sidx q;
     Question.type := qtype;
     Question.label := q_verb d idx sidx q +:+ " " +:+ q_noun d idx sidx q +:+ "?";
     Question.required := Some (Js.lt_draw (q_required_draw d idx sidx q) (6 # 10));
     Question.options :=
       match qtype with
       | single | multi => Some (q_options d idx sidx q)
       | _ => None
       end;
     Question.maxLength :=
       match qtype with
       | short => Some 120
       | long => Some 600
       | _ => None
       end;
     Question.min := match qtype with numeric => Some 0 | _ => None end;
     Question.max := match qtype with numeric => Some 10 | _ => None end;
     Question.showIf := None |}.

Definition conditional (d : SeedDraws) (idx sidx : nat) (dep : Question.t) : Question.t :=
  {| Question.id := cond_uuid d idx sidx;
     Question.type := short;
     Question.label := "Why?";
     Question.required := Some true;
     Question.options := None;
     Question.maxLength := None;
     Question.min := None;
     Question.max := None;
     Question.showIf :=
       Some (Question.id dep,
             SStr (default "Yes" (Question.options dep ≫= head))) |}.

Definition section (d : SeedDraws) (idx sidx : nat) : Section_.t :=
  let qs := map (question d idx sidx) (seq 0 5) in
  let qs :=
    if (2 <? length qs)%nat then
      match qs with
      | dep :: _ => qs ++ [conditional d idx sidx dep]
      | [] => qs
      end
    else qs in
  {| Section_.id := section_uuid d idx sidx;
     Section_.title := "Section " +:+ pretty (Z.of_nat sidx + 1);
     Section_.questions := qs |}.

Definition assessment (d : SeedDraws) (idx : nat) (job : Job.t) : Assessment.t :=
  let sectionCount := (2 + idx mod 2)%nat in
  {| Assessment.id := Job.id job;
     Assessment.jobId := Job.id job;
     Assessment.title := Job.title job +:+ " Assessment";
     Assessment.sections := map (section d idx) (seq 0 sectionCount);
     Assessment.updatedAt := seed_now d |}.

Definition assessments (d : SeedDraws) : list Assessment.t :=
  imap (assessment d) (take 3 (jobs d)).

End Seed.

Definition seeded (st : Store) : bool :=
  match meta st !! "seeded" with
  | Some v => v
  | None => false
  end.

Definition ensureSeed (d : SeedDraws) (st : Store) : Store :=
  if seeded st then st
  else
    {| jobs :=
         Table.bulkPut (map (fun j => (Job.id j, Job.to_row j)) (Seed.jobs d)) (jobs st);
       candidates :=
         Table.bulkPut (map (fun c => (Candidate.id c, Candidate.to_row c)) (Seed.candidates d))
                       (candidates st);
       timelines := timelines st ++ Seed.timelineEvents d;
       assessments :=
         Table.bulkPut (map (fun a => (Assessment.id a, Assessment.to_row a)) (Seed.assessments d))
                       (assessments st);
       assessmentResponses := assessmentResponses st;
       meta := <["seeded" := true]> (meta st) |}.

(** ** Pagination ([paginate]) *)

Module Page.
Record t (T : Type) := mk {
  data : list T;
  page : Z;
  pageSize : Z;
  total : Z;
  pages : Js.num
}.
Arguments mk {T}.
Arguments data {T}.
Arguments page {T}.
Arguments pageSize {T}.
Arguments total {T}.
Arguments pages {T}.
End Page.

(** For an array and a positive integer [pageSize] the double division in
    [Math.ceil(total / pageSize)] is exact enough for [Math.ceil] to give
    the integer ceiling, which is what [Js.max1_ceil_div] computes. *)
Definition paginate {T} (items : list T) (page pageSize : Z) : Page.t T :=
  let total := Z.of_nat (length items) in
  let pages := Js.max1_ceil_div total pageSize in
  let start := (page - 1) * pageSize in
  let end_ := start + pageSize in
  Page.mk (Js.slice items start end_) page pageSize total pages.

(** ** The request handlers ([makeServer]) *)

(** The outside world of one request: the value of the failure draw
    [Math.random()], the successive readings of [Date.now()] in the
    handler, and what the seeder would read. *)
Record Env := {
  rnd : Q;
  now : nat -> Z;
  faker : SeedDraws
}.

(** A handler returns a body (status 200), a [new Response(status, {},
    {message})], or lets an exception of the store escape. *)
Inductive Response (A : Type) :=
  | Ok (body : A)
  | Fail (status : Z) (message : string)
  | Uncaught (error : string).
Arguments Ok {A}.
Arguments Fail {A}.
Arguments Uncaught {A}.

(** The body [{ ok: true }]. *)
Inductive Ack := ok_true.

Definition truthy (s : string) : bool := negb (String.eqb s EmptyString).

Definition set_jobs (t : gmap Z Job.row) (st : Store) : Store :=
  mkStore t (candidates st) (timelines st) (assessments st) (assessmentResponses st) (meta st).

Definition set_candidates (t : gmap Z Candidate.row) (st : Store) : Store :=
  mkStore (jobs st) t (timelines st) (assessments st) (assessmentResponses st) (meta st).

Definition add_timeline (e : Event.t) (st : Store) : Store :=
  mkStore (jobs st) (candidates st) (timelines st ++ [e]) (assessments st)
          (assessmentResponses st) (meta st).

Definition set_assessments (t : gmap Z Assessment.row) (st : Store) : Store :=
  mkStore (jobs st) (candidates st) (timelines st) t (assessmentResponses st) (meta st).

Definition add_assessmentResponse (r : AssessmentResponse.t) (st : Store) : Store :=
  mkStore (jobs st) (candidates st) (timelines st) (assessments st)
          (assessmentResponses st ++ [r]) (meta st).

(** *** Jobs *)

Definition status_name (s : JobStatus) : string :=
  match s with
  | active => "active"
  | archived => "archived"
  end.

Definition order_le (a b : Job.t) : bool := Job.order a <=? Job.order b.

Definition createdAt_desc (a b : Job.t) : bool := Job.createdAt b <=? Job.createdAt a.

(** [db.jobs.toArray()] *)
Definition jobs_toArray (st : Store) : list Job.t :=
  map (fun kr => Job.of_row kr.1 kr.2) (Table.entries (jobs st)).

(** [db.jobs.orderBy('order').toArray()]: by [order], then by primary key *)
Definition jobs_orderBy_order (st : Store) : list Job.t :=
  Js.sort_by order_le (jobs_toArray st).

(** [db.jobs.where('slug').equals(slug).first()] is defined *)
Definition slug_exists (slug : string) (st : Store) : bool :=
  existsb (fun j => String.eqb (Job.slug j) slug) (jobs_toArray st).

(** The query of [GET /jobs] after the defaults and [parseInt]; [jq_tags]
    is the comma-separated parameter split, trimmed and without empty
    entries. *)
Record JobsQuery := {
  jq_search : string;
  jq_status : string;
  jq_page : Z;
  jq_pageSize : Z;
  jq_sort : string;
  jq_tags : list string
}.

Definition job_status_filter (status : string) (j : Job.t) : bool :=
  if truthy status then String.eqb (status_name (Job.status j)) status else true.

Definition job_search_filter (searchLower : string) (j : Job.t) : bool :=
  if truthy searchLower
  then Js.includes (Js.toLowerCase (Job.title j)) searchLower
       || Js.includes (Job.slug j) searchLower
  else true.

Definition job_tags_filter (tags : list string) (j : Job.t) : bool :=
  if (0 <? length tags)%nat
  then existsb (fun t => existsb (String.eqb t) tags) (Job.tags j)
  else true.

Definition jobs_items (q : JobsQuery) (all : list Job.t) : list Job.t :=
  let searchLower := Js.toLowerCase (jq_search q) in
  let items :=
    List.filter (job_tags_filter (jq_tags q))
      (List.filter (job_search_filter searchLower)
         (List.filter (job_status_filter (jq_status q)) all)) in
  let items := if String.eqb (jq_sort q) "order" then Js.sort_by order_le items else items in
  let items :=
    if String.eqb (jq_sort q) "createdAt:desc" then Js.sort_by createdAt_desc items else items in
  items.

Definition get_jobs (env : Env) (q : JobsQuery) (st : Store)
    : Response (Page.t Job.t) * Store :=
  let st := ensureSeed (faker env) st in
  let all := jobs_toArray st in
  let items := jobs_items q all in
  (Ok (paginate items (jq_page q) (jq_pageSize q)), st).

Record JobBody := {
  b_title : string;
  b_slug : string;
  b_tags : option (list string)
}.

Definition post_jobs (env : Env) (body : JobBody) (st : Store)
    : Response Job.t * Store :=
  let st := ensureSeed (faker env) st in
  let now := now env 0 in
  let last := last (jobs_orderBy_order st) in
  let id := Table.count (jobs st) + 1 in
  if slug_exists (b_slug body) st then (Fail 400 "Slug must be unique", st)
  else
    let job :=
      {| Job.id := id;
         Job.title := b_title body;
         Job.slug := b_slug body;
         Job.status := active;
         Job.tags := default [] (b_tags body);
         Job.order := default (-1) (Job.order <$> last) + 1;
         Job.createdAt := now;
         Job.updatedAt := now |} in
    if Js.lt_draw (rnd env) (8 # 100) then (Fail 500 "Random failure (simulated)", st)
    else
      match Table.add (Job.id job) (Job.to_row job) (jobs st) with
      | None => (Uncaught "ConstraintError", st)
      | Some t => (Ok job, set_jobs t st)
      end.

(** A [Partial<Job>] request body. *)
Record JobPatch := {
  p_id : option Z;
  p_title : option string;
  p_slug : option string;
  p_status : option JobStatus;
  p_tags : option (list string);
  p_order : option Z;
  p_createdAt : option Z;
  p_updatedAt : option Z
}.

(** [{ ...job, ...patch, updatedAt: Date.now() }] *)
Definition job_spread (job : Job.t) (patch : JobPatch) (now : Z) : Job.t :=
  {| Job.id := default (Job.id job) (p_id patch);
     Job.title := default (Job.title job) (p_title patch);
     Job.slug := default (Job.slug job) (p_slug patch);
     Job.status := default (Job.status job) (p_status patch);
     Job.tags := default (Job.tags job) (p_tags patch);
     Job.order := default (Job.order job) (p_order patch);
     Job.createdAt := default (Job.createdAt job) (p_createdAt patch);
     Job.updatedAt := now |}.

(** [patch.slug && patch.slug !== job.slug], and then a job with that slug
    exists *)
Definition patch_slug_taken (patch : JobPatch) (job : Job.t) (st : Store) : bool :=
  match p_slug patch with
  | Some s => truthy s && negb (String.eqb s (Job.slug job)) && slug_exists s st
  | None => false
  end.

Definition patch_job (env : Env) (id : Z) (patch : JobPatch) (st : Store)
    : Response Job.t * Store :=
  let st := ensureSeed (faker env) st in
  match jobs st !! id with
  | None => (Fail 404 "Not found", st)
  | Some row =>
      let job := Job.of_row id row in
      let updated := job_spread job patch (now env 0) in
      if patch_slug_taken patch job st then (Fail 400 "Slug must be unique", st)
      else if Js.lt_draw (rnd env) (8 # 100) then (Fail 500 "Random failure (simulated)", st)
      else (Ok updated, set_jobs (Table.put (Job.id updated) (Job.to_row updated) (jobs st)) st)
  end.

(** [others.map((j, idx) => db.jobs.update(j.id, { order: idx }))], inside
    one transaction; [idx] is the index of the head of [l]. *)
Fixpoint reindex (idx : nat) (l : list Job.t) (t : gmap Z Job.row) : gmap Z Job.row :=
  match l with
  | [] => t
  | j :: l' =>
      reindex (S idx) l' (Table.update (Job.id j) (Job.set_order (Z.of_nat idx)) t)
  end.

(** The body of a reorder request, [{ fromOrder, toOrder }]. *)
Record ReorderBody := mkReorder {
  fromOrder : Z;
  toOrder : Z
}.

Definition reorder_job (env : Env) (id : Z) (body : ReorderBody) (st : Store)
    : Response Ack * Store :=
  let st := ensureSeed (faker env) st in
  if Js.lt_draw (rnd env) (1 # 10) then (Fail 500 "Reorder failed (simulated)", st)
  else
    let all := jobs_orderBy_order st in
    match find (fun j => Job.id j =? id) all with
    | None => (Fail 404 "Not found", st)
    | Some moved =>
        let others :=
          Js.sort_by order_le (List.filter (fun j => negb (Job.id j =? id)) all) in
        let others := Js.splice_insert (toOrder body) moved others in
        (Ok ok_true, set_jobs (reindex 0 others (jobs st)) st)
    end.

(** *** Candidates *)

Definition stage_name (s : CandidateStage) : string :=
  match s with
  | applied => "applied"
  | screen => "screen"
  | tech => "tech"
  | offer => "offer"
  | hired => "hired"
  | rejected => "rejected"
  end.

Definition cand_createdAt_desc (a b : Candidate.t) : bool :=
  Candidate.createdAt b <=? Candidate.createdAt a.

(** [db.candidates.toArray()] *)
Definition candidates_toArray (st : Store) : list Candidate.t :=
  map (fun kr => Candidate.of_row kr.1 kr.2) (Table.entries (candidates st)).

Record CandidatesQuery := {
  cq_search : string;
  cq_stage : string;
  cq_page : Z;
  cq_pageSize : Z
}.

Definition cand_stage_filter (stage : string) (c : Candidate.t) : bool :=
  String.eqb (stage_name (Candidate.stage c)) stage.

Definition cand_search_filter (searchLower : string) (c : Candidate.t) : bool :=
  Js.includes (Js.toLowerCase (Candidate.name c)) searchLower
  || Js.includes (Js.toLowerCase (Candidate.email c)) searchLower.

Definition candidates_items (q : CandidatesQuery) (all : list Candidate.t)
    : list Candidate.t :=
  let searchLower := Js.toLowerCase (cq_search q) in
  let all := if truthy (cq_stage q) then List.filter (cand_stage_filter (cq_stage q)) all else all in
  let all := if truthy searchLower then List.filter (cand_search_filter searchLower) all else all in
  Js.sort_by cand_createdAt_desc all.

Definition get_candidates (env : Env) (q : CandidatesQuery) (st : Store)
    : Response (Page.t Candidate.t) * Store :=
  let st := ensureSeed (faker env) st in
  let all := candidates_toArray st in
  (Ok (paginate (candidates_items q all) (cq_page q) (cq_pageSize q)), st).

Record CandidateBody := {
  cb_jobId : option Z;
  cb_name : string;
  cb_email : string
}.

Definition post_candidates (env : Env) (body : CandidateBody) (st : Store)
    : Response Candidate.t * Store :=
  let st := ensureSeed (faker env) st in
  let id := Table.count (candidates st) + 1 in
  let cand :=
    {| Candidate.id := id;
       Candidate.jobId := cb_jobId body;
       Candidate.name := cb_name body;
       Candidate.email := cb_email body;
       Candidate.stage := applied;
       Candidate.createdAt := now env 0;
       Candidate.updatedAt := now env 1 |} in
  if Js.lt_draw (rnd env) (8 # 100) then (Fail 500 "Random failure (simulated)", st)
  else
    match Table.add (Candidate.id cand) (Candidate.to_row cand) (candidates st) with
    | None => (Uncaught "ConstraintError", st)
    | Some t =>
        let st := set_candidates t st in
        let st := add_timeline (Event.mk id stage_change None (Some applied) None (now env 2)) st in
        (Ok cand, st)
    end.

(** A [Partial<Candidate>] request body; [jobId] may be set to [null]. *)
Record CandidatePatch := {
  cp_id : option Z;
  cp_jobId : option (option Z);
  cp_name : option string;
  cp_email : option string;
  cp_stage : option CandidateStage;
  cp_createdAt : option Z;
  cp_updatedAt : option Z
}.

(** [{ ...cand, ...patch, updatedAt: Date.now() }] *)
Definition candidate_spread (cand : Candidate.t) (patch : CandidatePatch) (now : Z)
    : Candidate.t :=
  {| Candidate.id := default (Candidate.id cand) (cp_id patch);
     Candidate.jobId := default (Candidate.jobId cand) (cp_jobId patch);
     Candidate.name := default (Candidate.name cand) (cp_name patch);
     Candidate.email := default (Candidate.email cand) (cp_email patch);
     Candidate.stage := default (Candidate.stage cand) (cp_stage patch);
     Candidate.createdAt := default (Candidate.createdAt cand) (cp_createdAt patch);
     Candidate.updatedAt := now |}.

(** [patch.stage && patch.stage !== cand.stage]: every stage name is a
    non-empty string, hence truthy. *)
Definition stage_changes (patch : CandidatePatch) (cand : Candidate.t)
    : option CandidateStage :=
  match cp_stage patch with
  | Some s => if decide (s = Candidate.stage cand) then None else Some s
  | None => None
  end.

Definition patch_candidate (env : Env) (id : Z) (patch : CandidatePatch) (st : Store)
    : Response Candidate.t * Store :=
  let st := ensureSeed (faker env) st in
  match candidates st !! id with
  | None => (Fail 404 "Not found", st)
  | Some row =>
      let cand := Candidate.of_row id row in
      let '(st, reads) :=
        match stage_changes patch cand with
        | Some s =>
            (add_timeline
               (Event.mk id stage_change (Some (Candidate.stage cand)) (Some s) None (now env 0))
               st, 1%nat)
        | None => (st, 0%nat)
        end in
      if Js.lt_draw (rnd env) (8 # 100) then (Fail 500 "Random failure (simulated)", st)
      else
        let updated := candidate_spread cand patch (now env reads) in
        (Ok updated,
         set_candidates
           (Table.put (Candidate.id updated) (Candidate.to_row updated) (candidates st)) st)
  end.

Definition at_le (a b : Event.t) : bool := Event.at_ a <=? Event.at_ b.

(** [db.timelines.where('candidateId').equals(id).sortBy('at')] *)
Definition timeline_of (id : Z) (st : Store) : list Event.t :=
  Js.sort_by at_le (List.filter (fun e => Event.candidateId e =? id) (timelines st)).

Definition get_timeline (env : Env) (id : Z) (st : Store)
    : Response (list Event.t) * Store :=
  let st := ensureSeed (faker env) st in
  (Ok (timeline_of id st), st).

(** [String.prototype.trim], on the ASCII white space *)
Definition is_ws (c : ascii) : bool :=
  let n := nat_of_ascii c in
  (((9 <=? n) && (n <=? 13)) || (n =? 32))%nat.

Fixpoint trimStart (s : string) : string :=
  match s with
  | EmptyString => EmptyString
  | String c s' => if is_ws c then trimStart s' else s
  end.

Fixpoint trimEnd (s : string) : string :=
  match s with
  | EmptyString => EmptyString
  | String c s' =>
      let r := trimEnd s' in
      if is_ws c && String.eqb r EmptyString then EmptyString else String c r
  end.

Definition trim (s : string) : string := trimEnd (trimStart s).

(** The note of the body, [None] when the property is missing. *)
Definition post_note (env : Env) (id : Z) (note_ : option string) (st : Store)
    : Response Ack * Store :=
  let st := ensureSeed (faker env) st in
  match note_ with
  | None => (Fail 400 "Note is required", st)
  | Some text =>
      if negb (truthy text) || String.eqb (trim text) EmptyString
      then (Fail 400 "Note is required", st)
      else (Ok ok_true, add_timeline (Event.mk id note None None (Some text) (now env 0)) st)
  end.

(** *** Assessments *)

Definition get_assessment (env : Env) (jobId : Z) (st : Store)
    : Response Assessment.t * Store :=
  let st := ensureSeed (faker env) st in
  match assessments st !! jobId with
  | None => (Fail 404 "Not found", st)
  | Some row => (Ok (Assessment.of_row jobId row), st)
  end.

Definition put_assessment (env : Env) (jobId : Z) (body : Assessment.t) (st : Store)
    : Response Ack * Store :=
  let st := ensureSeed (faker env) st in
  if Js.lt_draw (rnd env) (8 # 100) then (Fail 500 "Random failure (simulated)", st)
  else
    let a :=
      {| Assessment.id := jobId;
         Assessment.jobId := jobId;
         Assessment.title := Assessment.title body;
         Assessment.sections := Assessment.sections body;
         Assessment.updatedAt := now env 0 |} in
    (Ok ok_true,
     set_assessments (Table.put (Assessment.id a) (Assessment.to_row a) (assessments st)) st).

Definition submit_assessment (env : Env) (jobId candidateId : Z)
    (responses : list (string * Scalar)) (st : Store) : Response Ack * Store :=
  let st := ensureSeed (faker env) st in
  (Ok ok_true,
   add_assessmentResponse (AssessmentResponse.mk jobId candidateId responses (now env 0)) st).

(** A response is a failure when it is not a body. *)
Definition is_failure {A} (r : Response A) : bool :=
  match r with
  | Ok _ => false
  | _ => true
  end.

(** ** Auxiliary definitions for the statements *)

(** The rows of the table after the re-indexing of a list that holds
    every job of the table once. *)
Definition reindexed (l : list Job.t) : list (Z * Job.row) :=
  imap (fun i j => (Job.id j, Job.set_order (Z.of_nat i) (Job.to_row j))) l.

(** ** What the specification says, in its own words *)

Module Spec.

(** [c = ceil(a / b)] for a positive [b]. *)
Definition is_ceil (c a b : Z) : Prop := b * (c - 1) < a <= b * c.

(** [l[a : b]]: the elements at the positions [a <= i < b]. *)
Definition range {T} (l : list T) (a b : Z) : list T :=
  take (Z.to_nat (b - a)) (drop (Z.to_nat a) l).

(** The result [{data, page, pageSize, total, pages}] for the filtered
    and sorted list [items]. *)
Definition is_page_of {T} (items : list T) (page pageSize : Z) (r : Page.t T) : Prop :=
  Page.page r = page /\
  Page.pageSize r = pageSize /\
  Page.total r = Z.of_nat (length items) /\
  (exists c, is_ceil c (Z.of_nat (length items)) pageSize /\
             Page.pages r = Js.Fin (Z.max 1 c)) /\
  Page.data r = range items ((page - 1) * pageSize) (page * pageSize) /\
  (forall p, Page.pages r = Js.Fin p -> p < page -> Page.data r = []).

(** The AND-composed filters of the two list operations. *)
Definition job_selected (q : JobsQuery) (j : Job.t) : bool :=
  job_status_filter (jq_status q) j
  && job_search_filter (Js.toLowerCase (jq_search q)) j
  && job_tags_filter (jq_tags q) j.

Definition job_sorted (sort : string) (items : list Job.t) : list Job.t :=
  if String.eqb sort "order" then Js.sort_by order_le items
  else if String.eqb sort "createdAt:desc" then Js.sort_by createdAt_desc items
  else items.

Definition candidate_selected (q : CandidatesQuery) (c : Candidate.t) : bool :=
  (if truthy (cq_stage q) then cand_stage_filter (cq_stage q) c else true)
  && (if truthy (Js.toLowerCase (cq_search q))
      then cand_search_filter (Js.toLowerCase (cq_search q)) c else true).

(** Case-insensitive substring match: [search] occurs in [field] when
    the case of the letters is ignored. *)
Definition ci_includes (field search : string) : bool :=
  Js.includes (Js.toLowerCase field) (Js.toLowerCase search).

(** The slugs of the Jobs table are pairwise distinct. *)
Definition slugs_distinct (t : gmap Z Job.row) : Prop :=
  forall k1 k2 r1 r2,
    t !! k1 = Some r1 -> t !! k2 = Some r2 ->
    Job.r_slug r1 = Job.r_slug r2 -> k1 = k2.

End Spec.

(** ** Concrete requests and stores used as test inputs *)

Module Examples.

(** A faker that always answers the same. *)
Definition draws : SeedDraws :=
  {| seed_now := 1000;
     job_title := fun _ => "QA Lead";
     job_status_draw := fun _ => 1 # 2;
     job_tags := fun _ => ["remote"];
     job_age := fun _ => 0;
     cand_job := fun _ => 0%nat;
     cand_name := fun _ => "Ada Low";
     cand_email := fun _ => "Ada.Low@example.com";
     cand_stage := fun _ => 0%nat;
     cand_linked_draw := fun _ => 1 # 2;
     cand_age := fun _ => 0;
     cand_hops := fun _ => 1%nat;
     hop_stage := fun _ _ => 1%nat;
     q_type := fun _ _ _ => 0%nat;
     q_uuid := fun _ _ _ => "q";
     q_verb := fun _ _ _ => "parse";
     q_noun := fun _ _ _ => "bus";
     q_required_draw := fun _ _ _ => 1 # 2;
     q_options := fun _ _ _ => ["a"; "b"; "c"; "d"];
     cond_uuid := fun _ _ => "c";
     section_uuid := fun _ _ => "s" |}.

(** The failure draw passes. *)
Definition env_pass : Env := {| rnd := 1 # 2; now := fun _ => 2000; faker := draws |}.

(** The failure draw fails: [Math.random()] returned 0.05. *)
Definition env_fail : Env := {| rnd := 5 # 100; now := fun _ => 2000; faker := draws |}.

Definition job_a : Job.row := Job.mkRow "Alpha" "alpha" active [] 0 10 10.
Definition job_b : Job.row := Job.mkRow "Beta" "beta" active [] 1 20 20.
Definition job_c : Job.row := Job.mkRow "Gamma" "gamma" archived [] 2 30 30.

Definition cand_1 : Candidate.row :=
  Candidate.mkRow None "Ada Low" "ada@example.com" applied 10 10.

(** A seeded store with three jobs and one candidate. *)
Definition small : Store :=
  {| jobs := <[1 := job_a]> (<[2 := job_b]> (<[3 := job_c]> ∅));
     candidates := <[1 := cand_1]> ∅;
     timelines := [Event.mk 1 stage_change None (Some applied) None 10];
     assessments := ∅;
     assessmentResponses := [];
     meta := <["seeded" := true]> ∅ |}.

(** A job whose slug has capital letters, as [POST /jobs] accepts it. *)
Definition job_upper : Job.row := Job.mkRow "Lead" "QA-Lead" active [] 3 40 40.

Definition with_upper : Store := set_jobs (<[4 := job_upper]> (jobs small)) small.

Definition search_qa : JobsQuery :=
  {| jq_search := "qa"; jq_status := EmptyString; jq_page := 1; jq_pageSize := 10;
     jq_sort := "order"; jq_tags := [] |}.

(** The body [{ stage: "screen" }]. *)
Definition to_screen : CandidatePatch :=
  {| cp_id := None; cp_jobId := None; cp_name := None; cp_email := None;
     cp_stage := Some screen; cp_createdAt := None; cp_updatedAt := None |}.

(** A store in which job 1 has the empty slug, as [POST /jobs] with
    an empty [slug] leaves it. *)
Definition job_noslug : Job.row := Job.mkRow "Alpha" EmptyString active [] 0 10 10.

Definition with_empty_slug : Store :=
  set_jobs (<[1 := job_noslug]> (<[2 := job_b]> ∅)) small.

(** The body whose only property is an empty [slug]. *)
Definition slug_to_empty : JobPatch :=
  {| p_id := None; p_title := None; p_slug := Some EmptyString; p_status := None;
     p_tags := None; p_order := None; p_createdAt := None; p_updatedAt := None |}.

(** The body [{ id: 2 }]. *)
Definition id_to_2 : JobPatch :=
  {| p_id := Some 2; p_title := None; p_slug := None; p_status := None;
     p_tags := None; p_order := None; p_createdAt := None; p_updatedAt := None |}.

End Examples.

(** ** Further definitions: the pages that use the handlers *)

(** Strictly ascending in an integer key. *)
Definition key_lt {A} (key : A -> Z) (a b : A) : Prop := key a < key b.

(** The page numbers [1 .. n]. *)
Definition page_numbers (n : nat) : list Z := map Z.of_nat (seq 1 n).

(** The [data] of a list response; a failure has none. *)
Definition page_data {T} (r : Response (Page.t T)) : list T :=
  match r with
  | Ok p => Page.data p
  | _ => []
  end.

(** The same query for another page. *)
Definition jobs_query_page (q : JobsQuery) (p : Z) : JobsQuery :=
  {| jq_search := jq_search q; jq_status := jq_status q; jq_page := p;
     jq_pageSize := jq_pageSize q; jq_sort := jq_sort q; jq_tags := jq_tags q |}.


(** Everything [GET /jobs] answers for a query, page 1 to page [n]. *)
Definition jobs_all_pages (env : Env) (q : JobsQuery) (st : Store) (n : nat) : list Job.t :=
  concat (map (fun p => page_data (get_jobs env (jobs_query_page q p) st).1) (page_numbers n)).


Module QueryExamples.

(** Every job, two per page, by [order]. *)
Definition by_two : JobsQuery :=
  {| jq_search := EmptyString; jq_status := EmptyString; jq_page := 1; jq_pageSize := 2;
     jq_sort := "order"; jq_tags := [] |}.


End QueryExamples.

(** The keys of a table are exactly 1, 2, ..., [count]: the shape the
    seeder and the create handlers, which use [count + 1] as the next id,
    give to [jobs] and [candidates]. *)
Definition ids_dense {R} (t : gmap Z R) : Prop :=
  forall k, is_Some (t !! k) <-> 1 <= k <= Z.of_nat (size t).

(** The jobs listed by [order] have the orders 0, 1, ..., n-1. *)
Definition orders_dense (st : Store) : Prop :=
  map Job.order (jobs_orderBy_order st) = map Z.of_nat (seq 0 (size (jobs st))).

Module JobExamples.

(** The body and the query of the round trip: a new job "Engineer", then
    the active jobs that match "engineer". *)
Definition engineer : JobBody :=
  {| b_title := "Engineer"; b_slug := "engineer-99"; b_tags := Some ["remote"] |}.

Definition active_engineers : JobsQuery :=
  {| jq_search := "engineer"; jq_status := "active"; jq_page := 1; jq_pageSize := 10;
     jq_sort := "order"; jq_tags := [] |}.

End JobExamples.

Module PatchExamples.

(** The body [{ slug: "beta" }]. *)
Definition slug_to_beta : JobPatch :=
  {| p_id := None; p_title := None; p_slug := Some "beta"; p_status := None;
     p_tags := None; p_order := None; p_createdAt := None; p_updatedAt := None |}.

End PatchExamples.

(** ** The route table ([routes()]) *)

(** One constructor per route of [makeServer], with the path parameters
    and the parsed query or body. *)
Inductive Request :=
  | GetJobs (q : JobsQuery)
  | PostJobs (body : JobBody)
  | PatchJob (id : Z) (patch : JobPatch)
  | ReorderJob (id : Z) (body : ReorderBody)
  | GetCandidates (q : CandidatesQuery)
  | PostCandidates (body : CandidateBody)
  | PatchCandidate (id : Z) (patch : CandidatePatch)
  | GetTimeline (id : Z)
  | PostNote (id : Z) (note_ : option string)
  | GetAssessment (jobId : Z)
  | PutAssessment (jobId : Z) (body : Assessment.t)
  | SubmitAssessment (jobId candidateId : Z) (responses : list (string * Scalar)).

(** The routes registered with [this.get]. *)
Definition is_get (req : Request) : bool :=
  match req with
  | GetJobs _ | GetCandidates _ | GetTimeline _ | GetAssessment _ => true
  | _ => false
  end.

(** The server: the handler of the route; the answer is kept as "failed
    or not", the store as the handler left it. *)
Definition serve (env : Env) (req : Request) (st : Store) : bool * Store :=
  match req with
  | GetJobs q => let '(r, s) := get_jobs env q st in (is_failure r, s)
  | PostJobs body => let '(r, s) := post_jobs env body st in (is_failure r, s)
  | PatchJob id patch => let '(r, s) := patch_job env id patch st in (is_failure r, s)
  | ReorderJob id body => let '(r, s) := reorder_job env id body st in (is_failure r, s)
  | GetCandidates q => let '(r, s) := get_candidates env q st in (is_failure r, s)
  | PostCandidates body => let '(r, s) := post_candidates env body st in (is_failure r, s)
  | PatchCandidate id patch =>
      let '(r, s) := patch_candidate env id patch st in (is_failure r, s)
  | GetTimeline id => let '(r, s) := get_timeline env id st in (is_failure r, s)
  | PostNote id note_ => let '(r, s) := post_note env id note_ st in (is_failure r, s)
  | GetAssessment jobId => let '(r, s) := get_assessment env jobId st in (is_failure r, s)
  | PutAssessment jobId body =>
      let '(r, s) := put_assessment env jobId body st in (is_failure r, s)
  | SubmitAssessment jobId candidateId responses =>
      let '(r, s) := submit_assessment env jobId candidateId responses st in (is_failure r, s)
  end.

(** A session: the requests served one after the other, each with its own
    outside world. *)
Fixpoint serve_all (reqs : list (Env * Request)) (st : Store) : Store :=
  match reqs with
  | [] => st
  | (env, req) :: reqs' => serve_all reqs' (serve env req st).2
  end.

Module SessionExamples.

(** A session on the small store: a note, a failed stage change, a reorder
    and a new job. *)
Definition session : list (Env * Request) :=
  [ (Examples.env_pass, PostNote 1 (Some "called"));
    (Examples.env_fail, PatchCandidate 1 Examples.to_screen);
    (Examples.env_pass, ReorderJob 3 (mkReorder 2 0));
    (Examples.env_pass, PostJobs JobExamples.engineer) ].

End SessionExamples.

(** Every character of the string is white space (none, for the empty
    string). *)
Fixpoint all_ws (s : string) : bool :=
  match s with
  | EmptyString => true
  | String c s' => is_ws c && all_ws s'
  end.

Module AssessmentExamples.

(** An assessment body that names another job than the path will. *)
Definition quiz : Assessment.t :=
  {| Assessment.id := 9; Assessment.jobId := 9; Assessment.title := "Quiz";
     Assessment.sections := [Section_.mk "s1" "Basics" []];
     Assessment.updatedAt := 0 |}.

End AssessmentExamples.

(** The string has a dash, and what follows its last dash. *)
Fixpoint has_dash (s : string) : bool :=
  match s with
  | EmptyString => false
  | String c s' => Ascii.eqb c "-" || has_dash s'
  end.

Fixpoint after_last_dash (s : string) : string :=
  match s with
  | EmptyString => EmptyString
  | String c s' =>
      if has_dash s' then after_last_dash s'
      else if Ascii.eqb c "-" then s' else s
  end.

(** The stage changes of [es] follow one another from the stage [prev]:
    every event starts where the one before it ended. *)
Fixpoint chained (prev : option CandidateStage) (es : list Event.t) : Prop :=
  match es with
  | [] => True
  | e :: es' => Event.from e = prev /\ chained (Event.to e) es'
  end.

(** A section as the seeder builds it: five questions without a condition,
    then one conditional question that is shown when the first question
    has its first option (or "Yes" when it has no options) as answer. *)
Definition seeded_section_shape (s : Section_.t) : Prop :=
  exists q0 mid qc,
    Section_.questions s = q0 :: mid ++ [qc] /\
    length mid = 4%nat /\
    Forall (fun q => Question.showIf q = None) (q0 :: mid) /\
    Question.showIf qc
    = Some (Question.id q0, SStr (default "Yes" (Question.options q0 ≫= head))) /\
    Question.type qc = short /\ Question.required qc = Some true.

(** ** The shape of the store *)

(** What the seeder establishes and the pages rely on: the store is
    seeded, the slugs are pairwise distinct, the job ids are 1..n with the
    orders 0..n-1, and the candidate ids are 1..m. *)
Definition store_ok (st : Store) : Prop :=
  seeded st = true /\
  Spec.slugs_distinct (jobs st) /\
  ids_dense (jobs st) /\
  orders_dense st /\
  ids_dense (candidates st).

(** The requests that the pages send: a job patch carries no [id], no
    [order] and no empty slug, a candidate patch no [id]. *)
Definition well_behaved (req : Request) : Prop :=
  match req with
  | PatchJob _ p => p_id p = None /\ p_order p = None /\ p_slug p <> Some EmptyString
  | PatchCandidate _ p => cp_id p = None
  | _ => True
  end.

(** ** The jobs page ([src/app/jobs/page.tsx]) *)





Module JobsPage.

(** [arr.findIndex(p)] *)
Fixpoint findIndex {A} (p : A -> bool) (l : list A) : Z :=
  match l with
  | [] => -1
  | x :: l' =>
      if p x then 0
      else let i := findIndex p l' in if i <? 0 then -1 else i + 1
  end.

(** [const [item] = arr.splice(start, 1)]: the item taken out, if there
    is one at [start], and the array that is left. *)
Definition splice_out {A} (start : Z) (l : list A) : option A * list A :=
  let i := Js.rel_index (length l) start in
  (l !! i, delete i l).

(** [{ ...x, order }] *)
Definition with_order (x : Job.t) (order : Z) : Job.t :=
  Job.mk (Job.id x) (Job.title x) (Job.slug x) (Job.status x) (Job.tags x) order
         (Job.createdAt x) (Job.updatedAt x).

(** What a reorder does on the page before the server has answered: the
    jobs that [setResp] shows from now on, and the request
    [PATCH /jobs/:id/reorder] that is sent. When the request fails the
    page shows the jobs of before again. *)
Record Optimistic := {
  shown : list Job.t;
  sent_id : Z;
  sent_body : ReorderBody
}.

(** [move(j, direction)] on the jobs [data] of the page; [None] when
    nothing happens. After the range check the list has an item to take
    out, so the last case is never met. *)
Definition move (data : list Job.t) (j : Job.t) (direction : Z) : option Optimistic :=
  let list := Js.sort_by order_le data in
  let idx := findIndex (fun x => Job.id x =? Job.id j) list in
  let to := idx + direction in
  if (to <? 0) || (Z.of_nat (length list) <=? to) then None
  else
    match splice_out idx list with
    | (Some item, swapped) =>
        let swapped := Js.splice_insert to item swapped in
        let remapped := imap (fun i x => with_order x (Z.of_nat i)) swapped in
        Some {| shown := remapped; sent_id := Job.id j; sent_body := mkReorder idx to |}
    | (None, _) => None
    end.

(** The [onDrop] handler of the row [idx], [dragIndex] being the row that
    is dragged; [None] when nothing happens. With no item at [dragIndex]
    the request cannot be built ([item.id] throws inside the [try]) and
    the page goes back to the jobs of before. *)
Definition onDrop (data : list Job.t) (dragIndex : option nat) (idx : nat)
    : option Optimistic :=
  match dragIndex with
  | None => None
  | Some from =>
      if (from =? idx)%nat then None
      else
        match splice_out (Z.of_nat from) data with
        | (Some item, pageList) =>
            let pageList := Js.splice_insert (Z.of_nat idx) item pageList in
            let base := default 0 (Job.order <$> head data) in
            let remapped := imap (fun i x => with_order x (base + Z.of_nat i)) pageList in
            Some {| shown := remapped; sent_id := Job.id item;
                    sent_body := mkReorder (Z.of_nat from) (Z.of_nat idx) |}
        | (None, _) => None
        end
  end.

(** [{ ...resp, data }]: the page with other jobs to show. *)
Definition with_data (resp : Page.t Job.t) (data : list Job.t) : Page.t Job.t :=
  Page.mk data (Page.page resp) (Page.pageSize resp) (Page.total resp) (Page.pages resp).

(** The query of the page when no filter is set. *)
Definition query (page pageSize : Z) : JobsQuery :=
  {| jq_search := EmptyString; jq_status := EmptyString; jq_page := page;
     jq_pageSize := pageSize; jq_sort := "order"; jq_tags := [] |}.

End JobsPage.

(** * Properties *)

(** ** The built-ins *)

Section sort_facts.
Context {A : Type} (le : A -> A -> bool).

Lemma insert_by_perm (x : A) (l : list A) : Js.insert_by le x l ≡ₚ x :: l.
Proof.
  induction l as [|y l IH]; simpl; [done|].
  destruct (le x y); [done|].
  rewrite IH. apply perm_swap.
Qed.

Lemma sort_by_perm (l : list A) : Js.sort_by le l ≡ₚ l.
Proof.
  induction l as [|x l IH]; simpl; [done|].
  unfold Js.sort_by in *. rewrite insert_by_perm. by rewrite IH.
Qed.

Lemma sort_by_length (l : list A) : length (Js.sort_by le l) = length l.
Proof. by rewrite sort_by_perm. Qed.
End sort_facts.

Lemma rel_index_le (len : nat) (i : Z) : (Js.rel_index len i <= len)%nat.
Proof. unfold Js.rel_index. destruct (Z.ltb_spec i 0); lia. Qed.

Lemma splice_insert_perm {A} (start : Z) (x : A) (l : list A) :
  Js.splice_insert start x l ≡ₚ x :: l.
Proof.
  unfold Js.splice_insert.
  rewrite <- Permutation_middle. by rewrite take_drop.
Qed.

Lemma splice_insert_lookup {A} (start : Z) (x : A) (l : list A) :
  Js.splice_insert start x l !! Js.rel_index (length l) start = Some x.
Proof.
  unfold Js.splice_insert.
  pose proof (rel_index_le (length l) start) as Hle.
  rewrite lookup_app_r; rewrite length_take; [|lia].
  replace (_ - _)%nat with 0%nat by lia. done.
Qed.

(** ** The tables *)

Lemma entries_perm {R} (t : gmap Z R) : Table.entries t ≡ₚ map_to_list t.
Proof. apply sort_by_perm. Qed.

Lemma Job_to_of_row (k : Z) (r : Job.row) : Job.to_row (Job.of_row k r) = r.
Proof. by destruct r. Qed.

Lemma Job_of_to_row (j : Job.t) : Job.of_row (Job.id j) (Job.to_row j) = j.
Proof. by destruct j. Qed.

Lemma jobs_toArray_perm (st : Store) :
  jobs_toArray st ≡ₚ map (fun kr => Job.of_row kr.1 kr.2) (map_to_list (jobs st)).
Proof. unfold jobs_toArray. by rewrite entries_perm. Qed.

Lemma elem_of_jobs_toArray (st : Store) (j : Job.t) :
  j ∈ jobs_toArray st <-> jobs st !! Job.id j = Some (Job.to_row j).
Proof.
  rewrite jobs_toArray_perm, list_elem_of_fmap. split.
  - intros [[k r] [-> Hin]]. apply elem_of_map_to_list in Hin. simpl.
    by rewrite Job_to_of_row.
  - intros H. exists (Job.id j, Job.to_row j). split.
    + simpl. by rewrite Job_of_to_row.
    + by apply elem_of_map_to_list.
Qed.

Lemma jobs_toArray_ids (st : Store) :
  map Job.id (jobs_toArray st) ≡ₚ (map_to_list (jobs st)).*1.
Proof.
  rewrite jobs_toArray_perm. rewrite map_map. done.
Qed.

Lemma jobs_toArray_ids_NoDup (st : Store) : NoDup (map Job.id (jobs_toArray st)).
Proof. rewrite jobs_toArray_ids. apply NoDup_fst_map_to_list. Qed.

Lemma jobs_toArray_length (st : Store) : length (jobs_toArray st) = size (jobs st).
Proof.
  rewrite jobs_toArray_perm, length_map. apply length_map_to_list.
Qed.

(** ** The reorder transaction *)

Lemma reindex_lookup_notin (l : list Job.t) (idx : nat) (t : gmap Z Job.row) (k : Z) :
  k ∉ map Job.id l -> reindex idx l t !! k = t !! k.
Proof.
  revert idx t. induction l as [|j l IH]; intros idx t Hk; simpl; [done|].
  simpl in Hk. apply not_elem_of_cons in Hk as [Hne Hk].
  rewrite IH by done. unfold Table.update. by rewrite lookup_alter_ne.
Qed.

Lemma reindex_lookup_at (l : list Job.t) (idx : nat) (t : gmap Z Job.row)
    (i : nat) (j : Job.t) :
  NoDup (map Job.id l) -> l !! i = Some j ->
  reindex idx l t !! Job.id j
  = Job.set_order (Z.of_nat (idx + i)) <$> t !! Job.id j.
Proof.
  revert idx t i. induction l as [|a l IH]; intros idx t i Hnd Hl; [done|].
  simpl in Hnd. apply NoDup_cons in Hnd as [Ha Hnd].
  destruct i as [|i]; simpl in *.
  - injection Hl as ->. rewrite reindex_lookup_notin by done.
    unfold Table.update. rewrite lookup_alter_eq. by rewrite Nat.add_0_r.
  - rewrite (IH (S idx) _ i) by done.
    unfold Table.update. rewrite lookup_alter_ne.
    + by replace (S idx + i)%nat with (idx + S i)%nat by lia.
    + intros Heq. apply Ha. rewrite Heq.
      apply list_elem_of_fmap. exists j. split; [done|]. by eapply list_elem_of_lookup_2.
Qed.

Lemma reindexed_keys (l : list Job.t) : (reindexed l).*1 = map Job.id l.
Proof.
  unfold reindexed. rewrite fmap_imap.
  rewrite (imap_ext _ (fun _ => Job.id)) by done. apply imap_const.
Qed.

Lemma reindexed_orders (l : list Job.t) :
  map (fun kr => Job.r_order kr.2) (reindexed l) = map Z.of_nat (seq 0 (length l)).
Proof.
  change ((fun kr : Z * Job.row => Job.r_order kr.2) <$> reindexed l
          = Z.of_nat <$> seq 0 (length l)).
  unfold reindexed. rewrite fmap_imap.
  rewrite (imap_ext _ (fun i _ => Z.of_nat i)) by done.
  apply list_eq. intros i. rewrite list_lookup_imap, list_lookup_fmap.
  destruct (decide (i < length l)%nat) as [Hlt|Hge].
  - destruct (lookup_lt_is_Some_2 l i Hlt) as [x ->].
    by rewrite lookup_seq_lt.
  - rewrite lookup_ge_None_2 by lia. by rewrite lookup_seq_ge by lia.
Qed.

Lemma reindex_all (l : list Job.t) (t : gmap Z Job.row) :
  NoDup (map Job.id l) ->
  (forall j, j ∈ l <-> t !! Job.id j = Some (Job.to_row j)) ->
  reindex 0 l t = list_to_map (reindexed l).
Proof.
  intros Hnd Hl. apply map_eq. intros k.
  destruct (decide (k ∈ map Job.id l)) as [Hin|Hout].
  - apply list_elem_of_fmap in Hin as (j & -> & Hj).
    apply list_elem_of_lookup in Hj as [i Hi].
    rewrite (reindex_lookup_at l 0 t i j) by done.
    assert (t !! Job.id j = Some (Job.to_row j)) as ->.
    { apply Hl. by eapply list_elem_of_lookup_2. }
    simpl. symmetry. apply elem_of_list_to_map_1.
    + rewrite reindexed_keys. done.
    + unfold reindexed. apply elem_of_lookup_imap. by exists i, j.
  - rewrite reindex_lookup_notin by done.
    rewrite (not_elem_of_list_to_map_1 (reindexed l) k)
      by (by rewrite reindexed_keys).
    destruct (t !! k) as [r|] eqn:Hk; [|done].
    exfalso. apply Hout. apply list_elem_of_fmap.
    exists (Job.of_row k r). split; [done|].
    apply Hl. simpl. by rewrite Job_to_of_row.
Qed.

Lemma reindex_all_rows (l : list Job.t) (t : gmap Z Job.row) :
  NoDup (map Job.id l) ->
  (forall j, j ∈ l <-> t !! Job.id j = Some (Job.to_row j)) ->
  map_to_list (reindex 0 l t) ≡ₚ reindexed l.
Proof.
  intros Hnd Hl. rewrite (reindex_all l t) by done.
  apply map_to_list_to_map. by rewrite reindexed_keys.
Qed.

Lemma filter_out_moved (id : Z) (moved : Job.t) (all : list Job.t) :
  NoDup (map Job.id all) -> moved ∈ all -> Job.id moved = id ->
  moved :: List.filter (fun j => negb (Job.id j =? id)) all ≡ₚ all.
Proof.
  intros Hnd Hin Hid. induction all as [|a all IH]; [by apply elem_of_nil in Hin|].
  simpl in Hnd. apply NoDup_cons in Hnd as [Ha Hnd]. simpl.
  destruct (Z.eqb_spec (Job.id a) id) as [Heq|Hne]; simpl.
  - assert (moved = a) as ->.
    { apply elem_of_cons in Hin as [|Hin]; [done|].
      exfalso. apply Ha. rewrite Heq, <- Hid.
      apply list_elem_of_fmap. by exists moved. }
    f_equiv. clear IH Hin Hid.
    induction all as [|b all IH]; [done|]. simpl in *.
    apply NoDup_cons in Hnd as [Hb Hnd].
    apply not_elem_of_cons in Ha as [Hab Ha].
    destruct (Z.eqb_spec (Job.id b) id) as [Hbid|_]; [congruence|]. simpl.
    f_equiv. by apply IH.
  - apply elem_of_cons in Hin as [->|Hin]; [congruence|].
    rewrite perm_swap. f_equiv. by apply IH.
Qed.

Lemma orderBy_order_perm (st : Store) : jobs_orderBy_order st ≡ₚ jobs_toArray st.
Proof. apply sort_by_perm. Qed.

(** What a successful reorder request did. *)
Lemma reorder_job_ok (env : Env) (id : Z) (body : ReorderBody) (st st' : Store) :
  reorder_job env id body st = (Ok ok_true, st') ->
  let st1 := ensureSeed (faker env) st in
  exists moved others,
    moved ∈ jobs_toArray st1 /\ Job.id moved = id /\
    moved :: others ≡ₚ jobs_toArray st1 /\
    st' = set_jobs (reindex 0 (Js.splice_insert (toOrder body) moved others) (jobs st1)) st1.
Proof.
  intros H st1. unfold reorder_job in H. cbv zeta in H. fold st1 in H.
  destruct (Js.lt_draw (rnd env) (1 # 10)); [done|].
  destruct (find _ _) as [moved|] eqn:Hfind; [|done].
  injection H as <-.
  apply find_some in Hfind as [Hin Hid].
  apply list_elem_of_In in Hin. apply Z.eqb_eq in Hid.
  eexists moved, _. split_and!; [by rewrite <- orderBy_order_perm|done| |done].
  rewrite sort_by_perm. rewrite <- orderBy_order_perm.
  apply filter_out_moved; [|done|done].
  rewrite orderBy_order_perm. apply jobs_toArray_ids_NoDup.
Qed.

Lemma size_reindexed (l : list Job.t) (t : gmap Z Job.row) :
  NoDup (map Job.id l) ->
  (forall j, j ∈ l <-> t !! Job.id j = Some (Job.to_row j)) ->
  size (reindex 0 l t) = length l.
Proof.
  intros Hnd Hl. rewrite <- length_map_to_list.
  rewrite reindex_all_rows by done. apply length_imap.
Qed.

(** C3, as the code has it: after a successful reorder of a table of [n]
    jobs the table still holds [n] jobs, the [order] values over the table
    are exactly 0, 1, ..., n-1, and the moved job has the order at which
    [splice] inserted it: [toOrder] itself when [0 <= toOrder <= n-1],
    [n-1] when [toOrder] is larger, and [max(n-1+toOrder, 0)] when it is
    negative. *)
Theorem reorder_dense_orders (env : Env) (id : Z) (body : ReorderBody) (st st' : Store) :
  reorder_job env id body st = (Ok ok_true, st') ->
  let n := size (jobs (ensureSeed (faker env) st)) in
  size (jobs st') = n /\
  map Job.order (jobs_toArray st') ≡ₚ map Z.of_nat (seq 0 n) /\
  exists pos,
    Job.r_order <$> jobs st' !! id = Some pos /\
    (0 <= toOrder body <= Z.of_nat n - 1 -> pos = toOrder body) /\
    (Z.of_nat n - 1 < toOrder body -> pos = Z.of_nat n - 1) /\
    (toOrder body < 0 -> pos = Z.max (Z.of_nat n - 1 + toOrder body) 0).
Proof.
  intros H n. apply reorder_job_ok in H as (moved & others & Hin & Hid & Hperm & ->).
  set (st1 := ensureSeed (faker env) st) in *.
  set (l := Js.splice_insert (toOrder body) moved others).
  assert (l ≡ₚ jobs_toArray st1) as Hl.
  { unfold l. by rewrite splice_insert_perm. }
  assert (NoDup (map Job.id l)) as Hnd.
  { rewrite Hl. apply jobs_toArray_ids_NoDup. }
  assert (forall j, j ∈ l <-> jobs st1 !! Job.id j = Some (Job.to_row j)) as Hrows.
  { intros j. rewrite Hl. apply elem_of_jobs_toArray. }
  assert (length l = n) as Hlen.
  { rewrite Hl. apply jobs_toArray_length. }
  assert (n = S (length others)) as Hothers.
  { apply Permutation_length in Hperm. simpl in Hperm.
    rewrite jobs_toArray_length in Hperm. by fold n in Hperm. }
  assert (Job.r_order <$> reindex 0 l (jobs st1) !! id
          = Some (Z.of_nat (Js.rel_index (length others) (toOrder body)))) as Hpos.
  { rewrite <- Hid.
    rewrite (reindex_lookup_at l 0 _ (Js.rel_index (length others) (toOrder body)) moved); [|done|].
    - assert (jobs st1 !! Job.id moved = Some (Job.to_row moved)) as ->
        by by apply elem_of_jobs_toArray.
      done.
    - unfold l. apply splice_insert_lookup. }
  simpl. split_and!.
  - rewrite size_reindexed by done. done.
  - rewrite jobs_toArray_perm. simpl. rewrite map_map. simpl.
    rewrite reindex_all_rows by done.
    rewrite <- Hlen. rewrite <- reindexed_orders. done.
  - eexists. split; [exact Hpos|].
    unfold Js.rel_index. destruct (Z.ltb_spec (toOrder body) 0); split_and!; lia.
Qed.

(** The last job of a table of three is sent to position 1. *)
Lemma reorder_dense_orders_witness :
  let st' := (reorder_job Examples.env_pass 3 (mkReorder 2 1) Examples.small).2 in
  size (jobs st') = 3%nat /\
  map Job.order (jobs_toArray st') ≡ₚ [0; 1; 2] /\
  Job.r_order <$> jobs st' !! 3 = Some 1.
Proof.
  intros st'.
  assert (reorder_job Examples.env_pass 3 (mkReorder 2 1) Examples.small = (Ok ok_true, st')) as Hrun
    by (by vm_compute).
  destruct (reorder_dense_orders _ _ _ _ _ Hrun) as (H1 & H2 & pos & H3 & H4 & _).
  split_and!; [exact H1|exact H2|].
  rewrite H3, H4; [done|]. vm_compute. split; discriminate.
Defined.

(** C3 as stated fails: a request with [toOrder = 5] on a table of three
    jobs succeeds, and the moved job ends at position 2, not 5. *)
Lemma reorder_position_counterexample :
  let '(r, st') := reorder_job Examples.env_pass 1 (mkReorder 0 5) Examples.small in
  r = Ok ok_true /\
  size (jobs Examples.small) = 3%nat /\
  Job.r_order <$> jobs st' !! 1 = Some 2 /\
  Job.r_order <$> jobs st' !! 1 <> Some 5.
Proof. vm_compute. split_and!; [done|done|done|discriminate]. Qed.

(** C10: two reorder requests for the same job on the same store whose
    bodies differ only in [fromOrder] get the same answer and leave the
    same store, the Jobs table included: the handler reads [fromOrder]
    out of the body and never uses it. *)
Theorem reorder_ignores_fromOrder (env : Env) (id : Z) (b1 b2 : ReorderBody) (st : Store) :
  toOrder b1 = toOrder b2 ->
  reorder_job env id b1 st = reorder_job env id b2 st /\
  jobs (reorder_job env id b1 st).2 = jobs (reorder_job env id b2 st).2.
Proof.
  intros Hto.
  assert (reorder_job env id b1 st = reorder_job env id b2 st) as Heq.
  { unfold reorder_job. cbv zeta. by rewrite Hto. }
  split; [exact Heq|]. by rewrite Heq.
Qed.

(** Job 3 is sent to position 0, once announced as coming from position 2
    and once from position 7. *)
Lemma reorder_ignores_fromOrder_witness :
  toOrder (mkReorder 2 0) = toOrder (mkReorder 7 0) /\
  jobs (reorder_job Examples.env_pass 3 (mkReorder 2 0) Examples.small).2
  = jobs (reorder_job Examples.env_pass 3 (mkReorder 7 0) Examples.small).2.
Proof.
  split; [reflexivity|].
  apply (reorder_ignores_fromOrder Examples.env_pass 3 (mkReorder 2 0) (mkReorder 7 0)).
  reflexivity.
Defined.

(** ** Pagination and the list operations *)

Lemma ceil_div_is_ceil (a b : Z) : 0 < b -> Spec.is_ceil (Js.ceil_div a b) a b.
Proof.
  intros Hb. unfold Spec.is_ceil, Js.ceil_div.
  pose proof (Z.div_mod (- a) b ltac:(lia)) as Hdm.
  pose proof (Z.mod_pos_bound (- a) b Hb) as Hmod.
  nia.
Qed.

Lemma slice_in_range {T} (l : list T) (a n : Z) :
  0 <= a -> 0 <= n -> Js.slice l a (a + n) = Spec.range l a (a + n).
Proof.
  intros Ha Hn. unfold Js.slice, Spec.range, Js.rel_index.
  destruct (Z.ltb_spec a 0); [lia|]. destruct (Z.ltb_spec (a + n) 0); [lia|].
  replace (a + n - a) with n by lia.
  destruct (decide (length l <= Z.to_nat a)%nat) as [Hout|Hin].
  - rewrite Nat.min_r by lia. rewrite !drop_ge by lia. by rewrite !take_nil.
  - rewrite (Nat.min_l (Z.to_nat a)) by lia.
    destruct (decide (Z.to_nat (a + n) <= length l)%nat) as [Hfit|Hcut].
    + rewrite Nat.min_l by lia. f_equal. lia.
    + rewrite Nat.min_r by lia.
      rewrite !take_ge; [done| |]; rewrite length_drop; lia.
Qed.

Lemma paginate_is_page_of {T} (items : list T) (page pageSize : Z) :
  1 <= page -> 1 <= pageSize ->
  Spec.is_page_of items page pageSize (paginate items page pageSize).
Proof.
  intros Hp Hs. unfold Spec.is_page_of, paginate. simpl.
  assert (Js.max1_ceil_div (Z.of_nat (length items)) pageSize
          = Js.Fin (Z.max 1 (Js.ceil_div (Z.of_nat (length items)) pageSize))) as Hpages.
  { unfold Js.max1_ceil_div. destruct (Z.eqb_spec pageSize 0); [lia|done]. }
  pose proof (ceil_div_is_ceil (Z.of_nat (length items)) pageSize ltac:(lia)) as Hceil.
  assert (Js.slice items ((page - 1) * pageSize) ((page - 1) * pageSize + pageSize)
          = Spec.range items ((page - 1) * pageSize) (page * pageSize)) as Hdata.
  { rewrite slice_in_range by nia. f_equal. lia. }
  split_and!; [done|done|done| |done|].
  - eexists. split; [exact Hceil|exact Hpages].
  - intros p Hpp Hlt. rewrite Hpages in Hpp. injection Hpp as <-.
    rewrite Hdata. unfold Spec.range.
    rewrite drop_ge; [apply take_nil|].
    unfold Spec.is_ceil in Hceil. nia.
Qed.

Lemma filter_filter_andb {T} (f g : T -> bool) (l : list T) :
  List.filter g (List.filter f l) = List.filter (fun x => f x && g x) l.
Proof.
  induction l as [|x l IH]; simpl; [done|].
  destruct (f x); simpl; [|done]. destruct (g x); by rewrite IH.
Qed.

Lemma filter_true {T} (l : list T) : List.filter (fun _ => true) l = l.
Proof. induction l as [|x l IH]; simpl; by rewrite ?IH. Qed.

Lemma jobs_items_pipeline (q : JobsQuery) (all : list Job.t) :
  jobs_items q all = Spec.job_sorted (jq_sort q) (List.filter (Spec.job_selected q) all).
Proof.
  unfold jobs_items, Spec.job_sorted. rewrite !filter_filter_andb.
  rewrite (filter_ext _ (Spec.job_selected q))
    by (intros j; unfold Spec.job_selected; by rewrite andb_assoc).
  destruct (String.eqb_spec (jq_sort q) "order") as [Heq|_].
  - rewrite Heq. reflexivity.
  - by destruct (String.eqb (jq_sort q) "createdAt:desc").
Qed.

Lemma candidates_items_pipeline (q : CandidatesQuery) (all : list Candidate.t) :
  candidates_items q all
  = Js.sort_by cand_createdAt_desc (List.filter (Spec.candidate_selected q) all).
Proof.
  unfold candidates_items. f_equal.
  unfold Spec.candidate_selected.
  destruct (truthy (cq_stage q)), (truthy (Js.toLowerCase (cq_search q))); simpl.
  - by rewrite filter_filter_andb.
  - apply filter_ext. intros c. by rewrite andb_true_r.
  - done.
  - by rewrite filter_true.
Qed.

(** C5: for [page >= 1] and [pageSize >= 1], [paginate] answers
    [{data, page, pageSize, total, pages}] with [total] the length of the
    list it is given, [pages = max(1, ceil(total / pageSize))],
    [data = items[(page-1)*pageSize : page*pageSize]], and empty [data]
    (same [total] and [pages], no error) for a page beyond [pages]; and
    both list operations answer with that page of the table filtered by
    the AND of the filters, then sorted: the filters come first, then the
    sort, then the pagination, so [total] counts the filtered set. *)
Theorem list_page_spec {T} (items : list T) (page pageSize : Z) :
  1 <= page -> 1 <= pageSize ->
  Spec.is_page_of items page pageSize (paginate items page pageSize) /\
  (forall env q st,
     jq_page q = page -> jq_pageSize q = pageSize ->
     let st1 := ensureSeed (faker env) st in
     let filtered := List.filter (Spec.job_selected q) (jobs_toArray st1) in
     exists r, get_jobs env q st = (Ok r, st1) /\
               Page.total r = Z.of_nat (length filtered) /\
               Spec.is_page_of (Spec.job_sorted (jq_sort q) filtered) page pageSize r) /\
  (forall env q st,
     cq_page q = page -> cq_pageSize q = pageSize ->
     let st1 := ensureSeed (faker env) st in
     let filtered := List.filter (Spec.candidate_selected q) (candidates_toArray st1) in
     exists r, get_candidates env q st = (Ok r, st1) /\
               Page.total r = Z.of_nat (length filtered) /\
               Spec.is_page_of (Js.sort_by cand_createdAt_desc filtered) page pageSize r).
Proof.
  intros Hp Hs. split_and!.
  - by apply paginate_is_page_of.
  - intros env q st <- <- st1 filtered. eexists. split; [reflexivity|].
    rewrite jobs_items_pipeline. fold st1 filtered. split.
    + simpl. unfold Spec.job_sorted.
      destruct (String.eqb (jq_sort q) "order"); [by rewrite sort_by_length|].
      destruct (String.eqb (jq_sort q) "createdAt:desc"); [by rewrite sort_by_length|done].
    + by apply paginate_is_page_of.
  - intros env q st <- <- st1 filtered. eexists. split; [reflexivity|].
    rewrite candidates_items_pipeline. fold st1 filtered. split.
    + simpl. by rewrite sort_by_length.
    + by apply paginate_is_page_of.
Qed.

(** Page 2 of five items, two per page. *)
Lemma list_page_spec_witness :
  1 <= 2 /\ 1 <= 2 /\
  Spec.is_page_of [10; 20; 30; 40; 50] 2 2 (paginate [10; 20; 30; 40; 50] 2 2).
Proof.
  split; [lia|]. split; [lia|].
  apply (list_page_spec [10; 20; 30; 40; 50] 2 2); lia.
Defined.

(** ** Sorting gives a sorted list *)

Section sorted_facts.
Context {A : Type} (le : A -> A -> bool).
Hypothesis le_total : forall a b, le a b = true \/ le b a = true.

Lemma insert_by_sorted (x : A) (l : list A) :
  Sorted (fun a b => le a b = true) l ->
  Sorted (fun a b => le a b = true) (Js.insert_by le x l).
Proof.
  induction 1 as [|y l Hs IH Hhd]; simpl.
  - by repeat constructor.
  - destruct (le x y) eqn:Hxy.
    + constructor; [by constructor|by constructor].
    + constructor; [done|].
      destruct Hhd as [|z l Hyz]; simpl.
      * constructor. destruct (le_total x y); congruence.
      * destruct (le x z); constructor; [|done].
        destruct (le_total x y); congruence.
Qed.

Lemma sort_by_sorted (l : list A) :
  Sorted (fun a b => le a b = true) (Js.sort_by le l).
Proof.
  induction l as [|x l IH]; simpl; [constructor|].
  by apply insert_by_sorted.
Qed.
End sorted_facts.

Lemma Sorted_weaken {A} (R1 R2 : A -> A -> Prop) (l : list A) :
  (forall a b, R1 a b -> R2 a b) -> Sorted R1 l -> Sorted R2 l.
Proof.
  intros Hsub. induction 1 as [|x l Hs IH Hhd]; constructor; [done|].
  destruct Hhd; constructor. by apply Hsub.
Qed.

Lemma at_le_total (a b : Event.t) : at_le a b = true \/ at_le b a = true.
Proof. unfold at_le. destruct (Z.leb_spec (Event.at_ a) (Event.at_ b)); [by left|right]. apply Z.leb_le. lia. Qed.

(** ** The candidate timeline *)

(** C6, as the code has it: the timeline of an id that is absent from the
    Candidates table is answered with a body, never with a 404: the events
    stored under that id (none, unless notes were posted to it), sorted by
    [at]; the store is the seeded one. *)
Theorem timeline_of_absent_candidate (env : Env) (id : Z) (st : Store) :
  let st1 := ensureSeed (faker env) st in
  candidates st1 !! id = None ->
  exists events,
    get_timeline env id st = (Ok events, st1) /\
    events ≡ₚ List.filter (fun e => Event.candidateId e =? id) (timelines st1) /\
    Sorted (fun a b => Event.at_ a <= Event.at_ b) events /\
    ((forall e, e ∈ timelines st1 -> Event.candidateId e <> id) -> events = []).
Proof.
  intros st1 _. exists (timeline_of id st1). split_and!.
  - done.
  - apply sort_by_perm.
  - pose proof (sort_by_sorted at_le at_le_total
                  (List.filter (fun e => Event.candidateId e =? id) (timelines st1))) as Hs.
    eapply Sorted_weaken; [|exact Hs].
    intros a b Hab. by apply Z.leb_le.
  - intros Hnone. unfold timeline_of.
    assert (List.filter (fun e => Event.candidateId e =? id) (timelines st1) = []) as ->; [|done].
    induction (timelines st1) as [|e l IH]; simpl; [done|].
    destruct (Z.eqb_spec (Event.candidateId e) id) as [Heq|_].
    + exfalso. by apply (Hnone e); [left|].
    + apply IH. intros e' He'. apply Hnone. by right.
Qed.

(** Candidate 99 is not in the store. *)
Lemma timeline_of_absent_candidate_witness :
  candidates Examples.small !! 99 = None /\
  get_timeline Examples.env_pass 99 Examples.small = (Ok [], Examples.small).
Proof.
  split; [by vm_compute|].
  destruct (timeline_of_absent_candidate Examples.env_pass 99 Examples.small)
    as (events & Hrun & _ & _ & Hnil); [by vm_compute|].
  rewrite Hrun. f_equal. f_equal. apply Hnil.
  intros e He. vm_compute in He. apply list_elem_of_singleton in He as ->. done.
Defined.

(** C6 as stated fails: no 404 for a candidate that does not exist. *)
Lemma timeline_404_counterexample :
  candidates Examples.small !! 99 = None /\
  (get_timeline Examples.env_pass 99 Examples.small).1 = Ok [] /\
  (get_timeline Examples.env_pass 99 Examples.small).1 <> Fail 404 "Not found".
Proof. vm_compute. split_and!; [done|done|discriminate]. Qed.

(** ** Free-text search *)




(** C7 fails on the code for a job whose slug has a capital letter: the
    slug is compared as stored, so the search "qa" does not find the job
    with the slug "QA-Lead", although "qa" occurs in it when the case is
    ignored; the page of [GET /jobs] is empty. *)
Theorem job_search_misses_capital_slug :
  let j := Job.of_row 4 Examples.job_upper in
  Spec.ci_includes (Job.slug j) "qa" = true /\
  job_search_filter (Js.toLowerCase "qa") j = false /\
  jobs Examples.with_upper !! 4 = Some Examples.job_upper /\
  (get_jobs Examples.env_pass Examples.search_qa Examples.with_upper).1
  = Ok (Page.mk [] 1 10 0 (Js.Fin 1)).
Proof. by vm_compute. Qed.

(** ** Stage changes and the timeline *)

(** C8: for an existing candidate of stage A, a successful patch that
    sets the stage to B, with B different from A, appends exactly one
    event [{candidateId, type: stage_change, from: A, to: B}] to the
    timeline table, and a patch that sets the stage to A appends none. *)
Theorem patch_candidate_stage_event (env : Env) (id : Z) (patch : CandidatePatch)
    (st : Store) (row : Candidate.row) :
  let st1 := ensureSeed (faker env) st in
  let A := Candidate.r_stage row in
  candidates st1 !! id = Some row ->
  (forall B updated st',
     cp_stage patch = Some B -> B <> A ->
     patch_candidate env id patch st = (Ok updated, st') ->
     timelines st' =
       timelines st1 ++ [Event.mk id stage_change (Some A) (Some B) None (now env 0)]
     /\ Candidate.stage updated = B) /\
  (cp_stage patch = Some A ->
   timelines (patch_candidate env id patch st).2 = timelines st1).
Proof.
  intros st1 A Hrow. unfold patch_candidate. cbv zeta.
  fold st1. rewrite Hrow. unfold stage_changes. simpl. fold A.
  split.
  - intros B updated st' HB Hne. rewrite HB.
    destruct (decide (B = A)) as [|_]; [done|].
    destruct (Js.lt_draw (rnd env) (8 # 100)); [done|].
    intros Hrun. injection Hrun as <- <-. simpl. by rewrite HB.
  - intros HB. rewrite HB.
    destruct (decide (A = A)) as [_|]; [|done].
    by destruct (Js.lt_draw (rnd env) (8 # 100)).
Qed.

(** Candidate 1 moves from [applied] to [screen]. *)
Lemma patch_candidate_stage_event_witness :
  let run := patch_candidate Examples.env_pass 1 Examples.to_screen Examples.small in
  candidates Examples.small !! 1 = Some Examples.cand_1 /\
  is_failure run.1 = false /\
  timelines run.2 =
    timelines Examples.small ++ [Event.mk 1 stage_change (Some applied) (Some screen) None 2000].
Proof.
  intros run. split; [by vm_compute|]. split; [by vm_compute|].
  assert (exists updated, run = (Ok updated, run.2)) as [updated Hrun]
    by (eexists; by vm_compute).
  destruct (patch_candidate_stage_event Examples.env_pass 1 Examples.to_screen
              Examples.small Examples.cand_1) as (Hchange & _); [by vm_compute|].
  by destruct (Hchange screen updated run.2) as [-> _].
Defined.

(** ** Seeding *)

Lemma seeded_ensureSeed (d : SeedDraws) (st : Store) : seeded (ensureSeed d st) = true.
Proof.
  unfold ensureSeed. destruct (seeded st) eqn:Hs; [done|].
  unfold seeded. simpl. by rewrite lookup_insert_eq.
Qed.

Lemma ensureSeed_seeded (d : SeedDraws) (st : Store) :
  seeded st = true -> ensureSeed d st = st.
Proof. intros Hs. unfold ensureSeed. by rewrite Hs. Qed.

#[local] Set Warnings "-clear-no-such-hyp".

Lemma bulkPut_dom {R} (objs : list (Z * R)) (t : gmap Z R) :
  dom (Table.bulkPut objs t) = list_to_set objs.*1 ∪ dom t.
Proof.
  revert t. induction objs as [|[k r] objs IH]; intros t; simpl.
  - set_solver.
  - unfold Table.bulkPut in *. simpl. rewrite IH. unfold Table.put.
    rewrite dom_insert_L. set_solver.
Qed.

Lemma size_bulkPut_empty {R} (objs : list (Z * R)) :
  NoDup objs.*1 -> size (Table.bulkPut objs (∅ : gmap Z R)) = length objs.
Proof.
  intros Hnd. rewrite <- size_dom, bulkPut_dom, dom_empty_L, (right_id_L ∅ (∪)).
  rewrite size_list_to_set by done. apply length_fmap.
Qed.

Lemma NoDup_succ_keys (n : nat) : NoDup (map (fun i => Z.of_nat i + 1) (seq 0 n)).
Proof.
  apply (NoDup_fmap_2_strong (fun i => Z.of_nat i + 1)); [|apply NoDup_seq].
  intros i j _ _ Heq. lia.
Qed.

Lemma keys_of_map {A R} (key : A -> Z) (val : A -> R) (f : nat -> A) (l : list nat) :
  (map (fun a => (key a, val a)) (map f l)).*1 = map (fun i => key (f i)) l.
Proof. induction l as [|i l IH]; simpl; [done|by f_equal]. Qed.

Lemma seeded_jobs_size (d : SeedDraws) :
  size (jobs (ensureSeed d empty_store)) = 25%nat.
Proof.
  unfold ensureSeed. replace (seeded empty_store) with false by by vm_compute.
  cbn [jobs empty_store]. rewrite size_bulkPut_empty.
  - unfold Seed.jobs. by rewrite !length_map, length_seq.
  - unfold Seed.jobs. rewrite keys_of_map. apply NoDup_succ_keys.
Qed.

Lemma seeded_candidates_size (d : SeedDraws) :
  size (candidates (ensureSeed d empty_store)) = 1000%nat.
Proof.
  unfold ensureSeed. replace (seeded empty_store) with false by by vm_compute.
  cbn [candidates empty_store]. rewrite size_bulkPut_empty.
  - unfold Seed.candidates. by rewrite !length_map, length_seq.
  - unfold Seed.candidates. rewrite keys_of_map. apply NoDup_succ_keys.
Qed.

Lemma seeded_assessments_size (d : SeedDraws) :
  size (assessments (ensureSeed d empty_store)) = 3%nat.
Proof.
  unfold ensureSeed. replace (seeded empty_store) with false by by vm_compute.
  cbn [assessments empty_store]. rewrite size_bulkPut_empty.
  - reflexivity.
  - apply (NoDup_succ_keys 3).
Qed.

(** C9: a second call of [ensureSeed] leaves every table as the first call
    left it, whatever the store was and whatever the faker would have
    answered, because the first call set the [seeded] flag and the second
    returns on reading it; started on the empty store, two calls leave 25
    jobs, 1000 candidates and 3 assessments. *)
Theorem ensureSeed_idempotent (d1 d2 : SeedDraws) (st : Store) :
  seeded (ensureSeed d1 st) = true /\
  ensureSeed d2 (ensureSeed d1 st) = ensureSeed d1 st /\
  size (jobs (ensureSeed d2 (ensureSeed d1 empty_store))) = 25%nat /\
  size (candidates (ensureSeed d2 (ensureSeed d1 empty_store))) = 1000%nat /\
  size (assessments (ensureSeed d2 (ensureSeed d1 empty_store))) = 3%nat.
Proof.
  assert (forall s, ensureSeed d2 (ensureSeed d1 s) = ensureSeed d1 s) as Hidem.
  { intros s. apply ensureSeed_seeded, seeded_ensureSeed. }
  split_and!.
  - apply seeded_ensureSeed.
  - apply Hidem.
  - rewrite Hidem. apply seeded_jobs_size.
  - rewrite Hidem. apply seeded_candidates_size.
  - rewrite Hidem. apply seeded_assessments_size.
Qed.

(** ** Failed requests and the store *)

(** Five of the six mutating operations draw the failure, and validate,
    before they write: when they fail the store is the one the seeder
    left. *)
Lemma post_jobs_failure (env : Env) (body : JobBody) (st : Store) :
  is_failure (post_jobs env body st).1 = true ->
  (post_jobs env body st).2 = ensureSeed (faker env) st.
Proof.
  unfold post_jobs. cbv zeta.
  destruct (slug_exists _ _); [done|].
  destruct (Js.lt_draw _ _); [done|].
  by destruct (Table.add _ _ _).
Qed.

Lemma patch_job_failure (env : Env) (id : Z) (patch : JobPatch) (st : Store) :
  is_failure (patch_job env id patch st).1 = true ->
  (patch_job env id patch st).2 = ensureSeed (faker env) st.
Proof.
  unfold patch_job. cbv zeta.
  destruct (jobs _ !! id); [|done].
  destruct (patch_slug_taken _ _ _); [done|].
  by destruct (Js.lt_draw _ _).
Qed.

Lemma reorder_job_failure (env : Env) (id : Z) (body : ReorderBody) (st : Store) :
  is_failure (reorder_job env id body st).1 = true ->
  (reorder_job env id body st).2 = ensureSeed (faker env) st.
Proof.
  unfold reorder_job. cbv zeta.
  destruct (Js.lt_draw _ _); [done|].
  by destruct (find _ _).
Qed.

Lemma post_candidates_failure (env : Env) (body : CandidateBody) (st : Store) :
  is_failure (post_candidates env body st).1 = true ->
  (post_candidates env body st).2 = ensureSeed (faker env) st.
Proof.
  unfold post_candidates. cbv zeta.
  destruct (Js.lt_draw _ _); [done|].
  by destruct (Table.add _ _ _).
Qed.

Lemma put_assessment_failure (env : Env) (jobId : Z) (body : Assessment.t) (st : Store) :
  is_failure (put_assessment env jobId body st).1 = true ->
  (put_assessment env jobId body st).2 = ensureSeed (faker env) st.
Proof.
  unfold put_assessment. cbv zeta.
  by destruct (Js.lt_draw _ _).
Qed.

(** [PATCH /candidates/:id] writes the stage-change event before it draws
    the failure: a failed patch leaves the store alone only when the
    candidate is unknown or the stage does not change. *)
Lemma patch_candidate_failure (env : Env) (id : Z) (patch : CandidatePatch) (st : Store) :
  let st1 := ensureSeed (faker env) st in
  is_failure (patch_candidate env id patch st).1 = true ->
  match candidates st1 !! id with
  | None => (patch_candidate env id patch st).2 = st1
  | Some row =>
      match stage_changes patch (Candidate.of_row id row) with
      | None => (patch_candidate env id patch st).2 = st1
      | Some s =>
          (patch_candidate env id patch st).2
          = add_timeline
              (Event.mk id stage_change (Some (Candidate.r_stage row)) (Some s) None (now env 0))
              st1
      end
  end.
Proof.
  intros st1. unfold patch_candidate. cbv zeta. fold st1.
  destruct (candidates st1 !! id) as [row|]; [|done].
  destruct (stage_changes _ _); by destruct (Js.lt_draw _ _).
Qed.

(** C1 fails on the code for Patch Candidate: with the failure draw 0.05
    the patch [{stage: "screen"}] of candidate 1 is answered with the
    injected 500, and the stage-change event has been appended to the
    timeline all the same; the candidate row itself is untouched. *)
Theorem patch_candidate_failure_keeps_event :
  let run := patch_candidate Examples.env_fail 1 Examples.to_screen Examples.small in
  run.1 = Fail 500 "Random failure (simulated)" /\
  candidates run.2 = candidates Examples.small /\
  timelines run.2 =
    timelines Examples.small
    ++ [Event.mk 1 stage_change (Some applied) (Some screen) None 2000] /\
  run.2 <> Examples.small.
Proof.
  split_and!; [by vm_compute..|].
  intros Heq. apply (f_equal (fun s => length (timelines s))) in Heq.
  vm_compute in Heq. discriminate.
Qed.

(** ** Validation and the failure draw *)

Lemma slug_exists_true (slug : string) (st : Store) :
  slug_exists slug st = true <-> exists k r, jobs st !! k = Some r /\ Job.r_slug r = slug.
Proof.
  unfold slug_exists. rewrite existsb_exists. split.
  - intros (j & Hin & Heq). apply list_elem_of_In, elem_of_jobs_toArray in Hin.
    apply String.eqb_eq in Heq. by exists (Job.id j), (Job.to_row j).
  - intros (k & r & Hk & Hs). exists (Job.of_row k r). split.
    + apply list_elem_of_In, elem_of_jobs_toArray. simpl. by rewrite Job_to_of_row.
    + by apply String.eqb_eq.
Qed.

(** The validation errors of the other handlers do not look at the draw. *)
Lemma post_jobs_duplicate_slug (env : Env) (body : JobBody) (st : Store) :
  slug_exists (b_slug body) (ensureSeed (faker env) st) = true ->
  post_jobs env body st = (Fail 400 "Slug must be unique", ensureSeed (faker env) st).
Proof. intros H. unfold post_jobs. cbv zeta. by rewrite H. Qed.

Lemma patch_job_unknown_id (env : Env) (id : Z) (patch : JobPatch) (st : Store) :
  jobs (ensureSeed (faker env) st) !! id = None ->
  patch_job env id patch st = (Fail 404 "Not found", ensureSeed (faker env) st).
Proof. intros H. unfold patch_job. cbv zeta. by rewrite H. Qed.

Lemma patch_job_duplicate_slug (env : Env) (id : Z) (patch : JobPatch) (st : Store)
    (row : Job.row) :
  jobs (ensureSeed (faker env) st) !! id = Some row ->
  patch_slug_taken patch (Job.of_row id row) (ensureSeed (faker env) st) = true ->
  patch_job env id patch st = (Fail 400 "Slug must be unique", ensureSeed (faker env) st).
Proof. intros H Ht. unfold patch_job. cbv zeta. by rewrite H, Ht. Qed.

Lemma patch_candidate_unknown_id (env : Env) (id : Z) (patch : CandidatePatch) (st : Store) :
  candidates (ensureSeed (faker env) st) !! id = None ->
  patch_candidate env id patch st = (Fail 404 "Not found", ensureSeed (faker env) st).
Proof. intros H. unfold patch_candidate. cbv zeta. by rewrite H. Qed.

Lemma post_note_blank (env : Env) (id : Z) (text : string) (st : Store) :
  trim text = EmptyString ->
  post_note env id (Some text) st = (Fail 400 "Note is required", ensureSeed (faker env) st).
Proof.
  intros H. unfold post_note. cbv zeta. rewrite H. simpl.
  by rewrite orb_true_r.
Qed.

(** The reorder handler answers an unknown id with 404 only when the draw
    has passed. *)
Lemma reorder_job_unknown_id (env : Env) (id : Z) (body : ReorderBody) (st : Store) :
  jobs (ensureSeed (faker env) st) !! id = None ->
  reorder_job env id body st =
    if Js.lt_draw (rnd env) (1 # 10)
    then (Fail 500 "Reorder failed (simulated)", ensureSeed (faker env) st)
    else (Fail 404 "Not found", ensureSeed (faker env) st).
Proof.
  intros Hid. unfold reorder_job. cbv zeta.
  destruct (Js.lt_draw _ _); [done|].
  destruct (find _ _) as [moved|] eqn:Hfind; [|done].
  apply find_some in Hfind as [Hin Heq].
  apply list_elem_of_In in Hin. rewrite orderBy_order_perm in Hin.
  apply elem_of_jobs_toArray in Hin. apply Z.eqb_eq in Heq. congruence.
Qed.

(** C2 fails on the code for Reorder Job: the failure is drawn before the
    job is looked up, so with the draw 0.05 the request for the unknown
    job 99 is answered with the injected 500, not with 404. *)
Theorem reorder_unknown_id_injected_500 :
  jobs Examples.small !! 99 = None /\
  reorder_job Examples.env_fail 99 (mkReorder 0 0) Examples.small
  = (Fail 500 "Reorder failed (simulated)", Examples.small) /\
  reorder_job Examples.env_pass 99 (mkReorder 0 0) Examples.small
  = (Fail 404 "Not found", Examples.small).
Proof. split_and!; by vm_compute. Qed.

(** ** Slug uniqueness *)

Lemma slugs_distinct_insert_fresh (t : gmap Z Job.row) (k : Z) (row : Job.row) :
  Spec.slugs_distinct t ->
  (forall k' r, t !! k' = Some r -> Job.r_slug r <> Job.r_slug row) ->
  Spec.slugs_distinct (<[k := row]> t).
Proof.
  intros Hd Hfresh k1 k2 r1 r2 H1 H2 Heq.
  apply lookup_insert_Some in H1 as [[<- <-]|[Hne1 H1]];
    apply lookup_insert_Some in H2 as [[<- <-]|[Hne2 H2]].
  - done.
  - exfalso. by eapply Hfresh.
  - exfalso. by eapply Hfresh.
  - by eapply Hd.
Qed.

Lemma slugs_distinct_insert_same (t : gmap Z Job.row) (k : Z) (old row : Job.row) :
  Spec.slugs_distinct t -> t !! k = Some old ->
  Job.r_slug row = Job.r_slug old ->
  Spec.slugs_distinct (<[k := row]> t).
Proof.
  intros Hd Hold Hsame k1 k2 r1 r2 H1 H2 Heq.
  apply lookup_insert_Some in H1 as [[<- <-]|[Hne1 H1]];
    apply lookup_insert_Some in H2 as [[<- <-]|[Hne2 H2]].
  - done.
  - apply (Hd k k2 old r2); congruence.
  - apply (Hd k1 k r1 old); congruence.
  - by eapply Hd.
Qed.

(** Create Job keeps the slugs pairwise distinct: a slug that is taken is
    refused with 400 and the table is as it was; otherwise the request is
    refused by the draw or it adds a job with a slug that no job has. *)
Lemma post_jobs_slugs_distinct (env : Env) (body : JobBody) (st : Store) :
  let st1 := ensureSeed (faker env) st in
  Spec.slugs_distinct (jobs st1) ->
  Spec.slugs_distinct (jobs (post_jobs env body st).2) /\
  ((exists k r, jobs st1 !! k = Some r /\ Job.r_slug r = b_slug body) ->
   post_jobs env body st = (Fail 400 "Slug must be unique", st1)).
Proof.
  intros st1 Hd. split.
  - unfold post_jobs. cbv zeta. fold st1.
    destruct (slug_exists (b_slug body) st1) eqn:Hex; [done|].
    destruct (Js.lt_draw _ _); [done|].
    unfold Table.add. simpl. destruct (jobs st1 !! _); [done|]. simpl.
    apply slugs_distinct_insert_fresh; [done|].
    intros k' r Hk' Hs. simpl in Hs.
    assert (slug_exists (b_slug body) st1 = true) as Htrue
      by (apply slug_exists_true; eauto).
    congruence.
  - intros Hex. apply post_jobs_duplicate_slug. by apply slug_exists_true.
Qed.

(** So does Patch Job, for a patch without an [id] whose slug, if any, is
    not the empty string: a slug of another job is refused with 400, the
    job's own slug is accepted. *)
Lemma patch_job_slugs_distinct (env : Env) (id : Z) (patch : JobPatch) (st : Store) :
  let st1 := ensureSeed (faker env) st in
  p_id patch = None -> p_slug patch <> Some EmptyString ->
  Spec.slugs_distinct (jobs st1) ->
  Spec.slugs_distinct (jobs (patch_job env id patch st).2) /\
  (forall row s k r,
     jobs st1 !! id = Some row -> p_slug patch = Some s ->
     jobs st1 !! k = Some r -> k <> id -> Job.r_slug r = s ->
     patch_job env id patch st = (Fail 400 "Slug must be unique", st1)).
Proof.
  intros st1 Hid Hslug Hd. split.
  - unfold patch_job. cbv zeta. fold st1.
    destruct (jobs st1 !! id) as [row|] eqn:Hrow; [|done].
    destruct (patch_slug_taken _ _ _) eqn:Htaken; [done|].
    destruct (Js.lt_draw _ _); [done|].
    simpl. rewrite Hid. simpl. unfold Table.put.
    unfold patch_slug_taken in Htaken.
    destruct (p_slug patch) as [s|] eqn:Hs; simpl.
    + assert (truthy s = true) as Htruthy.
      { unfold truthy. destruct (String.eqb_spec s EmptyString); [congruence|done]. }
      rewrite Htruthy in Htaken. simpl in Htaken.
      destruct (String.eqb_spec s (Job.r_slug row)) as [->|Hne]; simpl in Htaken.
      * eapply slugs_distinct_insert_same; [done|done|].
        simpl. by rewrite Hs.
      * apply slugs_distinct_insert_fresh; [done|].
        intros k' r Hk' Heq. simpl in Heq. rewrite Hs in Heq. simpl in Heq.
        assert (slug_exists s st1 = true) as Htrue
          by (apply slug_exists_true; eauto).
        congruence.
    + eapply slugs_distinct_insert_same; [done|done|].
      simpl. by rewrite Hs.
  - intros row s k r Hrow Hs Hk Hne Heq.
    eapply patch_job_duplicate_slug; [done|].
    unfold patch_slug_taken. rewrite Hs. fold st1.
    assert (truthy s = true) as ->.
    { unfold truthy. destruct (String.eqb_spec s EmptyString); [congruence|done]. }
    assert (slug_exists s st1 = true) as -> by (apply slug_exists_true; eauto).
    simpl. destruct (String.eqb_spec s (Job.r_slug row)) as [Hsame|_]; [|done].
    exfalso. apply Hne. apply (Hd k id r row); congruence.
Qed.

Lemma with_empty_slug_distinct : Spec.slugs_distinct (jobs Examples.with_empty_slug).
Proof.
  simpl. apply slugs_distinct_insert_fresh.
  - apply slugs_distinct_insert_fresh.
    + intros k1 k2 r1 r2 H1. by rewrite lookup_empty in H1.
    + intros k' r H. by rewrite lookup_empty in H.
  - intros k' r H. apply lookup_insert_Some in H as [[_ <-]|[_ H]]; [done|].
    by rewrite lookup_empty in H.
Qed.

(** C4 fails on the code for Patch Job. The guard [patch.slug && ...]
    takes the empty string for a missing slug: in a table with the
    distinct slugs empty (job 1) and "beta" (job 2), the patch of job 2
    to the empty slug passes, is answered with the updated job, and leaves
    two jobs with the empty slug. A patch that carries an [id] is written
    under that id: [{id: 2}] on job 1 of the three-job table overwrites
    job 2 with job 1, slug included. *)
Theorem patch_job_duplicates_slug :
  let run := patch_job Examples.env_pass 2 Examples.slug_to_empty Examples.with_empty_slug in
  let run' := patch_job Examples.env_pass 1 Examples.id_to_2 Examples.small in
  Spec.slugs_distinct (jobs Examples.with_empty_slug) /\
  is_failure run.1 = false /\
  Job.r_slug <$> jobs run.2 !! 1 = Some EmptyString /\
  Job.r_slug <$> jobs run.2 !! 2 = Some EmptyString /\
  ~ Spec.slugs_distinct (jobs run.2) /\
  is_failure run'.1 = false /\
  Job.r_slug <$> jobs run'.2 !! 1 = Some "alpha" /\
  Job.r_slug <$> jobs run'.2 !! 2 = Some "alpha".
Proof.
  intros run run'.
  assert (jobs run.2 !! 1 = Some Examples.job_noslug) as H1 by by vm_compute.
  assert (exists r, jobs run.2 !! 2 = Some r /\ Job.r_slug r = EmptyString) as (r2 & H2 & Hs2)
    by (eexists; split; by vm_compute).
  split_and!; try by vm_compute.
  - apply with_empty_slug_distinct.
  - intros Hd. by pose proof (Hd 1 2 _ _ H1 H2 (eq_sym Hs2)).
Qed.

(** * Further properties of the code *)

(** ** [paginate] *)

Lemma take_add_drop {T} (a b : nat) (l : list T) :
  take (a + b) l = take a l ++ take b (drop a l).
Proof.
  revert l. induction a as [|a IH]; intros l; simpl; [done|].
  destruct l as [|x l]; simpl; [by rewrite take_nil|]. by rewrite IH.
Qed.

Lemma concat_chunks {T} (k n : nat) (l : list T) :
  concat (map (fun p => take k (drop (p * k) l)) (seq 0 n)) = take (n * k) l.
Proof.
  induction n as [|n IH]; [done|].
  rewrite seq_S, map_app, concat_app, IH. simpl. rewrite app_nil_r.
  rewrite (Nat.add_comm k). by rewrite take_add_drop.
Qed.

Lemma paginate_data {T} (items : list T) (page pageSize : Z) :
  1 <= page -> 1 <= pageSize ->
  Page.data (paginate items page pageSize)
  = take (Z.to_nat pageSize) (drop (Z.to_nat (page - 1) * Z.to_nat pageSize) items).
Proof.
  intros Hp Hs. unfold paginate. simpl.
  rewrite slice_in_range by nia. unfold Spec.range.
  f_equal; [f_equal; lia|f_equal; nia].
Qed.

Lemma pages_concat {T} (items : list T) (pageSize : Z) :
  1 <= pageSize ->
  exists n : nat,
    Js.max1_ceil_div (Z.of_nat (length items)) pageSize = Js.Fin (Z.of_nat n) /\
    (1 <= n)%nat /\
    concat (map (fun p => Page.data (paginate items p pageSize)) (page_numbers n)) = items.
Proof.
  intros Hs.
  destruct (paginate_is_page_of items 1 pageSize ltac:(lia) Hs)
    as (_ & _ & _ & (c & Hceil & Hpages) & _ & _).
  exists (Z.to_nat (Z.max 1 c)). split_and!.
  - unfold paginate in Hpages. simpl in Hpages. rewrite Hpages. f_equal. lia.
  - lia.
  - set (n := Z.to_nat (Z.max 1 c)). set (k := Z.to_nat pageSize).
    transitivity (concat (map (fun p => take k (drop (p * k) items)) (seq 0 n))).
    + f_equal. unfold page_numbers. rewrite <- seq_shift, !map_map.
      apply map_ext_in. intros p _.
      rewrite paginate_data by lia. unfold k. do 3 f_equal. lia.
    + rewrite concat_chunks. apply take_ge.
      unfold Spec.is_ceil in Hceil. unfold n, k. nia.
Qed.

(** X1: for a page size of at least 1 the pages 1, 2, ..., [pages] put one
    after the other give the list back: no item is lost or repeated. *)
Theorem paginate_pages_cover {T} (items : list T) (pageSize : Z) :
  1 <= pageSize ->
  exists n : nat,
    Page.pages (paginate items 1 pageSize) = Js.Fin (Z.of_nat n) /\
    concat (map (fun p => Page.data (paginate items p pageSize)) (page_numbers n)) = items.
Proof.
  intros Hs. destruct (pages_concat items pageSize Hs) as (n & Hn & _ & Hcat).
  by exists n.
Qed.

(** Five items in pages of two. *)
Lemma paginate_pages_cover_witness :
  1 <= 2 /\
  concat (map (fun p => Page.data (paginate [1; 2; 3; 4; 5] p 2)) (page_numbers 3))
  = [1; 2; 3; 4; 5].
Proof.
  split; [lia|].
  destruct (paginate_pages_cover [1; 2; 3; 4; 5] 2) as (n & Hn & Hcat); [lia|].
  assert (Page.pages (paginate [1; 2; 3; 4; 5] 1 2) = Js.Fin 3) as Hthree by reflexivity.
  rewrite Hthree in Hn. injection Hn as Hn.
  assert (n = 3%nat) as -> by lia.
  exact Hcat.
Defined.

(** X2: for [page >= 1] and [pageSize >= 1] a page holds
    [min(pageSize, max(0, total - (page-1)*pageSize))] items: never more
    than [pageSize], exactly [pageSize] on every page before the last, and
    at least one on the last page of a non-empty list. *)
Theorem paginate_data_length {T} (items : list T) (page pageSize : Z) :
  1 <= page -> 1 <= pageSize ->
  let r := paginate items page pageSize in
  let total := Z.of_nat (length items) in
  Z.of_nat (length (Page.data r)) = Z.min pageSize (Z.max 0 (total - (page - 1) * pageSize)) /\
  (forall p, Page.pages r = Js.Fin p -> page < p ->
             Z.of_nat (length (Page.data r)) = pageSize) /\
  (forall p, Page.pages r = Js.Fin p -> page = p -> 0 < total ->
             0 < Z.of_nat (length (Page.data r))).
Proof.
  intros Hp Hs r total.
  assert (Z.of_nat (length (Page.data r))
          = Z.min pageSize (Z.max 0 (total - (page - 1) * pageSize))) as Hlen.
  { unfold r. rewrite paginate_data by done.
    rewrite length_take, length_drop. unfold total. nia. }
  destruct (paginate_is_page_of items page pageSize Hp Hs)
    as (_ & _ & _ & (c & Hceil & Hpages) & _ & _).
  fold r in Hpages. unfold Spec.is_ceil in Hceil. fold total in Hceil.
  split_and!; [done| |].
  - intros p Hpp Hlt. rewrite Hpages in Hpp. injection Hpp as <-.
    rewrite Hlen. nia.
  - intros p Hpp -> Hpos. rewrite Hpages in Hpp. injection Hpp as Hpp.
    rewrite Hlen. nia.
Qed.

Lemma paginate_data_length_witness :
  1 <= 3 /\ 1 <= 2 /\
  Z.of_nat (length (Page.data (paginate [1; 2; 3; 4; 5] 3 2))) = 1.
Proof.
  split; [lia|]. split; [lia|].
  destruct (paginate_data_length [1; 2; 3; 4; 5] 3 2) as (H & _); [lia|lia|].
  exact H.
Defined.

Lemma slice_empty {T} (l : list T) (start stop : Z) :
  (Js.rel_index (length l) stop <= Js.rel_index (length l) start)%nat ->
  Js.slice l start stop = [].
Proof.
  intros Hle. unfold Js.slice.
  replace (_ - _)%nat with 0%nat by lia. done.
Qed.

(** X3: [paginate] does not reject a page or page size of 0: page 0 of any
    positive page size and every page of page size 0 have empty [data];
    with page size 0, [pages] is [NaN] for the empty list and [Infinity]
    otherwise. *)
Theorem paginate_zero {T} (items : list T) (page pageSize : Z) :
  (1 <= pageSize -> Page.data (paginate items 0 pageSize) = []) /\
  Page.data (paginate items page 0) = [] /\
  Page.pages (paginate items page 0) = (if decide (items = []) then Js.NaN else Js.Infinity).
Proof.
  split_and!.
  - intros Hs. unfold paginate. cbn [Page.data].
    apply slice_empty. unfold Js.rel_index.
    destruct (Z.ltb_spec ((0 - 1) * pageSize) 0); [|lia].
    destruct (Z.ltb_spec ((0 - 1) * pageSize + pageSize) 0); lia.
  - unfold paginate. cbn [Page.data].
    apply slice_empty. replace ((page - 1) * 0 + 0) with ((page - 1) * 0) by lia. done.
  - unfold paginate, Js.max1_ceil_div. cbn [Page.pages].
    destruct (decide (items = [])) as [->|Hne]; [done|].
    by destruct items.
Qed.

Lemma paginate_zero_witness :
  1 <= 10 /\ Page.data (paginate [1; 2; 3] 0 10) = [].
Proof.
  split; [lia|]. exact (proj1 (paginate_zero [1; 2; 3] 0 10) ltac:(lia)).
Defined.

(** ** The list operations, page by page *)




Lemma jobs_toArray_NoDup (st : Store) : NoDup (jobs_toArray st).
Proof. apply (NoDup_fmap_1 Job.id). apply jobs_toArray_ids_NoDup. Qed.


Lemma Candidate_of_to_row (c : Candidate.t) :
  Candidate.of_row (Candidate.id c) (Candidate.to_row c) = c.
Proof. by destruct c. Qed.



Lemma elem_of_List_filter {T} (f : T -> bool) (l : list T) (x : T) :
  x ∈ List.filter f l <-> x ∈ l /\ f x = true.
Proof. by rewrite !list_elem_of_In, filter_In. Qed.

Lemma NoDup_List_filter {T} (f : T -> bool) (l : list T) :
  NoDup l -> NoDup (List.filter f l).
Proof.
  induction 1 as [|x l Hx Hnd IH]; simpl; [constructor|].
  destruct (f x); [|done]. constructor; [|done].
  rewrite elem_of_List_filter. tauto.
Qed.

Lemma truthy_false (s : string) : truthy s = false <-> s = EmptyString.
Proof.
  unfold truthy. destruct (String.eqb_spec s EmptyString); split; (done || congruence).
Qed.

Lemma existsb_eqb_elem_of (t : string) (l : list string) :
  existsb (String.eqb t) l = true <-> t ∈ l.
Proof.
  rewrite existsb_exists. split.
  - intros (x & Hin & Heq). apply String.eqb_eq in Heq as ->. by apply list_elem_of_In.
  - intros Hin. exists t. split; [by apply list_elem_of_In|apply String.eqb_refl].
Qed.

Lemma job_selected_iff (q : JobsQuery) (j : Job.t) :
  Spec.job_selected q j = true <->
  (jq_status q = EmptyString \/ status_name (Job.status j) = jq_status q) /\
  (Js.toLowerCase (jq_search q) = EmptyString
   \/ Js.includes (Js.toLowerCase (Job.title j)) (Js.toLowerCase (jq_search q)) = true
   \/ Js.includes (Job.slug j) (Js.toLowerCase (jq_search q)) = true) /\
  (jq_tags q = [] \/ exists t, t ∈ Job.tags j /\ t ∈ jq_tags q).
Proof.
  unfold Spec.job_selected. rewrite !andb_true_iff.
  assert (job_status_filter (jq_status q) j = true <->
          (jq_status q = EmptyString \/ status_name (Job.status j) = jq_status q)) as ->.
  { unfold job_status_filter. destruct (truthy (jq_status q)) eqn:Ht.
    - rewrite String.eqb_eq. split; [by right|].
      intros [Hemp|]; [|done]. by rewrite Hemp in Ht.
    - apply truthy_false in Ht. split; [by left|done]. }
  assert (job_search_filter (Js.toLowerCase (jq_search q)) j = true <->
          (Js.toLowerCase (jq_search q) = EmptyString
           \/ Js.includes (Js.toLowerCase (Job.title j)) (Js.toLowerCase (jq_search q)) = true
           \/ Js.includes (Job.slug j) (Js.toLowerCase (jq_search q)) = true)) as ->.
  { unfold job_search_filter. destruct (truthy (Js.toLowerCase (jq_search q))) eqn:Ht.
    - rewrite orb_true_iff. split; [by right|].
      intros [Hemp|]; [|done]. by rewrite Hemp in Ht.
    - apply truthy_false in Ht. split; [by left|done]. }
  assert (job_tags_filter (jq_tags q) j = true <->
          (jq_tags q = [] \/ exists t, t ∈ Job.tags j /\ t ∈ jq_tags q)) as ->.
  { unfold job_tags_filter. destruct (jq_tags q) as [|t0 tags] eqn:Htags; simpl.
    - split; [by left|done].
    - split.
      + intros Hex. right. apply existsb_exists in Hex as (t & Hin & Ht).
        exists t. split; [by apply list_elem_of_In|].
        by apply (existsb_eqb_elem_of t (t0 :: tags)).
      + intros [|(t & Hin & Ht)]; [done|].
        apply existsb_exists. exists t. split; [by apply list_elem_of_In|].
        by apply (existsb_eqb_elem_of t (t0 :: tags)). }
  tauto.
Qed.

Lemma order_le_total (a b : Job.t) : order_le a b = true \/ order_le b a = true.
Proof.
  unfold order_le. destruct (Z.leb_spec (Job.order a) (Job.order b)); [by left|right].
  apply Z.leb_le. lia.
Qed.

Lemma createdAt_desc_total (a b : Job.t) :
  createdAt_desc a b = true \/ createdAt_desc b a = true.
Proof.
  unfold createdAt_desc.
  destruct (Z.leb_spec (Job.createdAt b) (Job.createdAt a)); [by left|right].
  apply Z.leb_le. lia.
Qed.


Lemma jobs_all_pages_items (env : Env) (q : JobsQuery) (st : Store) :
  1 <= jq_pageSize q ->
  exists n : nat,
    (1 <= n)%nat /\
    (forall p, exists r,
       get_jobs env (jobs_query_page q p) st = (Ok r, ensureSeed (faker env) st) /\
       Page.pages r = Js.Fin (Z.of_nat n)) /\
    jobs_all_pages env q st n
    = Spec.job_sorted (jq_sort q)
        (List.filter (Spec.job_selected q) (jobs_toArray (ensureSeed (faker env) st))).
Proof.
  intros Hs. set (st1 := ensureSeed (faker env) st).
  set (items := jobs_items q (jobs_toArray st1)).
  destruct (pages_concat items (jq_pageSize q) Hs) as (n & Hn & Hpos & Hcat).
  exists n. split_and!; [done| |].
  - intros p. eexists. split; [reflexivity|]. exact Hn.
  - unfold jobs_all_pages. rewrite <- jobs_items_pipeline. exact Hcat.
Qed.

(** X4: with a page size of at least 1, the pages of [GET /jobs] taken
    together hold every stored job that passes the three filters, each
    once, and nothing else; they are in ascending [order] for the sort
    key "order" and in descending [createdAt] for "createdAt:desc". A job
    passes when its status is the requested one (or none is requested),
    the lowercased search occurs in its lowercased title or in its slug
    (or is empty), and it carries one of the requested tags (or none is
    requested). *)
Theorem jobs_listing_exact (env : Env) (q : JobsQuery) (st : Store) :
  1 <= jq_pageSize q ->
  let st1 := ensureSeed (faker env) st in
  exists (n : nat) (r : Page.t Job.t),
    get_jobs env q st = (Ok r, st1) /\
    Page.pages r = Js.Fin (Z.of_nat n) /\
    let listing := jobs_all_pages env q st n in
    NoDup listing /\
    (forall j, j ∈ listing <->
       jobs st1 !! Job.id j = Some (Job.to_row j) /\
       (jq_status q = EmptyString \/ status_name (Job.status j) = jq_status q) /\
       (Js.toLowerCase (jq_search q) = EmptyString
        \/ Js.includes (Js.toLowerCase (Job.title j)) (Js.toLowerCase (jq_search q)) = true
        \/ Js.includes (Job.slug j) (Js.toLowerCase (jq_search q)) = true) /\
       (jq_tags q = [] \/ exists t, t ∈ Job.tags j /\ t ∈ jq_tags q)) /\
    (jq_sort q = "order" ->
     Sorted (fun a b => Job.order a <= Job.order b) listing) /\
    (jq_sort q = "createdAt:desc" ->
     Sorted (fun a b => Job.createdAt b <= Job.createdAt a) listing).
Proof.
  intros Hs st1.
  destruct (jobs_all_pages_items env q st Hs) as (n & _ & Hpages & Hitems).
  fold st1 in Hitems.
  exists n, (paginate (jobs_items q (jobs_toArray st1)) (jq_page q) (jq_pageSize q)).
  split; [done|]. split.
  { destruct (Hpages (jq_page q)) as (r & Hr & Hn).
    unfold get_jobs in Hr. cbv zeta in Hr. simpl in Hr. injection Hr as <-. exact Hn. }
  cbv zeta. rewrite Hitems.
  set (filtered := List.filter (Spec.job_selected q) (jobs_toArray st1)).
  assert (Spec.job_sorted (jq_sort q) filtered ≡ₚ filtered) as Hperm.
  { unfold Spec.job_sorted.
    destruct (String.eqb _ _); [apply sort_by_perm|].
    destruct (String.eqb _ _); [apply sort_by_perm|done]. }
  split_and!.
  - rewrite Hperm. apply NoDup_List_filter, jobs_toArray_NoDup.
  - intros j. rewrite Hperm. unfold filtered.
    rewrite elem_of_List_filter, elem_of_jobs_toArray, job_selected_iff. done.
  - intros Hsort. unfold Spec.job_sorted. rewrite Hsort. simpl.
    eapply Sorted_weaken; [|apply (sort_by_sorted order_le order_le_total)].
    intros a b Hab. by apply Z.leb_le.
  - intros Hsort. unfold Spec.job_sorted. rewrite Hsort. simpl.
    eapply Sorted_weaken; [|apply (sort_by_sorted createdAt_desc createdAt_desc_total)].
    intros a b Hab. by apply Z.leb_le.
Qed.

(** The three jobs of the small store, two per page. *)
Lemma jobs_listing_exact_witness :
  1 <= jq_pageSize QueryExamples.by_two /\
  exists (n : nat) (r : Page.t Job.t),
    get_jobs Examples.env_pass QueryExamples.by_two Examples.small = (Ok r, Examples.small) /\
    Page.pages r = Js.Fin (Z.of_nat n) /\
    NoDup (jobs_all_pages Examples.env_pass QueryExamples.by_two Examples.small n).
Proof.
  split; [simpl; lia|].
  destruct (jobs_listing_exact Examples.env_pass QueryExamples.by_two Examples.small)
    as (n & r & Hrun & Hpages & Hnd & _); [simpl; lia|].
  exists n, r. split_and!; [exact Hrun|exact Hpages|exact Hnd].
Defined.





(** ** Lists sorted by an integer key *)

Section keyed.
Context {A : Type} (key : A -> Z).

Lemma key_lt_trans : Transitive (key_lt key).
Proof. intros a b c. unfold key_lt. lia. Qed.

Lemma key_lt_antisymm : AntiSymm eq (key_lt key).
Proof. intros a b. unfold key_lt. lia. Qed.

Lemma Sorted_le_lt (l : list A) :
  Sorted (fun a b => key a <= key b) l -> NoDup (map key l) -> Sorted (key_lt key) l.
Proof.
  induction 1 as [|x l Hs IH Hhd]; intros Hnd; [constructor|].
  simpl in Hnd. apply NoDup_cons in Hnd as [Hx Hnd].
  constructor; [by apply IH|].
  destruct Hhd as [|y l Hxy]; constructor.
  unfold key_lt. simpl in Hx. apply not_elem_of_cons in Hx as [Hne _]. lia.
Qed.

Lemma sorted_by_key_unique (l1 l2 : list A) :
  Sorted (fun a b => key a <= key b) l1 ->
  Sorted (fun a b => key a <= key b) l2 ->
  NoDup (map key l1) -> l1 ≡ₚ l2 -> l1 = l2.
Proof.
  intros H1 H2 Hnd Hperm.
  apply (@Sorted_unique _ (key_lt key) key_lt_trans key_lt_antisymm);
    [by apply Sorted_le_lt| |done].
  apply Sorted_le_lt; [done|]. by rewrite <- Hperm.
Qed.
End keyed.

Section sort_again.
Context {A : Type} (le : A -> A -> bool).

Lemma sort_by_sorted_id (l : list A) :
  Sorted (fun a b => le a b = true) l -> Js.sort_by le l = l.
Proof.
  induction 1 as [|x l Hs IH Hhd]; [done|].
  unfold Js.sort_by in *. simpl. rewrite IH.
  destruct Hhd as [|y l Hxy]; simpl; [done|]. by rewrite Hxy.
Qed.

Lemma StronglySorted_List_filter (R : A -> A -> Prop) (f : A -> bool) (l : list A) :
  StronglySorted R l -> StronglySorted R (List.filter f l).
Proof.
  induction 1 as [|x l Hs IH Hall]; simpl; [constructor|].
  destruct (f x); [|done]. constructor; [done|].
  apply Forall_forall. intros y Hy. apply elem_of_List_filter in Hy as [Hy _].
  by eapply Forall_forall in Hall.
Qed.
End sort_again.

Lemma order_le_trans : Transitive (fun a b : Job.t => order_le a b = true).
Proof. intros a b c. unfold order_le. rewrite !Z.leb_le. lia. Qed.

Lemma orderBy_order_sorted (st : Store) :
  Sorted (fun a b => order_le a b = true) (jobs_orderBy_order st).
Proof. apply sort_by_sorted, order_le_total. Qed.

(** Sorting the listing by [order] without one of its jobs changes nothing. *)
Lemma sort_filtered_orderBy (st : Store) (f : Job.t -> bool) :
  Js.sort_by order_le (List.filter f (jobs_orderBy_order st))
  = List.filter f (jobs_orderBy_order st).
Proof.
  apply sort_by_sorted_id, StronglySorted_Sorted, StronglySorted_List_filter.
  apply Sorted_StronglySorted; [apply order_le_trans|apply orderBy_order_sorted].
Qed.

(** The jobs of [l], each with its position in [l] as [order]. *)
Lemma relabel_sorted (l : list Job.t) (idx : nat) :
  Sorted (fun a b => Job.order a <= Job.order b)
         (imap (fun i j => Job.of_row (Job.id j)
                             (Job.set_order (Z.of_nat (idx + i)) (Job.to_row j))) l).
Proof.
  revert idx. induction l as [|j l IH]; intros idx; [constructor|].
  rewrite imap_cons. constructor.
  - rewrite (imap_ext _ (fun i j => Job.of_row (Job.id j)
                           (Job.set_order (Z.of_nat (S idx + i)) (Job.to_row j)))).
    + apply IH.
    + intros i x _. unfold compose.
      by replace (idx + S i)%nat with (S idx + i)%nat by (clear; lia).
  - destruct l as [|j' l]; [constructor|]. rewrite imap_cons. constructor.
    unfold compose. cbn -[Z.of_nat Nat.add]. clear. lia.
Qed.

Lemma toArray_reindexed (l : list Job.t) (st : Store) :
  NoDup (map Job.id l) ->
  (forall j, j ∈ l <-> jobs st !! Job.id j = Some (Job.to_row j)) ->
  jobs_orderBy_order (set_jobs (reindex 0 l (jobs st)) st)
  = imap (fun i j => Job.of_row (Job.id j) (Job.set_order (Z.of_nat i) (Job.to_row j))) l.
Proof.
  intros Hnd Hrows.
  set (l' := imap (fun i j => Job.of_row (Job.id j)
                                (Job.set_order (Z.of_nat i) (Job.to_row j))) l).
  assert (jobs_toArray (set_jobs (reindex 0 l (jobs st)) st) ≡ₚ l') as Hperm.
  { rewrite jobs_toArray_perm. simpl. rewrite reindex_all_rows by done.
    unfold reindexed, l'.
    change (map ?f (imap ?g l)) with (f <$> imap g l). by rewrite fmap_imap. }
  symmetry. apply (sorted_by_key_unique Job.order).
  - apply (relabel_sorted l 0).
  - eapply Sorted_weaken; [|apply orderBy_order_sorted].
    intros a b Hab. by apply Z.leb_le.
  - unfold l'. change (map ?f (imap ?g l)) with (f <$> imap g l).
    rewrite fmap_imap.
    rewrite (imap_ext _ (fun i _ => Z.of_nat i)) by done.
    clear. generalize 0%nat as k. intros k.
    assert (forall k, NoDup (imap (fun (i : nat) (_ : Job.t) => Z.of_nat (k + i)) l)) as H.
    { clear. induction l as [|j l IH]; intros k; [constructor|].
      rewrite imap_cons. constructor.
      - intros Hin. apply elem_of_lookup_imap in Hin as (i & x & Heq & _).
        unfold compose in Heq. cbn -[Z.of_nat Nat.add] in Heq. clear -Heq. lia.
      - rewrite (imap_ext _ (fun i _ => Z.of_nat (S k + i))); [apply IH|].
        intros i x _. unfold compose.
        by replace (k + S i)%nat with (S k + i)%nat by (clear; lia). }
    apply (H 0%nat).
  - rewrite orderBy_order_perm. by symmetry.
Qed.

(** ** What a reorder does to the listing *)

Lemma reorder_job_ok_exact (env : Env) (id : Z) (body : ReorderBody) (st st' : Store) :
  reorder_job env id body st = (Ok ok_true, st') ->
  let st1 := ensureSeed (faker env) st in
  exists moved l,
    Job.id moved = id /\
    l = Js.splice_insert (toOrder body) moved
          (List.filter (fun j => negb (Job.id j =? id)) (jobs_orderBy_order st1)) /\
    st' = set_jobs (reindex 0 l (jobs st1)) st1 /\
    NoDup (map Job.id l) /\
    l ≡ₚ jobs_toArray st1 /\
    (forall j, j ∈ l <-> jobs st1 !! Job.id j = Some (Job.to_row j)).
Proof.
  intros H st1. unfold reorder_job in H. cbv zeta in H. fold st1 in H.
  destruct (Js.lt_draw (rnd env) (1 # 10)); [done|].
  destruct (find _ _) as [moved|] eqn:Hfind; [|done].
  injection H as <-.
  apply find_some in Hfind as [Hin Hid].
  apply list_elem_of_In in Hin. apply Z.eqb_eq in Hid.
  rewrite sort_filtered_orderBy.
  eexists moved, _. split; [exact Hid|]. split; [reflexivity|].
  set (l := Js.splice_insert _ _ _).
  assert (l ≡ₚ jobs_toArray st1) as Hl.
  { unfold l. rewrite splice_insert_perm. rewrite <- orderBy_order_perm.
    apply filter_out_moved; [|done|done].
    rewrite orderBy_order_perm. apply jobs_toArray_ids_NoDup. }
  split_and!; [done| |done|].
  - rewrite Hl. apply jobs_toArray_ids_NoDup.
  - intros j. rewrite Hl. apply elem_of_jobs_toArray.
Qed.

Lemma map_splice_insert {A B} (f : A -> B) (start : Z) (x : A) (l : list A) :
  map f (Js.splice_insert start x l) = Js.splice_insert start (f x) (map f l).
Proof.
  unfold Js.splice_insert. rewrite length_map, map_app. simpl.
  by rewrite firstn_map, skipn_map.
Qed.

Lemma map_List_filter {A B} (f : A -> B) (p : B -> bool) (l : list A) :
  map f (List.filter (fun a => p (f a)) l) = List.filter p (map f l).
Proof.
  induction l as [|a l IH]; simpl; [done|].
  destruct (p (f a)); simpl; by rewrite IH.
Qed.

Lemma reorder_listing_aux (env : Env) (id : Z) (body : ReorderBody) (st st' : Store) :
  reorder_job env id body st = (Ok ok_true, st') ->
  let st1 := ensureSeed (faker env) st in
  map Job.id (jobs_orderBy_order st')
  = Js.splice_insert (toOrder body) id
      (List.filter (fun k => negb (k =? id)) (map Job.id (jobs_orderBy_order st1))) /\
  map Job.order (jobs_orderBy_order st') = map Z.of_nat (seq 0 (size (jobs st1))).
Proof.
  intros H st1.
  destruct (reorder_job_ok_exact env id body st st' H)
    as (moved & l & Hid & Hdef & -> & Hnd & Hl & Hrows).
  fold st1 in Hdef, Hnd, Hl, Hrows |- *.
  rewrite (toArray_reindexed l st1 Hnd Hrows).
  change (map ?f (imap ?g l)) with (f <$> imap g l). rewrite !fmap_imap.
  split.
  - rewrite (imap_ext _ (fun _ => Job.id)) by done.
    transitivity (map Job.id l); [apply imap_const|].
    rewrite Hdef.
    rewrite map_splice_insert, Hid.
    by rewrite <- (map_List_filter Job.id (fun k => negb (k =? id))).
  - rewrite (imap_ext _ (fun i _ => Z.of_nat i)) by done.
    rewrite <- (jobs_toArray_length st1), <- Hl.
    apply list_eq. intros i. rewrite list_lookup_imap.
    change (map Z.of_nat ?x) with (Z.of_nat <$> x). rewrite list_lookup_fmap.
    destruct (decide (i < length l)%nat) as [Hlt|Hge].
    + destruct (lookup_lt_is_Some_2 l i Hlt) as [x ->]. by rewrite lookup_seq_lt.
    + rewrite lookup_ge_None_2 by lia. by rewrite lookup_seq_ge by lia.
Qed.

(** X6: after a successful reorder the listing of the jobs by [order] is
    the old listing with the moved job taken out and put back at the
    position [toOrder] (clamped as [splice] does): the other jobs keep their
    relative order, and the job at position [i] has [order = i]. *)
Theorem reorder_listing (env : Env) (id : Z) (body : ReorderBody) (st st' : Store) :
  reorder_job env id body st = (Ok ok_true, st') ->
  let st1 := ensureSeed (faker env) st in
  map Job.id (jobs_orderBy_order st')
  = Js.splice_insert (toOrder body) id
      (List.filter (fun k => negb (k =? id)) (map Job.id (jobs_orderBy_order st1))) /\
  map Job.order (jobs_orderBy_order st') = map Z.of_nat (seq 0 (size (jobs st1))).
Proof. apply reorder_listing_aux. Qed.

(** Job 3 of three goes to the front: the listing 1, 2, 3 becomes 3, 1, 2. *)
Lemma reorder_listing_witness :
  let st' := (reorder_job Examples.env_pass 3 (mkReorder 2 0) Examples.small).2 in
  map Job.id (jobs_orderBy_order Examples.small) = [1; 2; 3] /\
  map Job.id (jobs_orderBy_order st') = [3; 1; 2].
Proof.
  intros st'. split; [by vm_compute|].
  assert (reorder_job Examples.env_pass 3 (mkReorder 2 0) Examples.small = (Ok ok_true, st'))
    as Hrun by (by vm_compute).
  destruct (reorder_listing _ _ _ _ _ Hrun) as [Hids _].
  rewrite Hids. by vm_compute.
Defined.

(** X7: a successful reorder changes nothing but [order] fields: every job
    is still there with the same title, slug, status, tags and dates, no
    job is added, the other tables are untouched, and pairwise distinct
    slugs stay pairwise distinct. *)
Theorem reorder_changes_only_order (env : Env) (id : Z) (body : ReorderBody)
    (st st' : Store) :
  reorder_job env id body st = (Ok ok_true, st') ->
  let st1 := ensureSeed (faker env) st in
  (forall k, Job.set_order 0 <$> jobs st' !! k = Job.set_order 0 <$> jobs st1 !! k) /\
  candidates st' = candidates st1 /\
  timelines st' = timelines st1 /\
  assessments st' = assessments st1 /\
  assessmentResponses st' = assessmentResponses st1 /\
  meta st' = meta st1 /\
  (Spec.slugs_distinct (jobs st1) -> Spec.slugs_distinct (jobs st')).
Proof.
  intros H st1.
  destruct (reorder_job_ok_exact env id body st st' H)
    as (moved & l & _ & _ & -> & Hnd & Hl & Hrows).
  fold st1 in Hnd, Hl, Hrows |- *.
  assert (forall k, Job.set_order 0 <$> reindex 0 l (jobs st1) !! k
                    = Job.set_order 0 <$> jobs st1 !! k) as Hsame.
  { intros k. destruct (decide (k ∈ map Job.id l)) as [Hin|Hout].
    - apply list_elem_of_fmap in Hin as (j & -> & Hj).
      apply list_elem_of_lookup in Hj as [i Hi].
      rewrite (reindex_lookup_at l 0 _ i j) by done.
      by destruct (jobs st1 !! Job.id j).
    - by rewrite reindex_lookup_notin. }
  split_and!; [exact Hsame|done..|].
  intros Hd k1 k2 r1 r2 H1 H2 Heq. simpl in H1, H2.
  pose proof (Hsame k1) as E1. pose proof (Hsame k2) as E2.
  rewrite H1 in E1. rewrite H2 in E2. simpl in E1, E2.
  destruct (jobs st1 !! k1) as [o1|] eqn:Ho1; [|done].
  destruct (jobs st1 !! k2) as [o2|] eqn:Ho2; [|done].
  apply (Hd k1 k2 o1 o2); [done|done|].
  apply (f_equal (fun o => Job.r_slug <$> o)) in E1, E2. simpl in E1, E2.
  congruence.
Qed.

Lemma reorder_changes_only_order_witness :
  let st' := (reorder_job Examples.env_pass 3 (mkReorder 2 0) Examples.small).2 in
  Job.set_order 0 <$> jobs st' !! 3 = Some (Job.set_order 0 Examples.job_c) /\
  timelines st' = timelines Examples.small.
Proof.
  intros st'.
  assert (reorder_job Examples.env_pass 3 (mkReorder 2 0) Examples.small = (Ok ok_true, st'))
    as Hrun by (by vm_compute).
  destruct (reorder_changes_only_order _ _ _ _ _ Hrun) as (Hjobs & _ & Htl & _).
  split; [|exact Htl]. rewrite Hjobs. by vm_compute.
Defined.

(** ** Creating a job *)

Lemma last_is_max {A} (key : A -> Z) (l : list A) (x : A) :
  Sorted (fun a b => key a <= key b) l -> last l = Some x ->
  forall y, y ∈ l -> key y <= key x.
Proof.
  intros Hs Hlast.
  assert (Transitive (fun a b : A => key a <= key b)) as Htrans
    by (intros a b c; lia).
  apply (Sorted_StronglySorted _) in Hs.
  induction Hs as [|a l Hs IH Hall]; intros y Hy; [by apply elem_of_nil in Hy|].
  destruct l as [|b l].
  - simpl in Hlast. injection Hlast as <-. apply list_elem_of_singleton in Hy as ->. lia.
  - assert (last (b :: l) = Some x) as Hlast' by done.
    apply elem_of_cons in Hy as [->|Hy]; [|by apply IH].
    assert (x ∈ b :: l) as Hx by by apply last_Some_elem_of.
    by eapply Forall_forall in Hall.
Qed.

Lemma orderBy_order_sorted_le (st : Store) :
  Sorted (fun a b => Job.order a <= Job.order b) (jobs_orderBy_order st).
Proof.
  eapply Sorted_weaken; [|apply orderBy_order_sorted].
  intros a b Hab. by apply Z.leb_le.
Qed.

Lemma elem_of_orderBy_order (st : Store) (j : Job.t) :
  j ∈ jobs_orderBy_order st <-> jobs st !! Job.id j = Some (Job.to_row j).
Proof. rewrite orderBy_order_perm. apply elem_of_jobs_toArray. Qed.

(** The [order] that [POST /jobs] gives to a new job. *)
Lemma next_order_above (st : Store) (k : Z) (r : Job.row) :
  jobs st !! k = Some r ->
  Job.r_order r < default (-1) (Job.order <$> last (jobs_orderBy_order st)) + 1.
Proof.
  intros Hk.
  assert (Job.of_row k r ∈ jobs_orderBy_order st) as Hin.
  { apply elem_of_orderBy_order. simpl. by rewrite Job_to_of_row. }
  destruct (last (jobs_orderBy_order st)) as [x|] eqn:Hlast.
  - simpl. pose proof (last_is_max Job.order _ x (orderBy_order_sorted_le st) Hlast _ Hin) as H.
    simpl in H. lia.
  - apply last_None in Hlast. rewrite Hlast in Hin. by apply elem_of_nil in Hin.
Qed.

(** X8: when no stored job has the slug of the body, the failure draw
    passes and the id [count + 1] is free, [POST /jobs] answers with the
    new job and stores exactly it: id [count + 1], status [active], title
    and slug of the body, the tags of the body or none, both dates the
    current time, and an [order] that is above the [order] of every stored
    job (0 in an empty table). No other job changes. *)
Theorem post_jobs_created (env : Env) (body : JobBody) (st : Store) :
  let st1 := ensureSeed (faker env) st in
  (forall k r, jobs st1 !! k = Some r -> Job.r_slug r <> b_slug body) ->
  Js.lt_draw (rnd env) (8 # 100) = false ->
  jobs st1 !! (Z.of_nat (size (jobs st1)) + 1) = None ->
  exists job,
    post_jobs env body st = (Ok job, set_jobs (<[Job.id job := Job.to_row job]> (jobs st1)) st1) /\
    Job.id job = Z.of_nat (size (jobs st1)) + 1 /\
    Job.title job = b_title body /\ Job.slug job = b_slug body /\
    Job.status job = active /\ Job.tags job = default [] (b_tags body) /\
    Job.createdAt job = now env 0 /\ Job.updatedAt job = now env 0 /\
    (forall k r, jobs st1 !! k = Some r -> Job.r_order r < Job.order job) /\
    (jobs st1 = ∅ -> Job.order job = 0).
Proof.
  intros st1 Hslug Hdraw Hfree.
  exists {| Job.id := Z.of_nat (size (jobs st1)) + 1;
            Job.title := b_title body;
            Job.slug := b_slug body;
            Job.status := active;
            Job.tags := default [] (b_tags body);
            Job.order := default (-1) (Job.order <$> last (jobs_orderBy_order st1)) + 1;
            Job.createdAt := now env 0;
            Job.updatedAt := now env 0 |}.
  split.
  - unfold post_jobs. cbv zeta. fold st1.
    assert (slug_exists (b_slug body) st1 = false) as ->.
    { destruct (slug_exists (b_slug body) st1) eqn:Hex; [|done].
      apply slug_exists_true in Hex as (k & r & Hk & Hs). by destruct (Hslug k r). }
    rewrite Hdraw. unfold Table.add, Table.count. simpl. rewrite Hfree. reflexivity.
  - simpl. split_and!; try done.
    + intros k r Hk. by apply (next_order_above st1 k r).
    + intros Hempty. unfold jobs_orderBy_order, jobs_toArray, Table.entries.
      rewrite Hempty, map_to_list_empty. done.
Qed.

(** On the empty table of a seeded store. *)
Lemma post_jobs_created_witness :
  let st0 := set_jobs ∅ Examples.small in
  let body := {| b_title := "Engineer"; b_slug := "engineer-99"; b_tags := Some ["remote"] |} in
  exists job,
    post_jobs Examples.env_pass body st0 = (Ok job, set_jobs (<[1 := Job.to_row job]> ∅) st0) /\
    Job.order job = 0 /\ Job.status job = active.
Proof.
  intros st0 body.
  destruct (post_jobs_created Examples.env_pass body st0)
    as (job & Hrun & Hid & _ & _ & Hst & _ & _ & _ & _ & Hord).
  - intros k r Hk. vm_compute in Hk. discriminate.
  - by vm_compute.
  - by vm_compute.
  - exists job. split_and!; [|by apply Hord|exact Hst].
    rewrite Hrun. rewrite Hid. by vm_compute.
Defined.

Lemma ids_dense_fresh {R} (t : gmap Z R) :
  ids_dense t -> t !! (Z.of_nat (size t) + 1) = None.
Proof.
  intros Hd. destruct (t !! _) eqn:Hk; [|done].
  assert (is_Some (t !! (Z.of_nat (size t) + 1))) as Hs by eauto.
  apply Hd in Hs. lia.
Qed.

Lemma ids_dense_insert {R} (t : gmap Z R) (r : R) :
  ids_dense t -> ids_dense (<[Z.of_nat (size t) + 1 := r]> t).
Proof.
  intros Hd k. pose proof (ids_dense_fresh t Hd) as Hfresh.
  rewrite map_size_insert_None by done.
  rewrite lookup_insert_is_Some. unfold ids_dense in Hd. rewrite Hd. lia.
Qed.

Lemma ids_dense_empty {R} : ids_dense (∅ : gmap Z R).
Proof.
  intros k. rewrite lookup_empty, map_size_empty. split; [by intros []|lia].
Qed.

Lemma ids_dense_small_jobs : ids_dense (jobs Examples.small).
Proof.
  intros k. simpl. rewrite !lookup_insert_is_Some, lookup_empty.
  replace (size _) with 3%nat by done.
  split.
  - intros [|[_ [|[_ [|[_ []%is_Some_None]]]]]]; lia.
  - intros Hk. destruct (decide (1 = k)); [by left|right]. split; [done|].
    destruct (decide (2 = k)); [by left|right]. split; [done|].
    destruct (decide (3 = k)); [by left|lia].
Qed.

Lemma ids_dense_small_candidates : ids_dense (candidates Examples.small).
Proof.
  intros k. simpl. rewrite !lookup_insert_is_Some, lookup_empty.
  replace (size _) with 1%nat by done.
  split.
  - intros [|[_ []%is_Some_None]]; lia.
  - intros Hk. left. lia.
Qed.

(** X9: on a store whose job ids are 1, ..., n, [POST /jobs] never runs
    into a ConstraintError (the id [count + 1] is free), and the job ids
    are again 1, ..., count after it, created or not; the same holds for
    [POST /candidates] and the candidate ids. *)
Theorem create_keeps_ids_dense (env : Env) (st : Store) :
  let st1 := ensureSeed (faker env) st in
  ids_dense (jobs st1) -> ids_dense (candidates st1) ->
  (forall body,
     (forall e, (post_jobs env body st).1 <> Uncaught e) /\
     ids_dense (jobs (post_jobs env body st).2) /\
     ids_dense (candidates (post_jobs env body st).2)) /\
  (forall body,
     (forall e, (post_candidates env body st).1 <> Uncaught e) /\
     ids_dense (jobs (post_candidates env body st).2) /\
     ids_dense (candidates (post_candidates env body st).2)).
Proof.
  intros st1 Hj Hc. split; intros body.
  - unfold post_jobs. cbv zeta. fold st1.
    destruct (slug_exists _ _); [done|].
    destruct (Js.lt_draw _ _); [done|].
    unfold Table.add, Table.count. simpl.
    rewrite (ids_dense_fresh _ Hj). simpl.
    split_and!; [done| |done]. by apply ids_dense_insert.
  - unfold post_candidates. cbv zeta. fold st1.
    destruct (Js.lt_draw _ _); [done|].
    unfold Table.add, Table.count. simpl.
    rewrite (ids_dense_fresh _ Hc). simpl.
    split_and!; [done|done|]. by apply ids_dense_insert.
Qed.

Lemma create_keeps_ids_dense_witness :
  let body := {| b_title := "Engineer"; b_slug := "engineer-99"; b_tags := None |} in
  ids_dense (jobs Examples.small) /\
  ids_dense (jobs (post_jobs Examples.env_pass body Examples.small).2) /\
  Job.r_slug <$> jobs (post_jobs Examples.env_pass body Examples.small).2 !! 4
  = Some "engineer-99".
Proof.
  intros body. split; [apply ids_dense_small_jobs|].
  destruct (create_keeps_ids_dense Examples.env_pass Examples.small) as [Hjobs _].
  - apply ids_dense_small_jobs.
  - apply ids_dense_small_candidates.
  - destruct (Hjobs body) as (_ & Hd & _). split; [exact Hd|]. by vm_compute.
Defined.

(** What a successful [POST /jobs] did. *)
Lemma post_jobs_ok (env : Env) (body : JobBody) (st st' : Store) (job : Job.t) :
  post_jobs env body st = (Ok job, st') ->
  let st1 := ensureSeed (faker env) st in
  job = {| Job.id := Z.of_nat (size (jobs st1)) + 1;
           Job.title := b_title body;
           Job.slug := b_slug body;
           Job.status := active;
           Job.tags := default [] (b_tags body);
           Job.order := default (-1) (Job.order <$> last (jobs_orderBy_order st1)) + 1;
           Job.createdAt := now env 0;
           Job.updatedAt := now env 0 |} /\
  jobs st1 !! Job.id job = None /\
  st' = set_jobs (<[Job.id job := Job.to_row job]> (jobs st1)) st1.
Proof.
  intros H st1. unfold post_jobs in H. cbv zeta in H. fold st1 in H.
  destruct (slug_exists _ _); [done|].
  destruct (Js.lt_draw _ _); [done|].
  unfold Table.add, Table.count in H. simpl in H.
  destruct (jobs st1 !! _) eqn:Hfree; [done|].
  injection H as <- <-. by simpl.
Qed.

Lemma jobs_toArray_insert (st : Store) (job : Job.t) :
  jobs st !! Job.id job = None ->
  jobs_toArray (set_jobs (<[Job.id job := Job.to_row job]> (jobs st)) st)
  ≡ₚ job :: jobs_toArray st.
Proof.
  intros Hfree. rewrite !jobs_toArray_perm. simpl.
  rewrite map_to_list_insert by done. simpl. by rewrite Job_of_to_row.
Qed.

Lemma last_seq_orders (n : nat) :
  default (-1) (last (map Z.of_nat (seq 0 n))) + 1 = Z.of_nat n.
Proof.
  destruct n as [|n]; [done|].
  rewrite seq_S, map_app. simpl. rewrite last_snoc. simpl. lia.
Qed.

Lemma post_jobs_orders_aux (env : Env) (body : JobBody) (st st' : Store)
    (job : Job.t) :
  let st1 := ensureSeed (faker env) st in
  orders_dense st1 ->
  post_jobs env body st = (Ok job, st') ->
  Job.order job = Z.of_nat (size (jobs st1)) /\
  jobs_orderBy_order st' = jobs_orderBy_order st1 ++ [job] /\
  orders_dense st'.
Proof.
  intros st1 Hdense Hrun.
  destruct (post_jobs_ok env body st st' job Hrun) as (Hjob & Hfree & ->).
  fold st1 in Hjob, Hfree |- *. unfold orders_dense in Hdense.
  assert (Job.order job = Z.of_nat (size (jobs st1))) as Horder.
  { rewrite Hjob. simpl.
    change (Job.order <$> last ?l) with (fmap Job.order (last l)).
    rewrite <- fmap_last. change (Job.order <$> ?l) with (map Job.order l).
    rewrite Hdense. apply last_seq_orders. }
  assert (map Job.order (jobs_orderBy_order st1 ++ [job])
          = map Z.of_nat (seq 0 (S (size (jobs st1))))) as Horders.
  { rewrite map_app, Hdense, seq_S, map_app. simpl. by rewrite Horder. }
  assert (jobs_orderBy_order (set_jobs (<[Job.id job:=Job.to_row job]> (jobs st1)) st1)
          = jobs_orderBy_order st1 ++ [job]) as Hlist.
  { symmetry. apply (sorted_by_key_unique Job.order).
    - apply StronglySorted_Sorted, StronglySorted_app_2.
      + intros x1 x2 Hx1 Hx2. apply list_elem_of_singleton in Hx2 as ->.
        rewrite Horder.
        assert (Job.order x1 ∈ map Job.order (jobs_orderBy_order st1)) as Hin
          by (apply list_elem_of_fmap; eauto).
        rewrite Hdense in Hin. apply list_elem_of_fmap in Hin as (i & -> & Hi).
        apply elem_of_seq in Hi. lia.
      + apply Sorted_StronglySorted; [intros a b c; lia|apply orderBy_order_sorted_le].
      + repeat constructor.
    - apply orderBy_order_sorted_le.
    - rewrite Horders. apply (NoDup_fmap_2 Z.of_nat), NoDup_seq.
    - rewrite (orderBy_order_perm (set_jobs _ _)), jobs_toArray_insert by done.
      rewrite <- Permutation_cons_append. by rewrite orderBy_order_perm. }
  split_and!; [done|done|].
  unfold orders_dense. rewrite Hlist, Horders. simpl jobs.
  by rewrite map_size_insert_None.
Qed.

(** X10: on a store whose jobs, listed by [order], have the orders 0, 1,
    ..., n-1, a created job gets the order n and goes to the end of the
    listing; the orders are then 0, 1, ..., n. *)
Theorem post_jobs_keeps_orders_dense (env : Env) (body : JobBody) (st st' : Store)
    (job : Job.t) :
  let st1 := ensureSeed (faker env) st in
  orders_dense st1 ->
  post_jobs env body st = (Ok job, st') ->
  Job.order job = Z.of_nat (size (jobs st1)) /\
  jobs_orderBy_order st' = jobs_orderBy_order st1 ++ [job] /\
  orders_dense st'.
Proof. apply post_jobs_orders_aux. Qed.

Lemma post_jobs_keeps_orders_dense_witness :
  let body := {| b_title := "Engineer"; b_slug := "engineer-99"; b_tags := None |} in
  let run := post_jobs Examples.env_pass body Examples.small in
  orders_dense Examples.small /\
  map Job.id (jobs_orderBy_order run.2) = [1; 2; 3; 4] /\
  orders_dense run.2.
Proof.
  intros body run.
  assert (orders_dense Examples.small) as Hdense by by vm_compute.
  assert (exists job, run = (Ok job, run.2)) as [job Hrun] by (eexists; by vm_compute).
  destruct (post_jobs_keeps_orders_dense Examples.env_pass body Examples.small run.2 job)
    as (_ & Hlist & Hd); [exact Hdense|exact Hrun|].
  split_and!; [exact Hdense| |exact Hd].
  by vm_compute.
Defined.

Lemma seeded_set_jobs (t : gmap Z Job.row) (st : Store) :
  seeded (set_jobs t st) = seeded st.
Proof. done. Qed.

(** X11: a job that [POST /jobs] has created is on exactly one place in
    the pages of any later [GET /jobs] whose filters it passes: a status
    filter that is empty or "active", a search string that is empty or
    occurs (lowercased) in the lowercased title or in the slug of the
    body, and a tag filter that is empty or names a tag of the body. *)
Theorem created_job_is_listed (env env' : Env) (body : JobBody) (st st' : Store)
    (job : Job.t) (q : JobsQuery) :
  post_jobs env body st = (Ok job, st') ->
  1 <= jq_pageSize q ->
  (jq_status q = EmptyString \/ jq_status q = "active") ->
  (Js.toLowerCase (jq_search q) = EmptyString
   \/ Js.includes (Js.toLowerCase (b_title body)) (Js.toLowerCase (jq_search q)) = true
   \/ Js.includes (b_slug body) (Js.toLowerCase (jq_search q)) = true) ->
  (jq_tags q = [] \/ exists t, t ∈ default [] (b_tags body) /\ t ∈ jq_tags q) ->
  exists (n : nat) (r : Page.t Job.t),
    get_jobs env' q st' = (Ok r, st') /\
    Page.pages r = Js.Fin (Z.of_nat n) /\
    job ∈ jobs_all_pages env' q st' n /\
    NoDup (jobs_all_pages env' q st' n).
Proof.
  intros Hrun Hs Hstatus Hsearch Htags.
  destruct (post_jobs_ok env body st st' job Hrun) as (Hjob & Hfree & Hst').
  assert (ensureSeed (faker env') st' = st') as Hseeded.
  { apply ensureSeed_seeded. rewrite Hst', seeded_set_jobs. apply seeded_ensureSeed. }
  destruct (jobs_all_pages_items env' q st' Hs) as (n & _ & Hpages & Hitems).
  rewrite Hseeded in Hitems.
  destruct (Hpages (jq_page q)) as (r & Hr & Hn). rewrite Hseeded in Hr.
  exists n, r. split_and!.
  - rewrite <- Hr. by destruct q.
  - exact Hn.
  - rewrite Hitems.
    assert (Spec.job_sorted (jq_sort q)
              (List.filter (Spec.job_selected q) (jobs_toArray st'))
            ≡ₚ List.filter (Spec.job_selected q) (jobs_toArray st')) as ->.
    { unfold Spec.job_sorted.
      destruct (String.eqb _ _); [apply sort_by_perm|].
      destruct (String.eqb _ _); [apply sort_by_perm|done]. }
    apply elem_of_List_filter. split.
    + apply elem_of_jobs_toArray. rewrite Hst'. simpl. apply lookup_insert_eq.
    + apply job_selected_iff. rewrite Hjob. simpl. split_and!; [|done|done].
      destruct Hstatus as [|Hact]; [by left|right]. by rewrite Hact.
  - rewrite Hitems.
    assert (Spec.job_sorted (jq_sort q)
              (List.filter (Spec.job_selected q) (jobs_toArray st'))
            ≡ₚ List.filter (Spec.job_selected q) (jobs_toArray st')) as ->.
    { unfold Spec.job_sorted.
      destruct (String.eqb _ _); [apply sort_by_perm|].
      destruct (String.eqb _ _); [apply sort_by_perm|done]. }
    apply NoDup_List_filter, jobs_toArray_NoDup.
Qed.

(** Create the job "Engineer", then list the active jobs that match
    "engineer". *)
Lemma created_job_is_listed_witness :
  let run := post_jobs Examples.env_pass JobExamples.engineer Examples.small in
  exists (job : Job.t) (n : nat),
    run.1 = Ok job /\
    job ∈ jobs_all_pages Examples.env_fail JobExamples.active_engineers run.2 n.
Proof.
  intros run.
  assert (exists job, run = (Ok job, run.2)) as [job Hrun] by (eexists; by vm_compute).
  destruct (created_job_is_listed Examples.env_pass Examples.env_fail
              JobExamples.engineer Examples.small run.2 job JobExamples.active_engineers)
    as (n & r & _ & _ & Hin & _).
  - exact Hrun.
  - simpl. lia.
  - by right.
  - right. left. by vm_compute.
  - by left.
  - exists job, n. split; [by rewrite Hrun|exact Hin].
Defined.

(** ** Slugs stay unique *)

(** X12: [POST /jobs] keeps the slugs of the Jobs table pairwise distinct,
    whatever its outcome, and answers 400 "Slug must be unique" with the
    store unchanged whenever a stored job has the slug of the body, the
    empty slug included, whatever the failure draw. *)
Theorem create_job_keeps_slugs_distinct (env : Env) (body : JobBody) (st : Store) :
  let st1 := ensureSeed (faker env) st in
  Spec.slugs_distinct (jobs st1) ->
  Spec.slugs_distinct (jobs (post_jobs env body st).2) /\
  ((exists k r, jobs st1 !! k = Some r /\ Job.r_slug r = b_slug body) ->
   post_jobs env body st = (Fail 400 "Slug must be unique", st1)).
Proof. intros st1 Hd. by apply post_jobs_slugs_distinct. Qed.

Lemma small_slugs_distinct : Spec.slugs_distinct (jobs Examples.small).
Proof.
  simpl. do 3 (apply slugs_distinct_insert_fresh;
    [|intros k' r H; rewrite ?lookup_insert_Some, ?lookup_empty in H;
      by destruct H as [[_ <-]|[_ [[_ <-]|[_ [[_ <-]|[_ ?]]]]]]
         || by destruct H as [[_ <-]|[_ [[_ <-]|[_ ?]]]]
         || by destruct H as [[_ <-]|[_ ?]]
         || done]).
  intros k1 k2 r1 r2 H1. by rewrite lookup_empty in H1.
Qed.

(** The slug "beta" is taken by job 2. *)
Lemma create_job_keeps_slugs_distinct_witness :
  let body := {| b_title := "Other"; b_slug := "beta"; b_tags := None |} in
  Spec.slugs_distinct (jobs Examples.small) /\
  post_jobs Examples.env_fail body Examples.small
  = (Fail 400 "Slug must be unique", Examples.small).
Proof.
  intros body. split; [apply small_slugs_distinct|].
  destruct (create_job_keeps_slugs_distinct Examples.env_fail body Examples.small)
    as [_ Hdup]; [apply small_slugs_distinct|].
  rewrite Hdup; [by rewrite ensureSeed_seeded|].
  exists 2, Examples.job_b. by vm_compute.
Defined.

(** X13: [PATCH /jobs/:id] keeps the slugs pairwise distinct, whatever its
    outcome, for a patch that carries no [id] and whose slug is absent or
    not the empty string; such a patch to the slug of another job is
    answered 400 with the store unchanged, and a patch to the job's own
    slug is not refused for it. *)
Theorem patch_job_keeps_slugs_distinct (env : Env) (id : Z) (patch : JobPatch) (st : Store) :
  let st1 := ensureSeed (faker env) st in
  p_id patch = None -> p_slug patch <> Some EmptyString ->
  Spec.slugs_distinct (jobs st1) ->
  Spec.slugs_distinct (jobs (patch_job env id patch st).2) /\
  (forall row s k r,
     jobs st1 !! id = Some row -> p_slug patch = Some s ->
     jobs st1 !! k = Some r -> k <> id -> Job.r_slug r = s ->
     patch_job env id patch st = (Fail 400 "Slug must be unique", st1)) /\
  (forall row, jobs st1 !! id = Some row -> p_slug patch = Some (Job.r_slug row) ->
     (patch_job env id patch st).1 <> Fail 400 "Slug must be unique").
Proof.
  intros st1 Hid Hslug Hd.
  destruct (patch_job_slugs_distinct env id patch st Hid Hslug Hd) as [H1 H2].
  split_and!; [exact H1|exact H2|].
  intros row Hrow Hown. unfold patch_job. cbv zeta. fold st1. rewrite Hrow.
  unfold patch_slug_taken. rewrite Hown. simpl. rewrite String.eqb_refl.
  rewrite andb_false_r. simpl. by destruct (Js.lt_draw _ _).
Qed.

(** Job 1 may not take the slug of job 2; job 2 may keep it. *)
Lemma patch_job_keeps_slugs_distinct_witness :
  p_id PatchExamples.slug_to_beta = None /\
  patch_job Examples.env_pass 1 PatchExamples.slug_to_beta Examples.small
  = (Fail 400 "Slug must be unique", Examples.small) /\
  (patch_job Examples.env_pass 2 PatchExamples.slug_to_beta Examples.small).1
  <> Fail 400 "Slug must be unique".
Proof.
  split; [done|].
  destruct (patch_job_keeps_slugs_distinct Examples.env_pass 1 PatchExamples.slug_to_beta
              Examples.small) as (_ & Hdup & _);
    [done|done|apply small_slugs_distinct|].
  destruct (patch_job_keeps_slugs_distinct Examples.env_pass 2 PatchExamples.slug_to_beta
              Examples.small) as (_ & _ & Hown);
    [done|done|apply small_slugs_distinct|].
  split.
  - rewrite (Hdup Examples.job_a "beta" 2 Examples.job_b); by vm_compute.
  - apply (Hown Examples.job_b); by vm_compute.
Defined.

(** ** Failed requests *)

(** X14: [POST /jobs], [PATCH /jobs/:id], [PATCH /jobs/:id/reorder],
    [POST /candidates] and [PUT /assessments/:jobId] write nothing when
    they fail: after a 4xx or 5xx answer, or an exception of the store,
    the store is the one the seeder left. *)
Theorem failed_request_leaves_store (env : Env) (st : Store) :
  let st1 := ensureSeed (faker env) st in
  (forall body, is_failure (post_jobs env body st).1 = true ->
                (post_jobs env body st).2 = st1) /\
  (forall id patch, is_failure (patch_job env id patch st).1 = true ->
                    (patch_job env id patch st).2 = st1) /\
  (forall id body, is_failure (reorder_job env id body st).1 = true ->
                   (reorder_job env id body st).2 = st1) /\
  (forall body, is_failure (post_candidates env body st).1 = true ->
                (post_candidates env body st).2 = st1) /\
  (forall jobId body, is_failure (put_assessment env jobId body st).1 = true ->
                      (put_assessment env jobId body st).2 = st1).
Proof.
  intros st1. split_and!.
  - intros body. apply post_jobs_failure.
  - intros id patch. apply patch_job_failure.
  - intros id body. apply reorder_job_failure.
  - intros body. apply post_candidates_failure.
  - intros jobId body. apply put_assessment_failure.
Qed.

(** ** What no request does *)

Lemma reindex_dom (l : list Job.t) (idx : nat) (t : gmap Z Job.row) :
  dom (reindex idx l t) = dom t.
Proof.
  revert idx t. induction l as [|j l IH]; intros idx t; simpl; [done|].
  rewrite IH. unfold Table.update. apply dom_alter_L.
Qed.

Lemma serve_step (env : Env) (req : Request) (st : Store) :
  let st1 := ensureSeed (faker env) st in
  let st' := (serve env req st).2 in
  timelines st1 `prefix_of` timelines st' /\
  assessmentResponses st1 `prefix_of` assessmentResponses st' /\
  dom (jobs st1) ⊆ dom (jobs st') /\
  dom (candidates st1) ⊆ dom (candidates st') /\
  dom (assessments st1) ⊆ dom (assessments st') /\
  meta st' = meta st1 /\
  (is_get req = true -> st' = st1).
Proof.
  intros st1 st'. unfold st'. destruct req; simpl.
  - by split_and!.
  - unfold post_jobs. cbv zeta. fold st1.
    destruct (slug_exists _ _); [by split_and!|].
    destruct (Js.lt_draw _ _); [by split_and!|].
    unfold Table.add. destruct (jobs st1 !! _); [by split_and!|]. simpl.
    split_and!; try done. rewrite dom_insert_L. set_solver.
  - unfold patch_job. cbv zeta. fold st1.
    destruct (jobs st1 !! id); [|by split_and!].
    destruct (patch_slug_taken _ _ _); [by split_and!|].
    destruct (Js.lt_draw _ _); [by split_and!|]. simpl.
    split_and!; try done. unfold Table.put. rewrite dom_insert_L. set_solver.
  - unfold reorder_job. cbv zeta. fold st1.
    destruct (Js.lt_draw _ _); [by split_and!|].
    destruct (find _ _); [|by split_and!]. simpl.
    split_and!; try done. by rewrite reindex_dom.
  - by split_and!.
  - unfold post_candidates. cbv zeta. fold st1.
    destruct (Js.lt_draw _ _); [by split_and!|].
    unfold Table.add. destruct (candidates st1 !! _); [by split_and!|]. simpl.
    split_and!; try done.
    + by apply prefix_app_r.
    + rewrite dom_insert_L. set_solver.
  - unfold patch_candidate. cbv zeta. fold st1.
    destruct (candidates st1 !! id); [|by split_and!].
    destruct (stage_changes _ _); destruct (Js.lt_draw _ _); simpl;
      split_and!; try done; try (by apply prefix_app_r);
      unfold Table.put; rewrite dom_insert_L; set_solver.
  - by split_and!.
  - unfold post_note. cbv zeta. fold st1.
    destruct note_ as [text|]; [|by split_and!].
    destruct (_ || _); [by split_and!|]. simpl.
    split_and!; try done. by apply prefix_app_r.
  - unfold get_assessment. cbv zeta. fold st1.
    destruct (assessments st1 !! jobId); by split_and!.
  - unfold put_assessment. cbv zeta. fold st1.
    destruct (Js.lt_draw _ _); [by split_and!|]. simpl.
    split_and!; try done. unfold Table.put. rewrite dom_insert_L. set_solver.
  - split_and!; try done. by apply prefix_app_r.
Qed.

Lemma serve_seeded (env : Env) (req : Request) (st : Store) :
  seeded (serve env req st).2 = true.
Proof.
  destruct (serve_step env req st) as (_ & _ & _ & _ & _ & Hmeta & _).
  unfold seeded. rewrite Hmeta. apply (seeded_ensureSeed (faker env) st).
Qed.

(** X15: no sequence of requests ever removes or rewrites what is stored
    in the append-only tables, or deletes a record: from a seeded store,
    the timeline events and the assessment responses before a session are
    a prefix of those after it, every job, candidate and assessment id is
    still present, and the store is still marked as seeded. *)
Theorem session_only_adds (reqs : list (Env * Request)) (st : Store) :
  seeded st = true ->
  let st' := serve_all reqs st in
  seeded st' = true /\
  timelines st `prefix_of` timelines st' /\
  assessmentResponses st `prefix_of` assessmentResponses st' /\
  dom (jobs st) ⊆ dom (jobs st') /\
  dom (candidates st) ⊆ dom (candidates st') /\
  dom (assessments st) ⊆ dom (assessments st').
Proof.
  revert st. induction reqs as [|[env req] reqs IH]; intros st Hs; simpl.
  - by split_and!.
  - destruct (serve_step env req st) as (Ht & Hr & Hj & Hc & Ha & _ & _).
    rewrite (ensureSeed_seeded _ _ Hs) in Ht, Hr, Hj, Hc, Ha.
    destruct (IH (serve env req st).2 (serve_seeded env req st))
      as (Hs' & Ht' & Hr' & Hj' & Hc' & Ha').
    split_and!; [done|by etrans..].
Qed.

Lemma session_only_adds_witness :
  seeded Examples.small = true /\
  timelines Examples.small
  `prefix_of` timelines (serve_all SessionExamples.session Examples.small).
Proof.
  split; [by vm_compute|].
  destruct (session_only_adds SessionExamples.session Examples.small) as (_ & Ht & _);
    [by vm_compute|exact Ht].
Defined.

(** X16: a GET request writes nothing: after [GET /jobs], [GET
    /candidates], [GET /candidates/:id/timeline] or [GET
    /assessments/:jobId] the store is the one the seeder left, which is
    the store itself once it is seeded. *)
Theorem get_requests_do_not_write (env : Env) (req : Request) (st : Store) :
  is_get req = true ->
  (serve env req st).2 = ensureSeed (faker env) st /\
  (seeded st = true -> (serve env req st).2 = st).
Proof.
  intros Hget.
  destruct (serve_step env req st) as (_ & _ & _ & _ & _ & _ & Hsame).
  split; [by apply Hsame|].
  intros Hs. rewrite Hsame by done. by apply ensureSeed_seeded.
Qed.

Lemma get_requests_do_not_write_witness :
  is_get (GetTimeline 1) = true /\
  (serve Examples.env_fail (GetTimeline 1) Examples.small).2 = Examples.small.
Proof.
  split; [done|].
  destruct (get_requests_do_not_write Examples.env_fail (GetTimeline 1) Examples.small)
    as [_ Hsame]; [done|].
  apply Hsame. by vm_compute.
Defined.

(** ** Notes *)

Lemma trimStart_empty (s : string) : trimStart s = EmptyString <-> all_ws s = true.
Proof.
  induction s as [|c s IH]; simpl; [done|].
  destruct (is_ws c); simpl; [done|]. split; discriminate.
Qed.

Lemma trimEnd_empty (s : string) : trimEnd s = EmptyString <-> all_ws s = true.
Proof.
  induction s as [|c s IH]; simpl; [done|].
  destruct (is_ws c); simpl.
  - destruct (String.eqb_spec (trimEnd s) EmptyString) as [Heq|Hne].
    + split; [intros _; by apply IH|done].
    + split; [discriminate|]. intros Hall. by apply IH in Hall.
  - split; discriminate.
Qed.

Lemma all_ws_trimStart (s : string) : all_ws (trimStart s) = all_ws s.
Proof.
  induction s as [|c s IH]; simpl; [done|].
  destruct (is_ws c) eqn:Hc; simpl; [done|]. by rewrite Hc.
Qed.

Lemma trim_empty (s : string) : trim s = EmptyString <-> all_ws s = true.
Proof. unfold trim. by rewrite trimEnd_empty, all_ws_trimStart. Qed.

Lemma post_note_cases (env : Env) (id : Z) (note_ : option string) (st : Store) :
  let st1 := ensureSeed (faker env) st in
  match note_ with
  | None => post_note env id note_ st = (Fail 400 "Note is required", st1)
  | Some text =>
      if all_ws text
      then post_note env id note_ st = (Fail 400 "Note is required", st1)
      else post_note env id note_ st
           = (Ok ok_true,
              add_timeline (Event.mk id note None None (Some text) (now env 0)) st1)
  end.
Proof.
  intros st1. destruct note_ as [text|]; [|done].
  unfold post_note. cbv zeta. fold st1.
  destruct (all_ws text) eqn:Hws.
  - apply trim_empty in Hws. rewrite Hws. simpl. by rewrite orb_true_r.
  - assert (String.eqb (trim text) EmptyString = false) as ->.
    { destruct (String.eqb_spec (trim text) EmptyString) as [Heq|]; [|done].
      apply trim_empty in Heq. congruence. }
    assert (truthy text = true) as ->; [|done].
    destruct (truthy text) eqn:Ht; [done|].
    apply truthy_false in Ht. by rewrite Ht in Hws.
Qed.


Lemma timeline_of_add (id : Z) (e : Event.t) (st : Store) :
  timeline_of id (add_timeline e st)
  ≡ₚ (if Event.candidateId e =? id then [e] else []) ++ timeline_of id st.
Proof.
  unfold timeline_of. rewrite !sort_by_perm. simpl.
  rewrite List.filter_app. simpl.
  destruct (Event.candidateId e =? id); simpl.
  - by rewrite <- Permutation_cons_append.
  - by rewrite app_nil_r.
Qed.

(** X18: after an accepted note, [GET /candidates/:id/timeline] of the
    same id answers with the events it answered before plus the note
    event, once, still sorted by [at]; the timelines of the other ids are
    as before. *)
Theorem note_shows_in_timeline (env env' : Env) (id : Z) (text : string) (st st' : Store) :
  post_note env id (Some text) st = (Ok ok_true, st') ->
  let st1 := ensureSeed (faker env) st in
  let e := Event.mk id note None None (Some text) (now env 0) in
  exists events,
    get_timeline env' id st' = (Ok events, st') /\
    events ≡ₚ e :: timeline_of id st1 /\
    Sorted (fun a b => Event.at_ a <= Event.at_ b) events /\
    (forall id', id' <> id -> timeline_of id' st' = timeline_of id' st1).
Proof.
  intros Hrun st1 e.
  pose proof (post_note_cases env id (Some text) st) as Hspec.
  cbv beta iota zeta in Hspec.
  fold st1 in Hspec. destruct (all_ws text); [by rewrite Hspec in Hrun|].
  rewrite Hspec in Hrun. injection Hrun as <-. fold e.
  assert (ensureSeed (faker env') (add_timeline e st1) = add_timeline e st1) as Hseeded.
  { apply ensureSeed_seeded. apply (seeded_ensureSeed (faker env) st). }
  exists (timeline_of id (add_timeline e st1)). split_and!.
  - unfold get_timeline. cbv zeta. by rewrite Hseeded.
  - rewrite timeline_of_add. simpl. by rewrite Z.eqb_refl.
  - eapply Sorted_weaken; [|apply (sort_by_sorted at_le at_le_total)].
    intros a b Hab. by apply Z.leb_le.
  - intros id' Hne. unfold timeline_of. simpl. rewrite List.filter_app. simpl.
    destruct (Z.eqb_spec id id'); [congruence|]. by rewrite app_nil_r.
Qed.

(** A note on candidate 1. *)
Lemma note_shows_in_timeline_witness :
  let st' := (post_note Examples.env_pass 1 (Some "called back") Examples.small).2 in
  exists events,
    get_timeline Examples.env_fail 1 st' = (Ok events, st') /\
    length events = 2%nat.
Proof.
  intros st'.
  destruct (note_shows_in_timeline Examples.env_pass Examples.env_fail 1 "called back"
              Examples.small st') as (events & Hget & Hperm & _); [by vm_compute|].
  exists events. split; [exact Hget|]. by rewrite Hperm.
Defined.

(** ** Creating a candidate *)

(** X19: when the failure draw passes and the candidate ids are 1, ..., n,
    [POST /candidates] answers with the new candidate and stores it under
    the id n+1: stage [applied], job, name and email of the body; and it
    appends exactly one timeline event for it, [{type: stage_change, from:
    null, to: applied}], so that the timeline of the new candidate starts
    with this event. No other candidate changes. *)
Theorem post_candidates_created (env : Env) (body : CandidateBody) (st : Store) :
  let st1 := ensureSeed (faker env) st in
  Js.lt_draw (rnd env) (8 # 100) = false ->
  ids_dense (candidates st1) ->
  let id := Z.of_nat (size (candidates st1)) + 1 in
  let cand := Candidate.mk id (cb_jobId body) (cb_name body) (cb_email body) applied
                           (now env 0) (now env 1) in
  let e := Event.mk id stage_change None (Some applied) None (now env 2) in
  exists st',
    post_candidates env body st = (Ok cand, st') /\
    candidates st' = <[id := Candidate.to_row cand]> (candidates st1) /\
    candidates st1 !! id = None /\
    timelines st' = timelines st1 ++ [e] /\
    jobs st' = jobs st1 /\
    timeline_of id st' ≡ₚ e :: timeline_of id st1.
Proof.
  intros st1 Hdraw Hdense id cand e.
  pose proof (ids_dense_fresh _ Hdense) as Hfree. fold id in Hfree.
  eexists. split_and!.
  - unfold post_candidates. cbv zeta. fold st1. rewrite Hdraw.
    unfold Table.add, Table.count. simpl. fold id. rewrite Hfree. reflexivity.
  - done.
  - done.
  - done.
  - done.
  - change (timeline_of id (add_timeline e (set_candidates
              (<[id:=Candidate.to_row cand]> (candidates st1)) st1))
            ≡ₚ e :: timeline_of id st1).
    rewrite timeline_of_add. simpl. rewrite Z.eqb_refl. done.
Qed.

Lemma post_candidates_created_witness :
  let body := {| cb_jobId := Some 2; cb_name := "Bo Lee"; cb_email := "bo@example.com" |} in
  let run := post_candidates Examples.env_pass body Examples.small in
  is_failure run.1 = false /\
  Candidate.r_stage <$> candidates run.2 !! 2 = Some applied /\
  length (timelines run.2) = 2%nat.
Proof.
  intros body run. split; [by vm_compute|].
  destruct (post_candidates_created Examples.env_pass body Examples.small)
    as (st' & Hrun & Hc & _ & Ht & _);
    [by vm_compute|apply ids_dense_small_candidates|].
  unfold run. rewrite Hrun. simpl. rewrite Hc, Ht. split; [|done].
  replace (Z.of_nat (size (candidates (ensureSeed (faker Examples.env_pass) Examples.small))) + 1)
    with 2 by by vm_compute.
  by rewrite lookup_insert_eq.
Defined.

(** ** Assessments *)

(** X20: [PUT /assessments/:jobId] is an upsert under the job id. When
    the failure draw passes, a later [GET /assessments/:jobId] answers
    with the title and the sections that were put, with [id] and [jobId]
    both the job id of the path whatever the body said; the assessments of
    the other jobs are untouched; and the table holds one assessment more
    only if the job had none, so never two for one job. *)
Theorem put_then_get_assessment (env env' : Env) (jobId : Z) (body : Assessment.t)
    (st : Store) :
  Js.lt_draw (rnd env) (8 # 100) = false ->
  let st1 := ensureSeed (faker env) st in
  let st' := (put_assessment env jobId body st).2 in
  (put_assessment env jobId body st).1 = Ok ok_true /\
  get_assessment env' jobId st'
  = (Ok {| Assessment.id := jobId; Assessment.jobId := jobId;
           Assessment.title := Assessment.title body;
           Assessment.sections := Assessment.sections body;
           Assessment.updatedAt := now env 0 |}, st') /\
  (forall k, k <> jobId -> assessments st' !! k = assessments st1 !! k) /\
  size (assessments st')
  = match assessments st1 !! jobId with
    | Some _ => size (assessments st1)
    | None => S (size (assessments st1))
    end.
Proof.
  intros Hdraw st1 st'. unfold st', put_assessment. cbv zeta. fold st1.
  rewrite Hdraw. simpl. split_and!.
  - done.
  - unfold get_assessment. cbv zeta.
    rewrite ensureSeed_seeded by apply (seeded_ensureSeed (faker env) st).
    simpl. unfold Table.put. by rewrite lookup_insert_eq.
  - intros k Hne. unfold Table.put. by rewrite lookup_insert_ne.
  - unfold Table.put. destruct (assessments st1 !! jobId) eqn:Hold.
    + rewrite map_size_insert_Some; [done|eauto].
    + by rewrite map_size_insert_None.
Qed.

Lemma put_then_get_assessment_witness :
  let st' := (put_assessment Examples.env_pass 2 AssessmentExamples.quiz Examples.small).2 in
  Js.lt_draw (rnd Examples.env_pass) (8 # 100) = false /\
  Assessment.id <$> (match (get_assessment Examples.env_fail 2 st').1 with
                     | Ok a => Some a
                     | _ => None
                     end) = Some 2.
Proof.
  intros st'. split; [by vm_compute|].
  destruct (put_then_get_assessment Examples.env_pass Examples.env_fail 2
              AssessmentExamples.quiz Examples.small) as (_ & Hget & _); [by vm_compute|].
  fold st' in Hget. by rewrite Hget.
Defined.

(** ** The seeded store *)

Lemma bulkPut_list_to_map {R} (objs : list (Z * R)) (t : gmap Z R) :
  NoDup objs.*1 -> Table.bulkPut objs t = list_to_map objs ∪ t.
Proof.
  revert t. induction objs as [|[k r] objs IH]; intros t Hnd; simpl.
  - by rewrite (left_id_L ∅ (∪)).
  - simpl in Hnd. apply NoDup_cons in Hnd as [Hk Hnd].
    unfold Table.bulkPut in *. simpl. rewrite IH by done. unfold Table.put.
    rewrite <- insert_union_l. symmetry. apply insert_union_r.
    by apply not_elem_of_list_to_map_1.
Qed.

Lemma entries_list_to_map {R} (objs : list (Z * R)) :
  Sorted (fun a b => a.1 <= b.1) objs -> NoDup objs.*1 ->
  Table.entries (list_to_map objs : gmap Z R) = objs.
Proof.
  intros Hs Hnd. symmetry. apply (sorted_by_key_unique fst); [done| |done|].
  - eapply Sorted_weaken; [|apply (sort_by_sorted Table.key_le)].
    + intros a b Hab. by apply Z.leb_le.
    + intros a b. unfold Table.key_le.
      destruct (Z.leb_spec a.1 b.1); [by left|right]. apply Z.leb_le. lia.
  - rewrite entries_perm. symmetry. by apply map_to_list_to_map.
Qed.

Lemma Sorted_map_seq {A} (key : A -> Z) (f : nat -> A) (start n : nat) :
  (forall i, key (f i) = Z.of_nat i + 1) ->
  Sorted (fun a b => key a <= key b) (map f (seq start n)).
Proof.
  intros Hkey. revert start. induction n as [|n IH]; intros start; simpl; [constructor|].
  constructor; [apply IH|].
  destruct n; simpl; constructor. rewrite !Hkey. lia.
Qed.

Lemma seeded_jobs_table (d : SeedDraws) :
  jobs (ensureSeed d empty_store)
  = list_to_map (map (fun j => (Job.id j, Job.to_row j)) (Seed.jobs d)).
Proof.
  unfold ensureSeed. replace (seeded empty_store) with false by by vm_compute.
  cbn [jobs empty_store]. rewrite bulkPut_list_to_map.
  - by rewrite (right_id_L ∅ (∪)).
  - unfold Seed.jobs. rewrite keys_of_map. apply NoDup_succ_keys.
Qed.

Lemma seeded_candidates_table (d : SeedDraws) :
  candidates (ensureSeed d empty_store)
  = list_to_map (map (fun c => (Candidate.id c, Candidate.to_row c)) (Seed.candidates d)).
Proof.
  unfold ensureSeed. replace (seeded empty_store) with false by by vm_compute.
  cbn [candidates empty_store]. rewrite bulkPut_list_to_map.
  - by rewrite (right_id_L ∅ (∪)).
  - unfold Seed.candidates. rewrite keys_of_map. apply NoDup_succ_keys.
Qed.

Lemma seeded_jobs_toArray (d : SeedDraws) :
  jobs_toArray (ensureSeed d empty_store) = Seed.jobs d.
Proof.
  unfold jobs_toArray. rewrite seeded_jobs_table, entries_list_to_map.
  - rewrite map_map. transitivity (map (fun j => j) (Seed.jobs d)); [|apply map_id].
    apply map_ext. intros j. apply Job_of_to_row.
  - unfold Seed.jobs. rewrite map_map. by apply (Sorted_map_seq fst).
  - unfold Seed.jobs. rewrite keys_of_map. apply NoDup_succ_keys.
Qed.

Lemma seeded_candidates_toArray (d : SeedDraws) :
  candidates_toArray (ensureSeed d empty_store) = Seed.candidates d.
Proof.
  unfold candidates_toArray. rewrite seeded_candidates_table, entries_list_to_map.
  - rewrite map_map. transitivity (map (fun c => c) (Seed.candidates d)); [|apply map_id].
    apply map_ext. intros c. apply Candidate_of_to_row.
  - unfold Seed.candidates. rewrite map_map. by apply (Sorted_map_seq fst).
  - unfold Seed.candidates. rewrite keys_of_map. apply NoDup_succ_keys.
Qed.

Lemma ids_dense_of_seq {R} (t : gmap Z R) (n : nat) :
  dom t = list_to_set (map (fun i => Z.of_nat i + 1) (seq 0 n)) ->
  size t = n -> ids_dense t.
Proof.
  intros Hdom Hsize k. rewrite <- elem_of_dom, Hdom, Hsize.
  rewrite elem_of_list_to_set, list_elem_of_fmap. split.
  - intros (i & -> & Hi). apply elem_of_seq in Hi. lia.
  - intros Hk. exists (Z.to_nat (k - 1)). split; [lia|]. apply elem_of_seq. lia.
Qed.

Lemma seeded_jobs_sorted (d : SeedDraws) :
  Sorted (fun a b => order_le a b = true) (Seed.jobs d).
Proof.
  unfold Seed.jobs.
  eapply Sorted_weaken; [|apply (Sorted_map_seq (fun j => Job.order j + 1) (Seed.job d) 0 25)].
  - intros a b Hab. apply Z.leb_le. cbv beta in Hab. lia.
  - intros i. reflexivity.
Qed.

Lemma seeded_listing (d : SeedDraws) :
  jobs_orderBy_order (ensureSeed d empty_store) = Seed.jobs d.
Proof.
  unfold jobs_orderBy_order. rewrite seeded_jobs_toArray.
  apply sort_by_sorted_id, seeded_jobs_sorted.
Qed.

Lemma seeded_jobs_ids_dense (d : SeedDraws) : ids_dense (jobs (ensureSeed d empty_store)).
Proof.
  apply (ids_dense_of_seq _ 25); [|apply seeded_jobs_size].
  rewrite seeded_jobs_table, dom_list_to_map_L.
  unfold Seed.jobs. by rewrite keys_of_map.
Qed.

Lemma seeded_candidates_ids_dense (d : SeedDraws) :
  ids_dense (candidates (ensureSeed d empty_store)).
Proof.
  apply (ids_dense_of_seq _ 1000); [|apply seeded_candidates_size].
  rewrite seeded_candidates_table, dom_list_to_map_L.
  unfold Seed.candidates. by rewrite keys_of_map.
Qed.

Lemma seeded_orders_dense (d : SeedDraws) : orders_dense (ensureSeed d empty_store).
Proof.
  unfold orders_dense. rewrite seeded_listing, seeded_jobs_size.
  unfold Seed.jobs. by rewrite map_map.
Qed.

(** X21: the first seeding of an empty store is read back as generated:
    [db.jobs.toArray()] is the list of the 25 generated jobs, in the order
    of generation, and so is the listing by [order];
    [db.candidates.toArray()] is the list of the 1000 generated
    candidates. Hence the job ids are 1..25 with the orders 0..24, and the
    candidate ids are 1..1000. *)
Theorem seeded_tables_read_back (d : SeedDraws) :
  let st := ensureSeed d empty_store in
  jobs_toArray st = Seed.jobs d /\
  jobs_orderBy_order st = Seed.jobs d /\
  candidates_toArray st = Seed.candidates d /\
  map Job.id (jobs_toArray st) = map (fun i => Z.of_nat i + 1) (seq 0 25) /\
  ids_dense (jobs st) /\ orders_dense st /\ ids_dense (candidates st).
Proof.
  intros st. unfold st. split_and!.
  - apply seeded_jobs_toArray.
  - apply seeded_listing.
  - apply seeded_candidates_toArray.
  - rewrite seeded_jobs_toArray. unfold Seed.jobs. by rewrite map_map.
  - apply seeded_jobs_ids_dense.
  - apply seeded_orders_dense.
  - apply seeded_candidates_ids_dense.
Qed.

Lemma has_dash_app (s d : string) : has_dash (s +:+ String "-" d) = true.
Proof.
  induction s as [|c s IH]; simpl; [done|]. by rewrite IH, orb_true_r.
Qed.

Lemma after_last_dash_app (s d : string) :
  has_dash d = false -> after_last_dash (s +:+ String "-" d) = d.
Proof.
  intros Hd. induction s as [|c s IH]; simpl.
  - by rewrite Hd.
  - by rewrite has_dash_app.
Qed.

Lemma seed_suffix_no_dash (i : nat) :
  (i < 25)%nat -> has_dash (pretty (Z.of_nat i + 1)) = false.
Proof.
  intros Hi.
  assert (forallb (fun i => negb (has_dash (pretty (Z.of_nat i + 1)))) (seq 0 25) = true)
    as Hall by by vm_compute.
  rewrite forallb_forall in Hall. apply negb_true_iff, Hall, in_seq. lia.
Qed.

Lemma seeded_job_lookup (d : SeedDraws) (k : Z) (r : Job.row) :
  jobs (ensureSeed d empty_store) !! k = Some r ->
  exists i, (i < 25)%nat /\ k = Z.of_nat i + 1 /\ r = Job.to_row (Seed.job d i).
Proof.
  rewrite seeded_jobs_table. intros Hk.
  apply elem_of_list_to_map_2 in Hk.
  apply list_elem_of_fmap in Hk as (j & Heq & Hj).
  unfold Seed.jobs in Hj. apply list_elem_of_fmap in Hj as (i & -> & Hi).
  apply elem_of_seq in Hi. exists i. split; [lia|]. by injection Heq as -> ->.
Qed.

(** X22: the 25 seeded jobs have pairwise distinct slugs, whatever titles
    the faker draws (equal titles included): the slug ends in a dash and
    the decimal id of the job. *)
Theorem seeded_slugs_distinct (d : SeedDraws) :
  Spec.slugs_distinct (jobs (ensureSeed d empty_store)) /\
  (forall k r, jobs (ensureSeed d empty_store) !! k = Some r ->
     exists base, Job.r_slug r = base +:+ "-" +:+ pretty k).
Proof.
  split.
  - intros k1 k2 r1 r2 H1 H2 Heq.
    apply seeded_job_lookup in H1 as (i1 & Hi1 & -> & ->).
    apply seeded_job_lookup in H2 as (i2 & Hi2 & -> & ->).
    change (Seed.slugBase (job_title d i1) +:+ String "-" (pretty (Z.of_nat i1 + 1))
            = Seed.slugBase (job_title d i2) +:+ String "-" (pretty (Z.of_nat i2 + 1)))
      in Heq.
    apply (f_equal after_last_dash) in Heq.
    rewrite !after_last_dash_app in Heq by by apply seed_suffix_no_dash.
    by apply (inj pretty) in Heq.
  - intros k r Hk. apply seeded_job_lookup in Hk as (i & _ & -> & ->).
    by eexists.
Qed.

(** ** The seeded timelines *)

Lemma half_day (a : Z) : a * 86400000 / 2 = a * 43200000.
Proof. replace (a * 86400000) with (a * 43200000 * 2) by lia. by apply Z.div_mul. Qed.

Lemma hop_events_spec (d : SeedDraws) (ci : nat) (c : Candidate.t) (n h : nat)
    (current : CandidateStage) :
  let es := Seed.hop_events d ci c h n current in
  length es = n /\
  chained (Some current) es /\
  (forall k e, es !! k = Some e ->
     Event.candidateId e = Candidate.id c /\ Event.type e = stage_change /\
     Event.note e = None /\
     Event.at_ e = Candidate.createdAt c + (Z.of_nat (h + k) + 1) * 43200000).
Proof.
  revert h current. induction n as [|n IH]; intros h current; simpl.
  - split_and!; [done|done|]. intros k e Hk. by rewrite lookup_nil in Hk.
  - destruct (IH (S h) (Seed.arrayElement applied STAGES (hop_stage d ci h)))
      as (Hlen & Hchain & Hev).
    split_and!; [by rewrite Hlen|done|done|].
    intros [|k] e Hk; simpl in Hk.
    + injection Hk as <-. simpl. rewrite half_day, Nat.add_0_r. done.
    + destruct (Hev k e Hk) as (H1 & H2 & H3 & H4).
      split_and!; [done..|]. rewrite H4. do 2 f_equal. lia.
Qed.

Lemma candidate_events_sorted (d : SeedDraws) (ci : nat) (c : Candidate.t) :
  Sorted (fun a b => at_le a b = true) (Seed.candidate_events d ci c).
Proof.
  unfold Seed.candidate_events.
  destruct (hop_events_spec d ci c (cand_hops d ci) 0 applied) as (_ & _ & Hev).
  cbv zeta in Hev.
  set (es := Seed.hop_events d ci c 0 (cand_hops d ci) applied) in *.
  assert (forall k e, es !! k = Some e ->
            Event.at_ e = Candidate.createdAt c + (Z.of_nat k + 1) * 43200000) as Hat.
  { intros k e Hk. by destruct (Hev k e Hk) as (_ & _ & _ & ->). }
  clearbody es. clear Hev.
  assert (forall (base : Z) (off : nat) (l : list Event.t),
            (forall k e, l !! k = Some e ->
               Event.at_ e = base + (Z.of_nat (off + k) + 1) * 43200000) ->
            Sorted (fun a b => at_le a b = true) l) as Hgen.
  { clear. intros base off l. revert off. induction l as [|e l IH]; intros off Hl; [constructor|].
    constructor.
    - apply (IH (S off)). intros k e' Hk. rewrite (Hl (S k) e' Hk). do 3 f_equal. lia.
    - destruct l as [|e' l]; constructor. unfold at_le. apply Z.leb_le.
      rewrite (Hl 0%nat e eq_refl), (Hl 1%nat e' eq_refl). lia. }
  constructor; [by apply (Hgen (Candidate.createdAt c) 0%nat)|].
  destruct es as [|e es]; constructor. unfold at_le. apply Z.leb_le. simpl.
  rewrite (Hat 0%nat e eq_refl). lia.
Qed.

Lemma imap_map_seq {A B} (f : nat -> A -> B) (g : nat -> A) (start n : nat) :
  imap (fun i => f (start + i)%nat) (map g (seq start n))
  = map (fun j => f j (g j)) (seq start n).
Proof.
  revert start f. induction n as [|n IH]; intros start f; simpl; [done|].
  rewrite Nat.add_0_r. f_equal.
  rewrite <- (IH (S start)). apply imap_ext. intros i x _. simpl.
  by replace (start + S i)%nat with (S (start + i)) by lia.
Qed.

Lemma filter_concat_blocks {E} (cid : E -> Z) (blk : nat -> list E) (n i : nat) :
  (forall j e, e ∈ blk j -> cid e = Z.of_nat j + 1) ->
  List.filter (fun e => cid e =? Z.of_nat i + 1) (concat (map blk (seq 0 n)))
  = if decide (i < n)%nat then blk i else [].
Proof.
  intros Hblk. induction n as [|n IH]; [done|].
  rewrite seq_S, map_app, concat_app, List.filter_app, IH. simpl. rewrite app_nil_r.
  assert (forall j, List.filter (fun e => cid e =? Z.of_nat i + 1) (blk j)
                    = if decide (j = i) then blk j else []) as Hone.
  { intros j. destruct (decide (j = i)) as [->|Hj].
    - rewrite <- (filter_true (blk i)) at 2. apply filter_ext_in.
      intros e He. apply list_elem_of_In, Hblk in He. by apply Z.eqb_eq.
    - transitivity (List.filter (fun _ : E => false) (blk j)).
      + apply filter_ext_in. intros e He. apply list_elem_of_In, Hblk in He.
        apply Z.eqb_neq. lia.
      + clear. by induction (blk j). }
  rewrite Hone. destruct (decide (n = i)) as [->|Hne];
    repeat case_decide; try lia; by rewrite ?app_nil_r.
Qed.

(** X23: on a freshly seeded store [GET /candidates/:id/timeline] of the
    seeded candidate number i answers with its generated history, in the
    order of generation: first [{from: null, to: applied}] at the
    candidate's [createdAt], then one stage change per drawn hop, half a
    day apart, each starting from the stage the one before it reached. *)
Theorem seeded_timeline (env : Env) (i : nat) :
  (i < 1000)%nat ->
  let st := ensureSeed (faker env) empty_store in
  let c := Seed.candidate (faker env) i in
  exists events,
    get_timeline env (Candidate.id c) empty_store = (Ok events, st) /\
    events = Seed.candidate_events (faker env) i c /\
    length events = S (cand_hops (faker env) i) /\
    chained None events /\
    head events = Some (Event.mk (Candidate.id c) stage_change None (Some applied) None
                                 (Candidate.createdAt c)) /\
    (forall k e, events !! S k = Some e ->
       Event.type e = stage_change /\
       Event.at_ e = Candidate.createdAt c + (Z.of_nat k + 1) * 43200000).
Proof.
  intros Hi st c. set (d := faker env) in *.
  exists (timeline_of (Candidate.id c) st).
  assert (timeline_of (Candidate.id c) st = Seed.candidate_events d i c) as Heq.
  { unfold timeline_of.
    assert (timelines st = concat (map (fun j => Seed.candidate_events d j (Seed.candidate d j))
                                       (seq 0 1000))) as ->.
    { unfold st, ensureSeed. replace (seeded empty_store) with false by by vm_compute.
      cbn [timelines empty_store app]. unfold Seed.timelineEvents, Seed.candidates.
      exact (f_equal (@concat Event.t)
               (imap_map_seq (Seed.candidate_events d) (Seed.candidate d) 0 1000)). }
    change (Candidate.id c) with (Z.of_nat i + 1).
    rewrite (filter_concat_blocks Event.candidateId).
    - case_decide; [|lia]. apply sort_by_sorted_id, candidate_events_sorted.
    - intros j e He. unfold Seed.candidate_events in He.
      apply elem_of_cons in He as [->|He]; [done|].
      apply list_elem_of_lookup in He as [k Hk].
      by destruct (hop_events_spec d j (Seed.candidate d j) (cand_hops d j) 0 applied)
        as (_ & _ & Hev); destruct (Hev k e Hk) as (-> & _). }
  destruct (hop_events_spec d i c (cand_hops d i) 0 applied) as (Hlen & Hchain & Hev).
  cbv zeta in Hlen, Hchain, Hev.
  split_and!.
  - done.
  - exact Heq.
  - rewrite Heq. unfold Seed.candidate_events. simpl. by rewrite Hlen.
  - rewrite Heq. unfold Seed.candidate_events. simpl. done.
  - by rewrite Heq.
  - intros k e Hk. rewrite Heq in Hk. unfold Seed.candidate_events in Hk. simpl in Hk.
    destruct (Hev k e Hk) as (_ & Ht & _ & Hat). split; [done|]. by rewrite Hat.
Qed.

(** The first seeded candidate, with the one hop of the example faker. *)
Lemma seeded_timeline_witness :
  (0 < 1000)%nat /\
  exists events,
    get_timeline Examples.env_pass 1 empty_store
    = (Ok events, ensureSeed Examples.draws empty_store) /\
    length events = 2%nat.
Proof.
  split; [lia|].
  destruct (seeded_timeline Examples.env_pass 0) as (events & Hget & _ & Hlen & _); [lia|].
  exists events. split; [exact Hget|exact Hlen].
Defined.

(** ** The seeded candidates *)

Lemma lower_ascii_idem (c : ascii) : Js.lower_ascii (Js.lower_ascii c) = Js.lower_ascii c.
Proof. by destruct c as [[] [] [] [] [] [] [] []]. Qed.

Lemma toLowerCase_idem (s : string) : Js.toLowerCase (Js.toLowerCase s) = Js.toLowerCase s.
Proof. induction s as [|c s IH]; simpl; [done|]. by rewrite lower_ascii_idem, IH. Qed.

Lemma seeded_candidate_lookup (d : SeedDraws) (i : nat) :
  (i < 1000)%nat ->
  candidates (ensureSeed d empty_store) !! (Z.of_nat i + 1)
  = Some (Candidate.to_row (Seed.candidate d i)).
Proof.
  intros Hi. rewrite seeded_candidates_table.
  apply elem_of_list_to_map_1.
  - unfold Seed.candidates. rewrite keys_of_map. apply NoDup_succ_keys.
  - apply list_elem_of_fmap. exists (Seed.candidate d i). split; [done|].
    unfold Seed.candidates. apply list_elem_of_fmap. exists i. split; [done|].
    apply elem_of_seq. lia.
Qed.

Lemma arrayElement_jobs (d : SeedDraws) (k : nat) :
  Seed.arrayElement (Seed.job d 0) (Seed.jobs d) k = Seed.job d (k mod 25).
Proof.
  unfold Seed.arrayElement, Seed.jobs. rewrite length_map, length_seq.
  assert (k mod 25 < 25)%nat as Hlt by (apply Nat.mod_upper_bound; lia).
  rewrite (map_nth (Seed.job d) (seq 0 25) 0%nat). by rewrite seq_nth.
Qed.

(** X24: a seeded candidate is stored under its number, and its [jobId],
    when it has one, is the id of a stored job (between 1 and 25): the
    seeder leaves no dangling job reference. Its email is stored in lower
    case and its [updatedAt] is the time of the seeding. *)
Theorem seeded_candidate_refs (d : SeedDraws) (i : nat) :
  (i < 1000)%nat ->
  let st := ensureSeed d empty_store in
  exists row,
    candidates st !! (Z.of_nat i + 1) = Some row /\
    (forall j, Candidate.r_jobId row = Some j -> 1 <= j <= 25 /\ is_Some (jobs st !! j)) /\
    Js.toLowerCase (Candidate.r_email row) = Candidate.r_email row /\
    Candidate.r_updatedAt row = seed_now d.
Proof.
  intros Hi st. exists (Candidate.to_row (Seed.candidate d i)). split_and!.
  - by apply seeded_candidate_lookup.
  - intros j Hj. simpl in Hj.
    destruct (Js.lt_draw _ _); [|done]. injection Hj as <-.
    rewrite arrayElement_jobs. simpl.
    assert (cand_job d i mod 25 < 25)%nat as Hlt by (apply Nat.mod_upper_bound; lia).
    split; [lia|]. apply seeded_jobs_ids_dense. rewrite seeded_jobs_size. lia.
  - simpl. apply toLowerCase_idem.
  - done.
Qed.

Lemma seeded_candidate_refs_witness :
  (7 < 1000)%nat /\
  exists row,
    candidates (ensureSeed Examples.draws empty_store) !! 8 = Some row /\
    (forall j, Candidate.r_jobId row = Some j -> 1 <= j <= 25).
Proof.
  split; [lia|].
  destruct (seeded_candidate_refs Examples.draws 7) as (row & Hrow & Hrefs & _); [lia|].
  exists row. split; [exact Hrow|]. intros j Hj. by destruct (Hrefs j Hj).
Defined.

(** ** The seeded assessments *)

Lemma seeded_section (d : SeedDraws) (idx sidx : nat) :
  seeded_section_shape (Seed.section d idx sidx).
Proof.
  exists (Seed.question d idx sidx 0),
         (map (Seed.question d idx sidx) (seq 1 4)),
         (Seed.conditional d idx sidx (Seed.question d idx sidx 0)).
  split_and!; [done|done| |done|done|done].
  repeat constructor.
Qed.

Lemma seeded_assessments_table (d : SeedDraws) :
  assessments (ensureSeed d empty_store)
  = list_to_map (map (fun a => (Assessment.id a, Assessment.to_row a)) (Seed.assessments d)).
Proof.
  unfold ensureSeed. replace (seeded empty_store) with false by by vm_compute.
  cbn [assessments empty_store]. rewrite bulkPut_list_to_map.
  - by rewrite (right_id_L ∅ (∪)).
  - apply (NoDup_succ_keys 3).
Qed.

(** X25: on a freshly seeded store [GET /assessments/:jobId] answers for
    the jobs 1, 2 and 3 with the generated assessment, titled after the
    job, with 2, 3 and 2 sections; every section has six questions, the
    sixth being shown only if the first has a given answer, so its
    [showIf.questionId] is the id of a question of the same section. For
    every other job id the answer is 404. *)
Theorem seeded_assessments_spec (env : Env) (idx : nat) :
  (idx < 3)%nat ->
  let d := faker env in
  let st := ensureSeed d empty_store in
  let a := Seed.assessment d idx (Seed.job d idx) in
  get_assessment env (Z.of_nat idx + 1) empty_store = (Ok a, st) /\
  Assessment.title a = job_title d idx +:+ " Assessment" /\
  length (Assessment.sections a) = (2 + idx mod 2)%nat /\
  Forall (fun s => length (Section_.questions s) = 6%nat /\ seeded_section_shape s)
         (Assessment.sections a) /\
  (forall k, ~ 1 <= k <= 3 ->
     get_assessment env k empty_store = (Fail 404 "Not found", st)).
Proof.
  intros Hidx d st a. split_and!.
  - unfold get_assessment. cbv zeta. fold d st.
    assert (assessments st !! (Z.of_nat idx + 1) = Some (Assessment.to_row a)) as ->.
    { unfold st. rewrite seeded_assessments_table. apply elem_of_list_to_map_1.
      - apply (NoDup_succ_keys 3).
      - destruct idx as [|[|[|idx]]]; [| | |lia];
          unfold a; simpl; rewrite !elem_of_cons; auto. }
    done.
  - done.
  - unfold a, Seed.assessment. cbn [Assessment.sections].
    by rewrite length_map, length_seq.
  - unfold a, Seed.assessment. cbn [Assessment.sections].
    apply Forall_forall. intros s Hs.
    apply list_elem_of_fmap in Hs as (sidx & -> & _).
    split; [done|apply seeded_section].
  - intros k Hk. unfold get_assessment. cbv zeta. fold d st.
    assert (assessments st !! k = None) as ->; [|done].
    unfold st. rewrite seeded_assessments_table. apply not_elem_of_list_to_map_1.
    change (k ∉ [1; 2; 3]). rewrite !not_elem_of_cons. split_and!; [lia..|].
    apply not_elem_of_nil.
Qed.

Lemma seeded_assessments_spec_witness :
  (1 < 3)%nat /\
  exists a,
    get_assessment Examples.env_pass 2 empty_store
    = (Ok a, ensureSeed Examples.draws empty_store) /\
    Assessment.title a = "QA Lead Assessment" /\
    length (Assessment.sections a) = 3%nat.
Proof.
  split; [lia|].
  destruct (seeded_assessments_spec Examples.env_pass 1) as (Hget & Ht & Hlen & _); [lia|].
  eexists. split; [exact Hget|]. split; [exact Ht|exact Hlen].
Defined.

(** ** The shape of the store is kept *)

Lemma ids_dense_dom {R} (t t' : gmap Z R) :
  dom t' = dom t -> ids_dense t -> ids_dense t'.
Proof.
  intros Hdom Hd k.
  assert (size t' = size t) as -> by (by rewrite <- !size_dom, Hdom).
  rewrite <- elem_of_dom, Hdom, elem_of_dom. apply Hd.
Qed.

Lemma ids_dense_replace {R} (t : gmap Z R) (k : Z) (r : R) :
  is_Some (t !! k) -> ids_dense t -> ids_dense (<[k := r]> t).
Proof.
  intros Hk. apply ids_dense_dom. rewrite dom_insert_L.
  apply elem_of_dom in Hk. set_solver.
Qed.

Lemma Sorted_seq_Z (start n : nat) : Sorted Z.le (map Z.of_nat (seq start n)).
Proof.
  revert start. induction n as [|n IH]; intros start; simpl; [constructor|].
  constructor; [apply IH|]. destruct n; simpl; [constructor|]. constructor. lia.
Qed.

Lemma orders_dense_perm (st : Store) :
  orders_dense st <->
  map Job.order (jobs_toArray st) ≡ₚ map Z.of_nat (seq 0 (size (jobs st))).
Proof.
  unfold orders_dense. split.
  - intros <-. by rewrite orderBy_order_perm.
  - intros Hperm. apply (Sorted_unique Z.le).
    + change (Sorted Z.le (Job.order <$> jobs_orderBy_order st)).
      apply (Sorted_fmap Job.order (fun a b => Job.order a <= Job.order b) Z.le);
        [done|apply orderBy_order_sorted_le].
    + apply Sorted_seq_Z.
    + by rewrite orderBy_order_perm.
Qed.

Lemma jobs_toArray_replace (st : Store) (id : Z) (row row' : Job.row) :
  jobs st !! id = Some row ->
  exists rest,
    jobs_toArray st ≡ₚ Job.of_row id row :: rest /\
    jobs_toArray (set_jobs (<[id := row']> (jobs st)) st) ≡ₚ Job.of_row id row' :: rest.
Proof.
  intros Hrow.
  exists (map (fun kr => Job.of_row kr.1 kr.2) (map_to_list (delete id (jobs st)))).
  rewrite !jobs_toArray_perm. simpl. split.
  - rewrite <- (insert_delete_id (jobs st) id row Hrow) at 1.
    by rewrite map_to_list_insert by apply lookup_delete_eq.
  - rewrite <- insert_delete_eq.
    by rewrite map_to_list_insert by apply lookup_delete_eq.
Qed.

Lemma orders_dense_replace (st : Store) (id : Z) (row row' : Job.row) :
  jobs st !! id = Some row -> Job.r_order row' = Job.r_order row ->
  orders_dense st -> orders_dense (set_jobs (<[id := row']> (jobs st)) st).
Proof.
  intros Hrow Horder. rewrite !orders_dense_perm.
  destruct (jobs_toArray_replace st id row row' Hrow) as (rest & H1 & H2).
  rewrite H1, H2. simpl. rewrite map_size_insert_Some by eauto. by rewrite Horder.
Qed.

Lemma store_ok_post_jobs (env : Env) (body : JobBody) (st : Store) :
  store_ok st -> store_ok (post_jobs env body st).2.
Proof.
  intros (Hs & Hslug & Hj & Ho & Hc).
  pose proof (post_jobs_slugs_distinct env body st) as Hslug'. cbv zeta in Hslug'.
  rewrite (ensureSeed_seeded _ _ Hs) in Hslug'.
  specialize (Hslug' Hslug). destruct Hslug' as [Hslug' _].
  destruct (post_jobs env body st) as [r st'] eqn:Hrun. simpl in *.
  destruct r as [job| |].
  - pose proof (post_jobs_orders_aux env body st st' job) as Hord. cbv zeta in Hord.
    destruct (post_jobs_ok env body st st' job Hrun) as (Hjob & Hfree & ->).
    rewrite (ensureSeed_seeded _ _ Hs) in Hord, Hjob, Hfree, Hslug', Hrun |- *.
    split_and!; [done|done| |by apply (Hord Ho Hrun)|done].
    simpl. rewrite Hjob. simpl. by apply ids_dense_insert.
  - pose proof (post_jobs_failure env body st) as Hf. rewrite Hrun in Hf. simpl in Hf.
    rewrite Hf by done. by rewrite (ensureSeed_seeded _ _ Hs).
  - pose proof (post_jobs_failure env body st) as Hf. rewrite Hrun in Hf. simpl in Hf.
    rewrite Hf by done. by rewrite (ensureSeed_seeded _ _ Hs).
Qed.

Lemma store_ok_patch_job (env : Env) (id : Z) (patch : JobPatch) (st : Store) :
  p_id patch = None -> p_order patch = None -> p_slug patch <> Some EmptyString ->
  store_ok st -> store_ok (patch_job env id patch st).2.
Proof.
  intros Hid Horder Hpslug (Hs & Hslug & Hj & Ho & Hc).
  pose proof (patch_job_slugs_distinct env id patch st Hid Hpslug) as Hslug'.
  cbv zeta in Hslug'. rewrite (ensureSeed_seeded _ _ Hs) in Hslug'.
  destruct (Hslug' Hslug) as [Hslug'' _]. clear Hslug'.
  unfold patch_job in *. cbv zeta in *. rewrite (ensureSeed_seeded _ _ Hs) in *.
  destruct (jobs st !! id) as [row|] eqn:Hrow; [|done].
  destruct (patch_slug_taken _ _ _); [done|].
  destruct (Js.lt_draw _ _); [done|]. simpl in *.
  rewrite Hid in *. simpl in *. unfold Table.put in *.
  split_and!; [done|done| | |done].
  - apply ids_dense_replace; [eauto|done].
  - apply (orders_dense_replace st id row); [done| |done].
    simpl. by rewrite Horder.
Qed.

Lemma store_ok_reorder_job (env : Env) (id : Z) (body : ReorderBody) (st : Store) :
  store_ok st -> store_ok (reorder_job env id body st).2.
Proof.
  intros (Hs & Hslug & Hj & Ho & Hc).
  destruct (reorder_job env id body st) as [r st'] eqn:Hrun. simpl.
  destruct r as [[]| |].
  - pose proof (reorder_listing_aux env id body st st' Hrun) as [_ Hord].
    cbv zeta in Hord.
    destruct (reorder_job_ok_exact env id body st st' Hrun)
      as (moved & l & _ & _ & Hst' & Hnd & Hl & Hrows).
    rewrite (ensureSeed_seeded _ _ Hs) in Hord, Hst', Hl, Hrows.
    assert (dom (jobs st') = dom (jobs st)) as Hdom
      by (rewrite Hst'; apply reindex_dom).
    assert (forall k, Job.set_order 0 <$> jobs st' !! k = Job.set_order 0 <$> jobs st !! k)
      as Hsame.
    { intros k. rewrite Hst'. simpl. destruct (decide (k ∈ map Job.id l)) as [Hin|Hout].
      - apply list_elem_of_fmap in Hin as (j & -> & Hjl).
        apply list_elem_of_lookup in Hjl as [i Hi].
        rewrite (reindex_lookup_at l 0 _ i j) by done.
        by destruct (jobs st !! Job.id j).
      - by rewrite reindex_lookup_notin. }
    split_and!.
    + by rewrite Hst'.
    + intros k1 k2 r1 r2 H1 H2 Heq.
      pose proof (Hsame k1) as E1. pose proof (Hsame k2) as E2.
      rewrite H1 in E1. rewrite H2 in E2. simpl in E1, E2.
      destruct (jobs st !! k1) as [o1|] eqn:Ho1; [|done].
      destruct (jobs st !! k2) as [o2|] eqn:Ho2; [|done].
      apply (Hslug k1 k2 o1 o2); [done|done|].
      apply (f_equal (fun o => Job.r_slug <$> o)) in E1, E2. simpl in E1, E2.
      congruence.
    + by apply (ids_dense_dom (jobs st)).
    + unfold orders_dense. rewrite Hord.
      by rewrite <- !size_dom, Hdom.
    + by rewrite Hst'.
  - pose proof (reorder_job_failure env id body st) as Hf. rewrite Hrun in Hf.
    simpl in Hf. rewrite Hf by done. by rewrite (ensureSeed_seeded _ _ Hs).
  - pose proof (reorder_job_failure env id body st) as Hf. rewrite Hrun in Hf.
    simpl in Hf. rewrite Hf by done. by rewrite (ensureSeed_seeded _ _ Hs).
Qed.

Lemma store_ok_same_tables (st st' : Store) :
  jobs st' = jobs st -> candidates st' = candidates st -> meta st' = meta st ->
  store_ok st -> store_ok st'.
Proof.
  intros Hj Hc Hm (Hs & Hslug & Hjd & Ho & Hcd).
  unfold store_ok, orders_dense, jobs_orderBy_order, jobs_toArray, seeded in *.
  by rewrite Hj, Hc, Hm.
Qed.

Lemma store_ok_serve (env : Env) (req : Request) (st : Store) :
  store_ok st -> well_behaved req -> store_ok (serve env req st).2.
Proof.
  intros Hok Hwb. pose proof Hok as (Hs & Hslug & Hj & Ho & Hc).
  destruct req; simpl.
  - unfold get_jobs. cbv zeta. simpl. by rewrite (ensureSeed_seeded _ _ Hs).
  - pose proof (store_ok_post_jobs env body st Hok). by destruct (post_jobs _ _ _).
  - destruct Hwb as (H1 & H2 & H3).
    pose proof (store_ok_patch_job env id patch st H1 H2 H3 Hok).
    by destruct (patch_job _ _ _ _).
  - pose proof (store_ok_reorder_job env id body st Hok). by destruct (reorder_job _ _ _ _).
  - unfold get_candidates. cbv zeta. simpl. by rewrite (ensureSeed_seeded _ _ Hs).
  - unfold post_candidates. cbv zeta. rewrite (ensureSeed_seeded _ _ Hs).
    destruct (Js.lt_draw _ _); [done|].
    unfold Table.add, Table.count. cbn [Candidate.id].
    rewrite (ids_dense_fresh _ Hc). simpl.
    split_and!; [done|done|done|done|]. simpl. by apply ids_dense_insert.
  - simpl in Hwb. unfold patch_candidate. cbv zeta. rewrite (ensureSeed_seeded _ _ Hs).
    destruct (candidates st !! id) as [row|] eqn:Hrow; [|done].
    destruct (stage_changes _ _); destruct (Js.lt_draw _ _); simpl;
      try (by apply (store_ok_same_tables st));
      (split_and!; [done|done|done|done|]); simpl; rewrite Hwb; simpl;
      apply ids_dense_replace; eauto.
  - unfold get_timeline. cbv zeta. simpl. by rewrite (ensureSeed_seeded _ _ Hs).
  - unfold post_note. cbv zeta. rewrite (ensureSeed_seeded _ _ Hs).
    destruct note_ as [text|]; [|done]. destruct (_ || _); [done|]. simpl.
    by apply (store_ok_same_tables st).
  - unfold get_assessment. cbv zeta. rewrite (ensureSeed_seeded _ _ Hs).
    by destruct (assessments st !! jobId).
  - unfold put_assessment. cbv zeta. rewrite (ensureSeed_seeded _ _ Hs).
    destruct (Js.lt_draw _ _); [done|]. simpl. by apply (store_ok_same_tables st).
  - unfold submit_assessment. cbv zeta. rewrite (ensureSeed_seeded _ _ Hs). simpl.
    by apply (store_ok_same_tables st).
Qed.

Lemma store_ok_seeded (d : SeedDraws) : store_ok (ensureSeed d empty_store).
Proof.
  split_and!.
  - apply seeded_ensureSeed.
  - intros k1 k2 r1 r2 H1 H2 Heq.
    apply seeded_job_lookup in H1 as (i1 & Hi1 & -> & ->).
    apply seeded_job_lookup in H2 as (i2 & Hi2 & -> & ->).
    change (Seed.slugBase (job_title d i1) +:+ String "-" (pretty (Z.of_nat i1 + 1))
            = Seed.slugBase (job_title d i2) +:+ String "-" (pretty (Z.of_nat i2 + 1)))
      in Heq.
    apply (f_equal after_last_dash) in Heq.
    rewrite !after_last_dash_app in Heq by by apply seed_suffix_no_dash.
    by apply (inj pretty) in Heq.
  - apply seeded_jobs_ids_dense.
  - apply seeded_orders_dense.
  - apply seeded_candidates_ids_dense.
Qed.

(** X26: the freshly seeded store has the shape the pages rely on, and
    every session of requests as the pages send them keeps it: the store
    is seeded, the slugs are pairwise distinct, the job ids are 1..n with
    the orders 0..n-1 and the candidate ids are 1..m, whatever the failure
    draws were. The requests of the session may be any, except that a job
    patch carries no [id], no [order] and no empty slug, and a candidate
    patch no [id]. *)
Theorem session_keeps_store_ok (d : SeedDraws) (reqs : list (Env * Request)) :
  Forall (fun er => well_behaved er.2) reqs ->
  store_ok (ensureSeed d empty_store) /\
  store_ok (serve_all reqs (ensureSeed d empty_store)) /\
  (forall st, store_ok st -> store_ok (serve_all reqs st)).
Proof.
  intros Hwb.
  assert (forall st, store_ok st -> store_ok (serve_all reqs st)) as Hall.
  { induction Hwb as [|[env req] reqs Hreq Hwb IH]; intros st Hok; simpl; [done|].
    apply IH. by apply store_ok_serve. }
  split_and!; [apply store_ok_seeded|apply Hall, store_ok_seeded|exact Hall].
Qed.

Lemma session_keeps_store_ok_witness :
  Forall (fun er => well_behaved er.2) SessionExamples.session /\
  store_ok (serve_all SessionExamples.session (ensureSeed Examples.draws empty_store)).
Proof.
  assert (Forall (fun er => well_behaved er.2) SessionExamples.session) as Hwb
    by (repeat constructor).
  split; [exact Hwb|].
  exact (proj1 (proj2 (session_keeps_store_ok Examples.draws SessionExamples.session Hwb))).
Defined.

(** ** Slugs *)




















(** ** The jobs page: reordering ahead of the server *)

Lemma id_not_in (l : list Job.t) (x j : Job.t) (i : nat) :
  Job.id x ∉ map Job.id l -> l !! i = Some j -> Job.id x <> Job.id j.
Proof.
  intros Hx Hi Heq. apply Hx. rewrite Heq.
  apply (list_elem_of_fmap_2 Job.id). by apply list_elem_of_lookup_2 with i.
Qed.

Lemma findIndex_id (l : list Job.t) (j : Job.t) (i : nat) :
  NoDup (map Job.id l) -> l !! i = Some j ->
  JobsPage.findIndex (fun x => Job.id x =? Job.id j) l = Z.of_nat i.
Proof.
  revert i. induction l as [|x l IH]; intros i Hnd Hi; [done|].
  simpl in Hnd. apply NoDup_cons in Hnd as [Hx Hnd].
  destruct i as [|i]; simpl in Hi |- *.
  - injection Hi as ->. by rewrite Z.eqb_refl.
  - destruct (Z.eqb_spec (Job.id x) (Job.id j)) as [Heq|_];
      [by destruct (id_not_in l x j i)|].
    rewrite (IH i) by done. destruct (Z.ltb_spec (Z.of_nat i) 0); lia.
Qed.

Lemma find_id (l : list Job.t) (j : Job.t) (i : nat) :
  NoDup (map Job.id l) -> l !! i = Some j ->
  find (fun x => Job.id x =? Job.id j) l = Some j.
Proof.
  revert i. induction l as [|x l IH]; intros i Hnd Hi; [done|].
  simpl in Hnd. apply NoDup_cons in Hnd as [Hx Hnd].
  destruct i as [|i]; simpl in Hi |- *.
  - injection Hi as ->. by rewrite Z.eqb_refl.
  - destruct (Z.eqb_spec (Job.id x) (Job.id j)) as [Heq|_];
      [by destruct (id_not_in l x j i)|].
    by apply (IH i).
Qed.

Lemma filter_other_ids (l : list Job.t) (id : Z) :
  id ∉ map Job.id l -> List.filter (fun x => negb (Job.id x =? id)) l = l.
Proof.
  induction l as [|x l IH]; intros Hid; simpl; [done|].
  simpl in Hid. apply not_elem_of_cons in Hid as [Hne Hid].
  destruct (Z.eqb_spec (Job.id x) id) as [Heq|_]; [done|]. simpl. by rewrite IH.
Qed.

Lemma filter_out_at (l : list Job.t) (j : Job.t) (i : nat) :
  NoDup (map Job.id l) -> l !! i = Some j ->
  List.filter (fun x => negb (Job.id x =? Job.id j)) l = delete i l.
Proof.
  revert i. induction l as [|x l IH]; intros i Hnd Hi; [done|].
  simpl in Hnd. apply NoDup_cons in Hnd as [Hx Hnd].
  destruct i as [|i]; simpl in Hi |- *.
  - injection Hi as ->. rewrite Z.eqb_refl. simpl. by apply filter_other_ids.
  - destruct (Z.eqb_spec (Job.id x) (Job.id j)) as [Heq|_];
      [by destruct (id_not_in l x j i)|].
    simpl. by rewrite (IH i).
Qed.

Lemma splice_insert_app_l {A} (start : Z) (x : A) (l k : list A) :
  0 <= start <= Z.of_nat (length l) ->
  Js.splice_insert start x (l ++ k) = Js.splice_insert start x l ++ k.
Proof.
  intros Hs. unfold Js.splice_insert, Js.rel_index.
  destruct (Z.ltb_spec start 0); [lia|]. rewrite length_app.
  rewrite !Nat.min_l by lia. rewrite take_app_le, drop_app_le by lia.
  by rewrite <- app_assoc.
Qed.

Lemma with_order_row (x : Job.t) (o : Z) :
  Job.of_row (Job.id x) (Job.set_order o (Job.to_row x)) = JobsPage.with_order x o.
Proof. done. Qed.

Lemma sorted_prefix (pre rest : list Job.t) :
  Sorted (fun a b => order_le a b = true) (pre ++ rest) ->
  Js.sort_by order_le pre = pre.
Proof.
  intros Hs. apply sort_by_sorted_id, StronglySorted_Sorted.
  apply (StronglySorted_app_1_l _ pre rest).
  by apply Sorted_StronglySorted; [apply order_le_trans|].
Qed.

(** What the server makes of a request to move the job at the place [i]
    of the listing to the place [to], both among the first jobs [pre] of
    the listing. *)
Lemma reorder_from_prefix (env : Env) (st : Store) (pre rest : list Job.t)
    (i : nat) (j : Job.t) (from to : Z) :
  seeded st = true ->
  jobs_orderBy_order st = pre ++ rest ->
  pre !! i = Some j ->
  0 <= to < Z.of_nat (length pre) ->
  Js.lt_draw (rnd env) (1 # 10) = false ->
  exists st' rest',
    reorder_job env (Job.id j) (mkReorder from to) st = (Ok ok_true, st') /\
    seeded st' = true /\
    length rest' = length rest /\
    jobs_orderBy_order st'
    = imap (fun k x => JobsPage.with_order x (Z.of_nat k))
        (Js.splice_insert to j (delete i pre)) ++ rest'.
Proof.
  intros Hs Hfull Hi Hto Hdraw.
  assert (jobs_orderBy_order st !! i = Some j) as Hi'
    by (rewrite Hfull; by apply lookup_app_l_Some).
  assert (NoDup (map Job.id (jobs_orderBy_order st))) as Hnd
    by (rewrite orderBy_order_perm; apply jobs_toArray_ids_NoDup).
  set (l := Js.splice_insert to j (delete i (jobs_orderBy_order st))).
  assert (l ≡ₚ jobs_orderBy_order st) as Hperm.
  { unfold l. rewrite splice_insert_perm. symmetry. by apply delete_Permutation. }
  assert (reorder_job env (Job.id j) (mkReorder from to) st
          = (Ok ok_true, set_jobs (reindex 0 l (jobs st)) st)) as Hrun.
  { unfold reorder_job. cbv zeta. rewrite (ensureSeed_seeded _ _ Hs), Hdraw.
    rewrite (find_id _ j i Hnd Hi'). rewrite sort_filtered_orderBy.
    by rewrite (filter_out_at _ j i Hnd Hi'). }
  exists (set_jobs (reindex 0 l (jobs st)) st).
  assert (i < length pre)%nat as Hlt by by apply lookup_lt_Some in Hi.
  assert (l = Js.splice_insert to j (delete i pre) ++ rest) as Hl.
  { unfold l. rewrite Hfull, !delete_take_drop.
    rewrite take_app_le, drop_app_le by lia. rewrite app_assoc.
    apply splice_insert_app_l. rewrite length_app, length_take, length_drop. lia. }
  eexists. split; [exact Hrun|]. split; [done|].
  rewrite toArray_reindexed.
  - rewrite Hl, imap_app. split; [|reflexivity]. by rewrite length_imap.
  - by rewrite Hperm.
  - intros x. rewrite Hperm. apply elem_of_orderBy_order.
Qed.

Lemma first_page_take {T} (items : list T) (ps : Z) :
  Page.data (paginate items 1 ps) = take (Js.rel_index (length items) ps) items.
Proof.
  unfold paginate, Js.slice. simpl. unfold Js.rel_index at 1 3. simpl.
  by rewrite Nat.sub_0_r.
Qed.

Lemma first_page_unfiltered (env : Env) (ps : Z) (st : Store) :
  seeded st = true ->
  get_jobs env (JobsPage.query 1 ps) st
  = (Ok (paginate (jobs_orderBy_order st) 1 ps), st).
Proof.
  intros Hs. unfold get_jobs. cbv zeta. rewrite (ensureSeed_seeded _ _ Hs).
  rewrite jobs_items_pipeline. simpl.
  rewrite (filter_ext _ (fun _ => true)) by done. by rewrite filter_true.
Qed.

(** The first page after the server has moved the job at its place [i]
    to its place [to]. *)
Lemma reorder_reload (env0 env : Env) (st : Store) (ps : Z) (i : nat) (j : Job.t)
    (from to : Z) :
  seeded st = true ->
  let page := paginate (jobs_orderBy_order st) 1 ps in
  Page.data page !! i = Some j ->
  0 <= to < Z.of_nat (length (Page.data page)) ->
  Js.lt_draw (rnd env) (1 # 10) = false ->
  exists st',
    reorder_job env (Job.id j) (mkReorder from to) st = (Ok ok_true, st') /\
    get_jobs env0 (JobsPage.query 1 ps) st'
    = (Ok (JobsPage.with_data page
             (imap (fun k x => JobsPage.with_order x (Z.of_nat k))
                (Js.splice_insert to j (delete i (Page.data page))))), st').
Proof.
  intros Hs page Hi Hto Hdraw.
  set (full := jobs_orderBy_order st) in *.
  set (k := Js.rel_index (length full) ps).
  assert (Page.data page = take k full) as Hdata by apply first_page_take.
  rewrite Hdata in Hi, Hto |- *.
  assert (k <= length full)%nat as Hk by apply rel_index_le.
  destruct (reorder_from_prefix env st (take k full) (drop k full) i j from to)
    as (st' & rest' & Hrun & Hs' & Hlen & Hlist);
    [done|by rewrite take_drop|done|done|done|].
  exists st'. split; [exact Hrun|].
  rewrite (first_page_unfiltered env0 ps st' Hs'). f_equal. f_equal.
  assert (length (imap (fun k x => JobsPage.with_order x (Z.of_nat k))
                    (Js.splice_insert to j (delete i (take k full)))) = k) as Hlen'.
  { rewrite length_imap, splice_insert_perm. simpl.
    pose proof (lookup_lt_Some _ _ _ Hi) as Hlt. rewrite length_delete by eauto.
    rewrite length_take in Hlt |- *. lia. }
  assert (length (jobs_orderBy_order st') = length full) as Hsame.
  { rewrite Hlist, length_app, Hlen', Hlen, length_drop. lia. }
  unfold paginate, JobsPage.with_data, page. cbn [Page.page Page.pageSize Page.total Page.pages].
  rewrite Hsame. f_equal.
  change (Page.data (paginate (jobs_orderBy_order st') 1 ps) = 
          imap (fun k x => JobsPage.with_order x (Z.of_nat k))
            (Js.splice_insert to j (delete i (take k full)))).
  rewrite first_page_take, Hsame. fold k. rewrite Hlist.
  by apply take_app_length'.
Qed.

Lemma rel_index_nat (len i : nat) : (i <= len)%nat -> Js.rel_index len (Z.of_nat i) = i.
Proof. intros Hi. unfold Js.rel_index. destruct (Z.ltb_spec (Z.of_nat i) 0); lia. Qed.

(** The first page shows the beginning of the listing by [order]. *)
Lemma first_page_facts (st : Store) (ps : Z) :
  let data := Page.data (paginate (jobs_orderBy_order st) 1 ps) in
  Js.sort_by order_le data = data /\ NoDup (map Job.id data) /\
  head data = head (jobs_orderBy_order st) \/ data = [].
Proof.
  intros data. unfold data. rewrite first_page_take.
  set (k := Js.rel_index _ _). set (full := jobs_orderBy_order st).
  destruct k as [|k]; [by right|]. left.
  assert (take (S k) full ++ drop (S k) full = full) as Hfull by apply take_drop.
  split_and!.
  - apply (sorted_prefix _ (drop (S k) full)). rewrite Hfull. apply orderBy_order_sorted.
  - assert (NoDup (map Job.id full)) as Hnd
      by (unfold full; rewrite orderBy_order_perm; apply jobs_toArray_ids_NoDup).
    rewrite <- Hfull, map_app in Hnd. by apply NoDup_app in Hnd as [Hnd _].
  - by destruct full.
Qed.

(** X29: the arrows of the jobs page. When the page shows the first page
    of the unfiltered listing and the server does not draw a failure, the
    jobs that [move] shows at once are the jobs the page gets when it
    loads again after the reorder request: moving ahead of the server
    shows what the server will store. *)
Theorem move_agrees_with_server (env0 env : Env) (st : Store) (ps : Z)
    (resp : Page.t Job.t) (j : Job.t) (direction : Z) (o : JobsPage.Optimistic) :
  seeded st = true ->
  get_jobs env0 (JobsPage.query 1 ps) st = (Ok resp, st) ->
  j ∈ Page.data resp ->
  JobsPage.move (Page.data resp) j direction = Some o ->
  Js.lt_draw (rnd env) (1 # 10) = false ->
  exists st',
    reorder_job env (JobsPage.sent_id o) (JobsPage.sent_body o) st = (Ok ok_true, st') /\
    get_jobs env0 (JobsPage.query 1 ps) st'
    = (Ok (JobsPage.with_data resp (JobsPage.shown o)), st').
Proof.
  intros Hs Hget Hj Hmove Hdraw.
  rewrite first_page_unfiltered in Hget by done. injection Hget as <-.
  apply list_elem_of_lookup in Hj as [i Hi].
  destruct (first_page_facts st ps) as [(Hsorted & Hnd & _)|Hnil];
    [|by rewrite Hnil in Hi].
  unfold JobsPage.move in Hmove. cbv zeta in Hmove.
  rewrite Hsorted, (findIndex_id _ j i Hnd Hi) in Hmove.
  destruct (_ || _) eqn:Hguard; [done|].
  apply orb_false_iff in Hguard as [Hlo Hhi].
  apply Z.ltb_ge in Hlo. apply Z.leb_gt in Hhi.
  unfold JobsPage.splice_out in Hmove.
  rewrite rel_index_nat in Hmove by (apply lookup_lt_Some in Hi; lia).
  rewrite Hi in Hmove. injection Hmove as <-. simpl.
  by apply reorder_reload.
Qed.

Lemma move_agrees_with_server_witness :
  exists st' resp',
    reorder_job Examples.env_pass 3 (mkReorder 2 1) Examples.small = (Ok ok_true, st') /\
    get_jobs Examples.env_pass (JobsPage.query 1 10) st' = (Ok resp', st') /\
    map Job.id (Page.data resp') = [1; 3; 2].
Proof.
  destruct (move_agrees_with_server Examples.env_pass Examples.env_pass Examples.small 10
              (paginate (jobs_orderBy_order Examples.small) 1 10)
              (Job.of_row 3 Examples.job_c) (-1)
              {| JobsPage.shown :=
                   [Job.of_row 1 Examples.job_a;
                    JobsPage.with_order (Job.of_row 3 Examples.job_c) 1;
                    JobsPage.with_order (Job.of_row 2 Examples.job_b) 2];
                 JobsPage.sent_id := 3;
                 JobsPage.sent_body := mkReorder 2 1 |})
    as (st' & Hrun & Hget);
    [by vm_compute|by vm_compute| |by vm_compute|by vm_compute|].
  { apply list_elem_of_lookup. exists 2%nat. by vm_compute. }
  exists st'. eexists. split; [exact Hrun|]. split; [exact Hget|]. reflexivity.
Defined.

Lemma first_order_zero (st : Store) :
  orders_dense st -> default 0 (Job.order <$> head (jobs_orderBy_order st)) = 0.
Proof.
  unfold orders_dense. destruct (jobs_orderBy_order st) as [|x l]; [done|].
  destruct (size (jobs st)); simpl; [done|]. by intros [= -> _].
Qed.

(** X30: drag and drop on the jobs page. When the page shows the first
    page of the unfiltered listing of a store whose orders are 0..n-1 and
    the server does not draw a failure, the jobs shown at once after a
    drop are the jobs the page gets when it loads again after the reorder
    request. *)
Theorem drop_agrees_with_server (env0 env : Env) (st : Store) (ps : Z)
    (resp : Page.t Job.t) (from idx : nat) (o : JobsPage.Optimistic) :
  seeded st = true ->
  orders_dense st ->
  get_jobs env0 (JobsPage.query 1 ps) st = (Ok resp, st) ->
  (idx < length (Page.data resp))%nat ->
  JobsPage.onDrop (Page.data resp) (Some from) idx = Some o ->
  Js.lt_draw (rnd env) (1 # 10) = false ->
  exists st',
    reorder_job env (JobsPage.sent_id o) (JobsPage.sent_body o) st = (Ok ok_true, st') /\
    get_jobs env0 (JobsPage.query 1 ps) st'
    = (Ok (JobsPage.with_data resp (JobsPage.shown o)), st').
Proof.
  intros Hs Hdense Hget Hidx Hdrop Hdraw.
  rewrite first_page_unfiltered in Hget by done. injection Hget as <-.
  unfold JobsPage.onDrop, JobsPage.splice_out in Hdrop.
  destruct (from =? idx)%nat; [done|].
  set (data := Page.data (paginate (jobs_orderBy_order st) 1 ps)) in *.
  destruct (decide (from < length data)%nat) as [Hfrom|Hfrom].
  - rewrite rel_index_nat in Hdrop by lia.
    destruct (data !! from) as [item|] eqn:Hi; [|done].
    destruct (first_page_facts st ps) as [(_ & _ & Hhead)|Hnil];
      [|by (fold data in Hnil; rewrite Hnil in Hi)].
    fold data in Hhead. rewrite Hhead, (first_order_zero st Hdense) in Hdrop.
    injection Hdrop as <-. simpl.
    apply (reorder_reload env0 env st ps from item); [done|done| |done].
    fold data. lia.
  - unfold Js.rel_index in Hdrop. destruct (Z.ltb_spec (Z.of_nat from) 0); [lia|].
    rewrite Nat.min_r in Hdrop by lia. by rewrite lookup_ge_None_2 in Hdrop.
Qed.

Lemma drop_agrees_with_server_witness :
  exists st' resp',
    reorder_job Examples.env_pass 1 (mkReorder 0 2) Examples.small = (Ok ok_true, st') /\
    get_jobs Examples.env_pass (JobsPage.query 1 10) st' = (Ok resp', st') /\
    map Job.id (Page.data resp') = [2; 3; 1].
Proof.
  destruct (drop_agrees_with_server Examples.env_pass Examples.env_pass Examples.small 10
              (paginate (jobs_orderBy_order Examples.small) 1 10) 0 2
              {| JobsPage.shown :=
                   [JobsPage.with_order (Job.of_row 2 Examples.job_b) 0;
                    JobsPage.with_order (Job.of_row 3 Examples.job_c) 1;
                    JobsPage.with_order (Job.of_row 1 Examples.job_a) 2];
                 JobsPage.sent_id := 1;
                 JobsPage.sent_body := mkReorder 0 2 |})
    as (st' & Hrun & Hget);
    [by vm_compute|by vm_compute|by vm_compute|vm_compute; lia|by vm_compute|by vm_compute|].
  exists st'. eexists. split; [exact Hrun|]. split; [exact Hget|]. reflexivity.
Defined.
